(** * png_flatten: a shallow embedding of tools/png_flatten.py

    The Python tool reads a PNG file, reverses the scanline filters,
    composites every pixel over opaque white and writes an RGB PNG.

    Conventions of the embedding:
    - a Python [bytes]/[bytearray] is a [list Z]; a byte is a [Z] in
      [0, 256) and every [& 0xFF], [>>], [//] of the source is written out;
    - lengths, loop counters and indices (all non-negative in the source)
      are [nat];
    - Python exceptions are the [Raise] side of [result]; the bounds and
      range checks Python performs on [b[i]] and [b[i] = v] are explicit;
    - the [zlib] compressor and decompressor are parameters of the
      orchestrator; [zlib.crc32] is implemented;
    - the operating system is a parameter too: which file a path names
      when it is opened, and whether the open succeeds.  Files are told
      apart by an identity of their own, not by the string that names them. *)

From Stdlib Require Import ZArith Lia String.
From stdpp Require Import base option list strings gmap.

Local Open Scope Z_scope.

(** ** Exceptions and the error monad *)

(** One constructor per [raise PNGFormatError(...)] site of the source. *)
Inductive format_error : Type :=
  | NotAPNGFile                       (* "Not a PNG file" *)
  | EOFInChunkLength                  (* "Unexpected EOF while reading chunk length" *)
  | EOFInChunkType                    (* "Unexpected EOF while reading chunk type" *)
  | EOFInChunkData                    (* "Unexpected EOF while reading chunk data" *)
  | EOFInChunkCRC                     (* "Unexpected EOF while reading chunk CRC" *)
  | IDATSizeUnexpected (got expected : nat)
  | UnsupportedFilterType (filter_type : Z)
  | RGBANotDivisibleBy4               (* "RGBA buffer length is not divisible by 4" *)
  | FirstChunkNotIHDR
  | IHDRInvalidLength
  | Only8BitSupported                 (* "Only 8-bit PNGs are supported" *)
  | InterlacedNotSupported
  | UnsupportedCompressionOrFilter
  | NoIDATChunks
  | DecompressFailed                  (* "Failed to decompress IDAT: ..." *)
  | UnsupportedColorType (color_type : Z)
  | PLTEMissing
  | PLTENotMultipleOf3
  | UnsupportedIndexedBitDepth (bit_depth : Z).

Inductive exn : Type :=
  | PNGFormatError (e : format_error)
  | EOFError
  | IndexError        (* b[i] out of range *)
  | ValueError        (* byte must be in range(0, 256) *)
  | StructError       (* struct.pack argument out of range *)
  | OSError.          (* open() failed: FileNotFoundError, IsADirectoryError,
                         PermissionError, ... *)

Inductive result (A : Type) : Type :=
  | Ok (a : A)
  | Raise (e : exn).
Arguments Ok {A} a.
Arguments Raise {A} e.

#[global] Instance result_ret : MRet result := fun _ a => Ok a.
#[global] Instance result_bind : MBind result := fun _ _ f m =>
  match m with
  | Ok a => f a
  | Raise e => Raise e
  end.

Definition is_Ok {A} (r : result A) : Prop := exists a, r = Ok a.

(** [for i in range(n): s = body(i, s)], stopping at the first exception. *)
Fixpoint for_loop {S : Type} (body : nat -> S -> result S) (i n : nat) (s : S)
  : result S :=
  match n with
  | O => Ok s
  | Datatypes.S n' => s' ← body i s; for_loop body (Datatypes.S i) n' s'
  end.

Definition for_range {S : Type} (n : nat) (body : nat -> S -> result S) (s : S)
  : result S :=
  for_loop body 0%nat n s.

(** ** Byte buffers *)

Definition is_byte (b : Z) : Prop := 0 <= b < 256.
Definition bytes_ok (l : list Z) : Prop := Forall is_byte l.

(** [b[i]] for a non-negative [i]. *)
Definition getitem (b : list Z) (i : nat) : result Z :=
  match b !! i with
  | Some x => Ok x
  | None => Raise IndexError
  end.

(** [b[i] = v] on a bytearray. *)
Definition setitem (b : list Z) (i : nat) (v : Z) : result (list Z) :=
  if decide (i < length b)%nat then
    if decide (0 <= v < 256) then Ok (<[i := v]> b) else Raise ValueError
  else Raise IndexError.

(** [b[lo:hi]] for non-negative bounds. *)
Definition slice (b : list Z) (lo hi : nat) : list Z :=
  take (hi - lo) (drop lo b).

(** [b[lo:hi] = v] on a bytearray, for non-negative bounds. *)
Definition slice_assign (b : list Z) (lo hi : nat) (v : list Z) : list Z :=
  take lo b ++ v ++ drop (Nat.max lo hi) b.

(** ** The Paeth predictor (source lines 77-86) *)

Definition _paeth_predictor (a b c : Z) : Z :=
  let p := a + b - c in
  let pa := Z.abs (p - a) in
  let pb := Z.abs (p - b) in
  let pc := Z.abs (p - c) in
  if (pa <=? pb) && (pa <=? pc) then a
  else if pb <=? pc then b
  else c.

(** ** Byte streams

    A stream is the state of a small state-and-exception monad: for a file
    opened for reading, the bytes not yet read; for a file opened for
    writing, the bytes written so far.  The state survives an exception,
    as the file on disk does. *)

Definition io (A : Type) : Type := list Z -> result A * list Z.

Definition io_ret {A} (a : A) : io A := fun s => (Ok a, s).

Definition io_raise {A} (e : exn) : io A := fun s => (Raise e, s).

Definition io_bind {A B} (m : io A) (k : A -> io B) : io B := fun s =>
  match m s with
  | (Ok a, s') => k a s'
  | (Raise e, s') => (Raise e, s')
  end.

Definition io_lift {A} (r : result A) : io A := fun s => (r, s).

Declare Scope io_scope.
Delimit Scope io_scope with io.
Notation "x <~ m ;; k" := (io_bind m (fun x => k))
  (at level 100, m at next level, right associativity) : io_scope.
Notation "m ;;; k" := (io_bind m (fun _ => k))
  (at level 100, right associativity) : io_scope.

(** [stream.read(n)]: up to [n] bytes, fewer only at the end of the file. *)
Definition stream_read (n : nat) : io (list Z) := fun s => (Ok (take n s), drop n s).

(** [stream.write(b)]. *)
Definition stream_write (b : list Z) : io unit := fun s => (Ok tt, s ++ b).

(** ** [struct] and [zlib.crc32] *)

(** [struct.pack(">I", n)]: four bytes, most significant first. *)
Definition struct_pack_I (n : Z) : result (list Z) :=
  if decide (0 <= n < 4294967296) then
    Ok [Z.land (Z.shiftr n 24) 255; Z.land (Z.shiftr n 16) 255;
        Z.land (Z.shiftr n 8) 255; Z.land n 255]
  else Raise StructError.

(** [struct.unpack(">I", b)] on a four-byte [b]; written as a fold so that it
    is defined on every list. *)
Definition struct_unpack_I (b : list Z) : Z :=
  foldl (fun acc x => Z.lor (Z.shiftl acc 8) x) 0 b.

(** [struct.pack("B", n)]. *)
Definition struct_pack_B (n : Z) : result (list Z) :=
  if decide (0 <= n < 256) then Ok [n] else Raise StructError.

(** [struct.pack(">IIBBBBB", ...)]. *)
Definition struct_pack_IHDR (width height bit_depth color_type compression
                             filter_method interlace : Z) : result (list Z) :=
  w ← struct_pack_I width;
  h ← struct_pack_I height;
  bd ← struct_pack_B bit_depth;
  ct ← struct_pack_B color_type;
  cm ← struct_pack_B compression;
  fm ← struct_pack_B filter_method;
  il ← struct_pack_B interlace;
  Ok (w ++ h ++ bd ++ ct ++ cm ++ fm ++ il).

Record ihdr : Type := Ihdr {
  ihdr_width : Z;
  ihdr_height : Z;
  ihdr_bit_depth : Z;
  ihdr_color_type : Z;
  ihdr_compression : Z;
  ihdr_filter_method : Z;
  ihdr_interlace : Z
}.

(** [struct.unpack(">IIBBBBB", data)] on a 13-byte [data]. *)
Definition struct_unpack_IHDR (data : list Z) : ihdr :=
  {| ihdr_width := struct_unpack_I (slice data 0 4);
     ihdr_height := struct_unpack_I (slice data 4 8);
     ihdr_bit_depth := data !!! 8%nat;
     ihdr_color_type := data !!! 9%nat;
     ihdr_compression := data !!! 10%nat;
     ihdr_filter_method := data !!! 11%nat;
     ihdr_interlace := data !!! 12%nat |}.

(** One bit of the CRC register: the reflected polynomial 0xEDB88320. *)
Definition crc32_shift (c : Z) : Z :=
  if Z.testbit c 0 then Z.lxor (Z.shiftr c 1) 0xEDB88320 else Z.shiftr c 1.

Definition crc32_byte (c b : Z) : Z :=
  Nat.iter 8 crc32_shift (Z.lxor c b).

(** [zlib.crc32(data, value)]. *)
Definition zlib_crc32 (data : list Z) (value : Z) : Z :=
  Z.lxor (foldl crc32_byte (Z.lxor value 0xFFFFFFFF) data) 0xFFFFFFFF.

(** The [zlib] compressor and decompressor, an external collaborator:
    [zlib.decompress] is [None] where it raises [zlib.error]. *)
Record zlib : Type := Zlib {
  zlib_decompress : list Z -> option (list Z);
  zlib_compress : list Z -> Z -> list Z
}.

(** ** Constants *)

(** The bytes of an ASCII literal such as [b'IHDR']. *)
Definition bytes_of (s : string) : list Z :=
  map (fun c => Z.of_N (Ascii.N_of_ascii c)) (list_ascii_of_string s).

Definition PNG_SIGNATURE : list Z := [137; 80; 78; 71; 13; 10; 26; 10].

Definition IHDR : list Z := Eval cbv in bytes_of "IHDR".
Definition IDAT : list Z := Eval cbv in bytes_of "IDAT".
Definition PLTE : list Z := Eval cbv in bytes_of "PLTE".
Definition tRNS : list Z := Eval cbv in bytes_of "tRNS".
Definition IEND : list Z := Eval cbv in bytes_of "IEND".
Definition sRGB : list Z := Eval cbv in bytes_of "sRGB".
Definition gAMA : list Z := Eval cbv in bytes_of "gAMA".
Definition cHRM : list Z := Eval cbv in bytes_of "cHRM".

(** ** The chunk codec (source lines 39-74) *)

Definition _read_chunk : io (list Z * list Z) :=
  (length_bytes <~ stream_read 4;;
   if decide (length_bytes = []) then io_raise EOFError
   else if decide (length length_bytes ≠ 4%nat) then
     io_raise (PNGFormatError EOFInChunkLength)
   else
     let length_ := struct_unpack_I length_bytes in
     chunk_type <~ stream_read 4;;
     if decide (length chunk_type ≠ 4%nat) then
       io_raise (PNGFormatError EOFInChunkType)
     else
       data <~ stream_read (Z.to_nat length_);;
       if decide (Z.of_nat (length data) ≠ length_) then
         io_raise (PNGFormatError EOFInChunkData)
       else
         crc_bytes <~ stream_read 4;;
         if decide (length crc_bytes ≠ 4%nat) then
           io_raise (PNGFormatError EOFInChunkCRC)
         else io_ret (chunk_type, data))%io.

Definition _write_chunk (chunk_type data : list Z) : io unit :=
  (length_bytes <~ io_lift (struct_pack_I (Z.of_nat (length data)));;
   stream_write length_bytes;;;
   stream_write chunk_type;;;
   stream_write data;;;
   let crc := zlib_crc32 chunk_type 0 in
   let crc := Z.land (zlib_crc32 data crc) 0xFFFFFFFF in
   crc_bytes <~ io_lift (struct_pack_I crc);;
   stream_write crc_bytes)%io.

(** ** Scanline unfiltering (source lines 89-136) *)

(** [curr[i - bytes_per_pixel] if i >= bytes_per_pixel else 0]. *)
Definition left_of (bytes_per_pixel : nat) (b : list Z) (i : nat) : result Z :=
  if decide (bytes_per_pixel <= i)%nat then getitem b (i - bytes_per_pixel) else Ok 0.

(** The body of the row loop for one filter type: [curr] is rebuilt in
    place, left to right, from [prev_row] and its own earlier bytes. *)
Definition unfilter_row (filter_type : Z) (row_size bytes_per_pixel : nat)
    (prev_row curr : list Z) : result (list Z) :=
  if decide (filter_type = 0) then Ok curr
  else if decide (filter_type = 1) then
    for_range row_size (fun i curr =>
      left ← left_of bytes_per_pixel curr i;
      x ← getitem curr i;
      setitem curr i (Z.land (x + left) 0xFF)) curr
  else if decide (filter_type = 2) then
    for_range row_size (fun i curr =>
      up ← getitem prev_row i;
      x ← getitem curr i;
      setitem curr i (Z.land (x + up) 0xFF)) curr
  else if decide (filter_type = 3) then
    for_range row_size (fun i curr =>
      left ← left_of bytes_per_pixel curr i;
      up ← getitem prev_row i;
      x ← getitem curr i;
      setitem curr i (Z.land (x + (left + up) / 2) 0xFF)) curr
  else if decide (filter_type = 4) then
    for_range row_size (fun i curr =>
      left ← left_of bytes_per_pixel curr i;
      up ← getitem prev_row i;
      up_left ← left_of bytes_per_pixel prev_row i;
      x ← getitem curr i;
      setitem curr i (Z.land (x + _paeth_predictor left up up_left) 0xFF)) curr
  else Raise (PNGFormatError (UnsupportedFilterType filter_type)).

Definition _unfilter_scanlines (raw : list Z) (height scanline_length bytes_per_pixel : nat)
  : result (list Z) :=
  let row_size := scanline_length in
  let expected_size := (height * (1 + row_size))%nat in
  raw ← (if decide (length raw ≠ expected_size) then
           if decide (length raw < expected_size)%nat then
             Raise (PNGFormatError (IDATSizeUnexpected (length raw) expected_size))
           else Ok (take expected_size raw)
         else Ok raw);
  let recon := replicate (height * row_size) 0 in
  let prev_row := replicate row_size 0 in
  let offset := 0%nat in
  '(recon, prev_row, offset) ←
    for_range height (fun y '(recon, prev_row, offset) =>
      filter_type ← getitem raw offset;
      let offset := (offset + 1)%nat in
      let curr := slice raw offset (offset + row_size) in
      let offset := (offset + row_size)%nat in
      curr ← unfilter_row filter_type row_size bytes_per_pixel prev_row curr;
      let start := (y * row_size)%nat in
      let recon := slice_assign recon start (start + row_size) curr in
      let prev_row := curr in
      Ok (recon, prev_row, offset)) (recon, prev_row, offset);
  Ok recon.

(** ** Compositing over white (source lines 139-154) *)

(** [(c * a + 255 * inv_a) // 255] with [inv_a = 255 - a]. *)
Definition over_white (c a : Z) : Z :=
  let inv_a := 255 - a in
  (c * a + 255 * inv_a) / 255.

Definition _flatten_rgba_over_white (rgba_bytes : list Z) : result (list Z) :=
  if decide ((length rgba_bytes) mod 4 ≠ 0)%nat then
    Raise (PNGFormatError RGBANotDivisibleBy4)
  else
    let out := replicate ((length rgba_bytes / 4) * 3) 0 in
    let j := 0%nat in
    (* range(0, len(rgba_bytes), 4) has ceil(len / 4) elements, i = 4 * k *)
    '(out, j) ←
      for_range ((length rgba_bytes + 3) / 4) (fun k '(out, j) =>
        let i := (4 * k)%nat in
        r ← getitem rgba_bytes i;
        g ← getitem rgba_bytes (i + 1);
        b ← getitem rgba_bytes (i + 2);
        a ← getitem rgba_bytes (i + 3);
        out ← setitem out j (over_white r a);
        out ← setitem out (j + 1) (over_white g a);
        out ← setitem out (j + 2) (over_white b a);
        let j := (j + 3)%nat in
        Ok (out, j)) (out, j);
    Ok out.

(** ** Indexed colour: palette expansion (source lines 241-293) *)

(** The nested function [get_index_from_row], closed over [bit_depth]. *)
Definition get_index_from_row (bit_depth : Z) (row : list Z) (x : nat) : result Z :=
  if decide (bit_depth = 8) then getitem row x
  else if decide (bit_depth = 4) then
    byte ← getitem row (x / 2);
    Ok (if decide (x mod 2 = 0)%nat then Z.land (Z.shiftr byte 4) 0x0F
        else Z.land byte 0x0F)
  else if decide (bit_depth = 2) then
    byte ← getitem row (x / 4);
    let shift := 6 - 2 * Z.of_nat (x mod 4) in
    Ok (Z.land (Z.shiftr byte shift) 0x03)
  else if decide (bit_depth = 1) then
    byte ← getitem row (x / 8);
    let shift := 7 - Z.of_nat (x mod 8) in
    Ok (Z.land (Z.shiftr byte shift) 0x01)
  else Raise (PNGFormatError (UnsupportedIndexedBitDepth bit_depth)).

(** [l[i] = v] on a Python list (no range check on the value). *)
Definition list_setitem (l : list Z) (i : nat) (v : Z) : result (list Z) :=
  if decide (i < length l)%nat then Ok (<[i := v]> l) else Raise IndexError.

(** [palette[idx]] on the list of triples, for a non-negative [idx]. *)
Definition palette_getitem (palette : list (Z * Z * Z)) (idx : nat) : result (Z * Z * Z) :=
  match palette !! idx with
  | Some c => Ok c
  | None => Raise IndexError
  end.

Definition expand_indexed (bit_depth : Z) (width height scanline_len : nat)
    (plte trns : option (list Z)) (recon : list Z) : result (list Z) :=
  match plte with
  | None => Raise (PNGFormatError PLTEMissing)
  | Some plte =>
    if decide ((length plte) mod 3 ≠ 0)%nat then
      Raise (PNGFormatError PLTENotMultipleOf3)
    else
      let num_palette := (length plte / 3)%nat in
      (* [... for i in range(0, len(plte), 3)], i = 3 * k *)
      palette ← mapM (fun k =>
                   let i := (3 * k)%nat in
                   r ← getitem plte i;
                   g ← getitem plte (i + 1);
                   b ← getitem plte (i + 2);
                   Ok (r, g, b)) (seq 0 ((length plte + 2) / 3));
      let alpha := replicate num_palette 255 in
      alpha ← match trns with
              | Some trns =>
                for_range (Nat.min num_palette (length trns)) (fun i alpha =>
                  t ← getitem trns i;
                  list_setitem alpha i t) alpha
              | None => Ok alpha
              end;
      let rgb := replicate (width * height * 3) 0 in
      let out_off := 0%nat in
      let row_len := scanline_len in
      '(rgb, out_off) ←
        for_range height (fun y '(rgb, out_off) =>
          let row := slice recon (y * row_len) ((y + 1) * row_len) in
          for_range width (fun x '(rgb, out_off) =>
            idx ← get_index_from_row bit_depth row x;
            '(r, g, b_, a) ←
              (if decide (Z.of_nat num_palette <= idx) then Ok (0, 0, 0, 255)
               else
                 '(r, g, b_) ← palette_getitem palette (Z.to_nat idx);
                 a ← getitem alpha (Z.to_nat idx);
                 Ok (r, g, b_, a));
            rgb ← setitem rgb out_off (over_white r a);
            rgb ← setitem rgb (out_off + 1) (over_white g a);
            rgb ← setitem rgb (out_off + 2) (over_white b_ a);
            let out_off := (out_off + 3)%nat in
            Ok (rgb, out_off)) (rgb, out_off)) (rgb, out_off);
      Ok rgb
  end.

(** ** The orchestrator (source lines 157-332) *)

(** What the chunk loop collects. *)
Record chunks : Type := Chunks {
  idat_parts : list (list Z);
  ancillary_chunks : list (list Z * list Z);
  plte : option (list Z);
  trns : option (list Z)
}.

(** The [while True] loop over [_read_chunk].  Every chunk read takes at
    least twelve bytes off the stream, so the loop is run with more fuel
    than the stream has bytes ([read_chunks_fuel] below: the result does not
    depend on the fuel from there on). *)
Fixpoint read_chunks (fuel : nat) (st : chunks) : io chunks :=
  match fuel with
  | O => io_ret st
  | S fuel => fun f =>
    match _read_chunk f with
    | (Raise EOFError, f) => (Ok st, f)                (* except EOFError: break *)
    | (Raise e, f) => (Raise e, f)
    | (Ok (chunk_type, data), f) =>
      if decide (chunk_type = IDAT) then
        read_chunks fuel
          (Chunks (idat_parts st ++ [data]) (ancillary_chunks st) (plte st) (trns st)) f
      else if decide (chunk_type = PLTE) then
        read_chunks fuel
          (Chunks (idat_parts st) (ancillary_chunks st) (Some data) (trns st)) f
      else if decide (chunk_type = tRNS) then
        read_chunks fuel
          (Chunks (idat_parts st) (ancillary_chunks st) (plte st) (Some data)) f
      else if decide (chunk_type = IEND) then (Ok st, f)
      else
        read_chunks fuel
          (Chunks (idat_parts st) (ancillary_chunks st ++ [(chunk_type, data)])
                  (plte st) (trns st)) f
    end
  end.

(** "Re-encode as RGB (color type 2), filter type 0 for all rows". *)
Definition refilter_rows (rgb_bytes : list Z) (width height : nat) : result (list Z) :=
  let row_size_rgb := (width * 3)%nat in
  let out_raw := replicate (height * (1 + row_size_rgb)) 0 in
  let off := 0%nat in
  '(out_raw, off) ←
    for_range height (fun y '(out_raw, off) =>
      out_raw ← setitem out_raw off 0;
      let off := (off + 1)%nat in
      let start := (y * row_size_rgb)%nat in
      let out_raw := slice_assign out_raw off (off + row_size_rgb)
                       (slice rgb_bytes start (start + row_size_rgb)) in
      let off := (off + row_size_rgb)%nat in
      Ok (out_raw, off)) (out_raw, off);
  Ok out_raw.

(** What the reading half hands to the writing half. *)
Record flattened : Type := Flattened {
  out_width : Z;
  out_height : Z;
  out_ancillary : list (list Z * list Z);
  out_compressed : list Z
}.

(** Source lines 159-306, on the open input file [f]. *)
Definition decode_and_flatten (z : zlib) : io flattened :=
  (sig <~ stream_read 8;;
   if decide (sig ≠ PNG_SIGNATURE) then io_raise (PNGFormatError NotAPNGFile)
   else
   (* Parse IHDR *)
   chunk <~ _read_chunk;;
   let '(chunk_type, data) := chunk in
   if decide (chunk_type ≠ IHDR) then io_raise (PNGFormatError FirstChunkNotIHDR)
   else if decide (length data ≠ 13%nat) then io_raise (PNGFormatError IHDRInvalidLength)
   else
   let hdr := struct_unpack_IHDR data in
   let width := ihdr_width hdr in
   let height := ihdr_height hdr in
   let bit_depth := ihdr_bit_depth hdr in
   let color_type := ihdr_color_type hdr in
   if decide (bit_depth ≠ 8) then io_raise (PNGFormatError Only8BitSupported)
   else if decide (ihdr_interlace hdr ≠ 0) then
     io_raise (PNGFormatError InterlacedNotSupported)
   else if decide (ihdr_compression hdr ≠ 0 \/ ihdr_filter_method hdr ≠ 0) then
     io_raise (PNGFormatError UnsupportedCompressionOrFilter)
   else
   st <~ (fun f => read_chunks (S (length f)) (Chunks [] [] None None) f);;
   if decide (idat_parts st = []) then io_raise (PNGFormatError NoIDATChunks)
   else
   let idat_data := concat (idat_parts st) in
   decompressed <~ match zlib_decompress z idat_data with
                   | Some d => io_ret d
                   | None => io_raise (PNGFormatError DecompressFailed)
                   end;;
   (* Determine layout *)
   layout <~ (if decide (color_type = 6) then io_ret (4, width * 4)
              else if decide (color_type = 2) then io_ret (3, width * 3)
              else if decide (color_type = 3) then
                io_ret (Z.max 1 ((bit_depth + 7) / 8), (width * bit_depth + 7) / 8)
              else io_raise (PNGFormatError (UnsupportedColorType color_type)));;
   let '(bpp, scanline_len) := layout in
   recon <~ io_lift (_unfilter_scanlines decompressed (Z.to_nat height)
                       (Z.to_nat scanline_len) (Z.to_nat bpp));;
   rgb_bytes <~ io_lift
     (if decide (color_type = 6) then _flatten_rgba_over_white recon
      else if decide (color_type = 2) then Ok recon
      else expand_indexed bit_depth (Z.to_nat width) (Z.to_nat height)
             (Z.to_nat scanline_len) (plte st) (trns st) recon);;
   out_raw <~ io_lift (refilter_rows rgb_bytes (Z.to_nat width) (Z.to_nat height));;
   let compressed := zlib_compress z out_raw 9 in
   io_ret (Flattened width height (ancillary_chunks st) compressed))%io.

(** The loop over [ancillary_chunks] of source lines 325-327. *)
Fixpoint write_ancillary (l : list (list Z * list Z)) : io unit :=
  match l with
  | [] => io_ret tt
  | (ctype, cdata) :: l =>
    ((if decide (ctype ∈ [sRGB; gAMA; cHRM]) then _write_chunk ctype cdata
      else io_ret tt);;;
     write_ancillary l)%io
  end.

(** Source lines 311-330, on the freshly opened output file [out]. *)
Definition write_png (d : flattened) : io unit :=
  (stream_write PNG_SIGNATURE;;;
   new_ihdr <~ io_lift (struct_pack_IHDR (out_width d) (out_height d) 8 2 0 0 0);;
   _write_chunk IHDR new_ihdr;;;
   write_ancillary (out_ancillary d);;;
   _write_chunk IDAT (out_compressed d);;;
   _write_chunk IEND [])%io.

(** [dst_path or (src_path if overwrite else src_path + ".flattened.png")]:
    [None] and the empty string are both falsy. *)
Definition resolve_output_path (src_path : string) (dst_path : option string)
    (overwrite : bool) : string :=
  match dst_path with
  | Some p => if decide (p = EmptyString) then
                (if overwrite then src_path else src_path +:+ ".flattened.png")
              else p
  | None => if overwrite then src_path else src_path +:+ ".flattened.png"
  end.

(** ** Files

    A file is known by its identity (an inode number); its content is kept
    by identity.  What a path names is up to the operating system: two
    different strings can name one file ([a.png] and [./a.png]), and an open
    can fail (a missing file, a directory, a missing parent, no
    permission).  The three calls the tool makes are parameters. *)
Definition inode : Type := N.

Record os : Type := Os {
  os_isfile : string -> bool;               (* os.path.isfile(path) *)
  os_open_rb : string -> option inode;      (* open(path, 'rb'); None: OSError *)
  os_open_wb : string -> option inode       (* open(path, 'wb'): the file the
                                               path names, or the one it
                                               creates; None: OSError *)
}.

(** [flatten_png_alpha_to_white]: the outcome and the file system it leaves
    (the content of every file).  [open(src_path, 'rb')] and
    [open(output_path, 'wb')] raise [OSError] when the operating system
    refuses; the second creates or truncates the file it names, and what was
    written before an exception stays in it. *)
Definition flatten_png_alpha_to_white (z : zlib) (sys : os) (src_path : string)
    (dst_path : option string) (overwrite : bool) (files : gmap inode (list Z))
  : result string * gmap inode (list Z) :=
  match os_open_rb sys src_path ≫= (files !!.) with
  | None => (Raise OSError, files)
  | Some f =>
    match fst (decode_and_flatten z f) with
    | Raise e => (Raise e, files)
    | Ok d =>
      let output_path := resolve_output_path src_path dst_path overwrite in
      match os_open_wb sys output_path with
      | None => (Raise OSError, files)
      | Some out_file =>
        let '(r, out) := write_png d [] in
        (_ ← r; Ok output_path, <[out_file := out]> files)
      end
    end
  end.

(** ** The command line (source lines 335-357)

    [argparse] is an external collaborator: [main] is modelled from the
    parsed arguments on.  What it prints is kept as a list of lines. *)

Record args : Type := Args {
  input : string;
  output : option string;
  in_place : bool
}.

Inductive printed : Type :=
  | Stdout (line : string)                  (* print(out_path) *)
  | StderrNotFound (path : string)          (* "Input file not found: ..." *)
  | StderrError (e : format_error).         (* "Error: ..." *)

(** [main]: the exit code (or the exception that escapes), what was
    printed, and the file system.  Only [PNGFormatError] is caught. *)
Definition main (z : zlib) (sys : os) (a : args) (files : gmap inode (list Z))
  : result Z * list printed * gmap inode (list Z) :=
  if negb (os_isfile sys (input a)) then
    (Ok 2, [StderrNotFound (input a)], files)
  else
    let overwrite := in_place a && bool_decide (output a = None) in
    match flatten_png_alpha_to_white z sys (input a) (output a) overwrite files with
    | (Raise (PNGFormatError exc), files) => (Ok 1, [StderrError exc], files)
    | (Raise e, files) => (Raise e, [], files)
    | (Ok out_path, files) => (Ok 0, [Stdout out_path], files)
    end.

(** * Reference definitions

    What the properties below compare the code with. *)

(** The composited triple of pixel [k] of an RGBA buffer. *)
Definition flattened_pixel (rgba_bytes : list Z) (k : nat) : list Z :=
  let a := rgba_bytes !!! (4 * k + 3)%nat in
  [over_white (rgba_bytes !!! (4 * k)%nat) a;
   over_white (rgba_bytes !!! (4 * k + 1)%nat) a;
   over_white (rgba_bytes !!! (4 * k + 2)%nat) a].

(** Every pixel of an RGBA buffer composited over white, in order. *)
Definition flattened_pixels (rgba_bytes : list Z) : list Z :=
  flat_map (flattened_pixel rgba_bytes) (seq 0 (length rgba_bytes / 4)).

(** A 32-bit length or checksum on the wire: four bytes, big-endian. *)
Definition be32 (n : Z) : list Z :=
  [n / 16777216 mod 256; n / 65536 mod 256; n / 256 mod 256; n mod 256].

(** A chunk as it stands in a file: length, type, payload and four bytes
    of checksum, whatever they are. *)
Definition raw_chunk (c : list Z * list Z * list Z) : list Z :=
  let '(chunk_type, data, crc_bytes) := c in
  be32 (Z.of_nat (length data)) ++ chunk_type ++ data ++ crc_bytes.

(** A chunk with its CRC-32, taken over type and payload. *)
Definition chunk_wire (c : list Z * list Z) : list Z :=
  let '(chunk_type, data) := c in
  raw_chunk (chunk_type, data,
             be32 (Z.land (zlib_crc32 (chunk_type ++ data) 0) 0xFFFFFFFF)).

(** A chunk that fits the format: a four-byte type, a payload whose length
    fits 32 bits, four bytes of checksum. *)
Definition chunk_ok (c : list Z * list Z * list Z) : Prop :=
  let '(chunk_type, data, crc_bytes) := c in
  length chunk_type = 4%nat /\ Z.of_nat (length data) < 4294967296
  /\ length crc_bytes = 4%nat.

(** The reference scanline filter of the PNG format (the tool itself only
    ever writes filter type 0): the prediction for byte [i] of [row] from the
    bytes to its left, above it and above-left, all unfiltered; bytes that
    fall outside the row count as 0. *)
Definition filter_prediction (filter_type : Z) (bytes_per_pixel : nat)
    (prev_row row : list Z) (i : nat) : Z :=
  let left := if decide (bytes_per_pixel <= i)%nat
              then row !!! (i - bytes_per_pixel)%nat else 0 in
  let up := prev_row !!! i in
  let up_left := if decide (bytes_per_pixel <= i)%nat
                 then prev_row !!! (i - bytes_per_pixel)%nat else 0 in
  if decide (filter_type = 1) then left
  else if decide (filter_type = 2) then up
  else if decide (filter_type = 3) then (left + up) / 2
  else if decide (filter_type = 4) then _paeth_predictor left up up_left
  else 0.

(** Filtering a row: each byte minus its prediction, modulo 256. *)
Definition filter_row (filter_type : Z) (bytes_per_pixel : nat)
    (prev_row row : list Z) : list Z :=
  imap (fun i x => (x - filter_prediction filter_type bytes_per_pixel prev_row row i)
                   mod 256) row.

(** The three ancillary chunk types that are copied to the output. *)
Definition whitelisted (c : list Z * list Z) : Prop := c.1 ∈ [sRGB; gAMA; cHRM].

#[global] Instance whitelisted_dec (c : list Z * list Z) : Decision (whitelisted c).
Proof. unfold whitelisted. apply _. Defined.

(** The output file, chunk by chunk. *)
Definition output_stream (width height : Z) (ancillary : list (list Z * list Z))
    (compressed : list Z) : list Z :=
  PNG_SIGNATURE
  ++ chunk_wire (IHDR, be32 width ++ be32 height ++ [8; 2; 0; 0; 0])
  ++ flat_map chunk_wire (filter whitelisted ancillary)
  ++ chunk_wire (IDAT, compressed)
  ++ chunk_wire (IEND, []).

(** The writing half either completes, or stops on a [struct.error]. *)
Definition completes_or_StructError (r : result unit * list Z) (out : list Z) : Prop :=
  r = (Ok tt, out) \/ exists partial, r = (Raise StructError, partial).

(** Type and payload of a chunk of the input. *)
Definition chunk_content (c : list Z * list Z * list Z) : list Z * list Z :=
  (c.1.1, c.1.2).

(** What one chunk other than the terminator adds to the collection. *)
Definition collect_chunk (st : chunks) (c : list Z * list Z) : chunks :=
  let '(chunk_type, data) := c in
  if decide (chunk_type = IDAT) then
    Chunks (idat_parts st ++ [data]) (ancillary_chunks st) (plte st) (trns st)
  else if decide (chunk_type = PLTE) then
    Chunks (idat_parts st) (ancillary_chunks st) (Some data) (trns st)
  else if decide (chunk_type = tRNS) then
    Chunks (idat_parts st) (ancillary_chunks st) (plte st) (Some data)
  else
    Chunks (idat_parts st) (ancillary_chunks st ++ [(chunk_type, data)])
           (plte st) (trns st).

(** Where the chunk loop stops: the end of the file, or a terminator chunk
    (and whatever follows it). *)
Definition chunks_end (tail : list Z) : Prop :=
  tail = [] \/ exists data crc_bytes junk,
    chunk_ok (IEND, data, crc_bytes) /\ tail = raw_chunk (IEND, data, crc_bytes) ++ junk.

(** Pixel [x] of a row of packed indices, [bit_depth] bits each, the first
    pixel in the most significant bits of the first byte. *)
Definition packed_index (bit_depth : Z) (row : list Z) (x : nat) : Z :=
  let per_byte := Z.to_nat (8 / bit_depth) in
  let k := Z.of_nat (x mod per_byte) in
  (row !!! (x / per_byte)%nat) / 2 ^ (8 - bit_depth * (k + 1)) mod 2 ^ bit_depth.

(** The alpha of palette entry [i]: from the transparency table where it
    has an entry, opaque otherwise. *)
Definition alpha_of (trns_ : option (list Z)) (i : nat) : Z :=
  match trns_ with
  | Some t => default 255 (t !! i)
  | None => 255
  end.

(** The output triple for palette index [idx]: the palette colour over
    white, black for an index past the end of the palette. *)
Definition indexed_pixel (plte_ : list Z) (trns_ : option (list Z)) (idx : Z) : Z * Z * Z :=
  if decide (Z.of_nat (length plte_ / 3) <= idx) then
    (over_white 0 255, over_white 0 255, over_white 0 255)
  else
    let i := Z.to_nat idx in
    let a := alpha_of trns_ i in
    (over_white (plte_ !!! (3 * i)%nat) a,
     over_white (plte_ !!! (3 * i + 1)%nat) a,
     over_white (plte_ !!! (3 * i + 2)%nat) a).

Definition triple_bytes (c : Z * Z * Z) : list Z := [c.1.1; c.1.2; c.2].

(** The expansion of an indexed image, row by row and pixel by pixel. *)
Definition expanded_pixels (bit_depth : Z) (width height scanline_len : nat)
    (plte_ : list Z) (trns_ : option (list Z)) (recon : list Z) : list Z :=
  flat_map (fun y =>
    let row := slice recon (y * scanline_len) ((y + 1) * scanline_len) in
    flat_map (fun x =>
      triple_bytes (indexed_pixel plte_ trns_ (packed_index bit_depth row x)))
      (seq 0 width))
    (seq 0 height).

(** A palette of byte triples. *)
Definition palette_ok (palette : list (Z * Z * Z)) : Prop :=
  Forall (fun c => is_byte c.1.1 /\ is_byte c.1.2 /\ is_byte c.2) palette.

(** The palette as the list of its triples, and the alpha table: the
    transparency table, filled up with 255 to the length of the palette. *)
Definition palette_of (plte_ : list Z) : list (Z * Z * Z) :=
  map (fun k => (plte_ !!! (3 * k)%nat, plte_ !!! (3 * k + 1)%nat, plte_ !!! (3 * k + 2)%nat))
      (seq 0 (length plte_ / 3)).

Definition alpha_table (num_palette : nat) (trns_ : option (list Z)) : list Z :=
  match trns_ with
  | Some t =>
    take (Nat.min num_palette (length t)) t
    ++ replicate (num_palette - Nat.min num_palette (length t)) 255
  | None => replicate num_palette 255
  end.

(** A stand-in for [zlib] in the examples: both directions are the identity. *)
Definition stored : zlib := Zlib (fun b => Some b) (fun b _ => b).

(** A stand-in operating system for the examples: [a.png] and [./a.png] both
    name file 1, which exists; [/] is a directory, so that opening it for
    writing fails; any other path can be created, as file 2. *)
Definition example_os : os :=
  {| os_isfile p := bool_decide (p = "a.png" \/ p = "./a.png");
     os_open_rb p := if decide (p = "a.png" \/ p = "./a.png") then Some 1%N else None;
     os_open_wb p := if decide (p = "a.png" \/ p = "./a.png") then Some 1%N
                     else if decide (p = "/") then None
                     else Some 2%N |}.

(** Two small indexed-colour files, for the stand-in codec: two pixels in a
    row, a palette of red and green; one packs the indices in four bits
    each, the other in eight. *)
Definition indexed_4bit_png : list Z :=
  PNG_SIGNATURE
  ++ chunk_wire (IHDR, be32 2 ++ be32 1 ++ [4; 3; 0; 0; 0])
  ++ chunk_wire (PLTE, [255; 0; 0; 0; 255; 0])
  ++ chunk_wire (IDAT, [0; 16])
  ++ chunk_wire (IEND, []).

Definition indexed_8bit_png : list Z :=
  PNG_SIGNATURE
  ++ chunk_wire (IHDR, be32 2 ++ be32 1 ++ [8; 3; 0; 0; 0])
  ++ chunk_wire (PLTE, [255; 0; 0; 0; 255; 0])
  ++ chunk_wire (IDAT, [0; 1; 0])
  ++ chunk_wire (IEND, []).

(** What [flatten_png_alpha_to_white] does between the chunk loop and the
    opening of the output file (source lines 202-306), as a function of the
    header and of what the loop collected. *)
Definition transform (z : zlib) (hdr : ihdr) (st : chunks) : result flattened :=
  let width := ihdr_width hdr in
  let height := ihdr_height hdr in
  let bit_depth := ihdr_bit_depth hdr in
  let color_type := ihdr_color_type hdr in
  if decide (idat_parts st = []) then Raise (PNGFormatError NoIDATChunks)
  else
    let idat_data := concat (idat_parts st) in
    decompressed ← match zlib_decompress z idat_data with
                   | Some d => Ok d
                   | None => Raise (PNGFormatError DecompressFailed)
                   end;
    layout ← (if decide (color_type = 6) then Ok (4, width * 4)
              else if decide (color_type = 2) then Ok (3, width * 3)
              else if decide (color_type = 3) then
                Ok (Z.max 1 ((bit_depth + 7) / 8), (width * bit_depth + 7) / 8)
              else Raise (PNGFormatError (UnsupportedColorType color_type)));
    let '(bpp, scanline_len) := layout in
    recon ← _unfilter_scanlines decompressed (Z.to_nat height)
              (Z.to_nat scanline_len) (Z.to_nat bpp);
    rgb_bytes ←
      (if decide (color_type = 6) then _flatten_rgba_over_white recon
       else if decide (color_type = 2) then Ok recon
       else expand_indexed bit_depth (Z.to_nat width) (Z.to_nat height)
              (Z.to_nat scanline_len) (plte st) (trns st) recon);
    out_raw ← refilter_rows rgb_bytes (Z.to_nat width) (Z.to_nat height);
    Ok (Flattened width height (ancillary_chunks st) (zlib_compress z out_raw 9)).

(** The header checks of source lines 165-177, in their order. *)
Definition check_header (chunk_type data : list Z) : result ihdr :=
  if decide (chunk_type ≠ IHDR) then Raise (PNGFormatError FirstChunkNotIHDR)
  else if decide (length data ≠ 13%nat) then Raise (PNGFormatError IHDRInvalidLength)
  else
    let hdr := struct_unpack_IHDR data in
    if decide (ihdr_bit_depth hdr ≠ 8) then Raise (PNGFormatError Only8BitSupported)
    else if decide (ihdr_interlace hdr ≠ 0) then
      Raise (PNGFormatError InterlacedNotSupported)
    else if decide (ihdr_compression hdr ≠ 0 \/ ihdr_filter_method hdr ≠ 0) then
      Raise (PNGFormatError UnsupportedCompressionOrFilter)
    else Ok hdr.

(** The filter tag of row [y] in a decompressed buffer of rows of
    [row_size] bytes, and the tags the tool knows. *)
Definition row_tag (raw : list Z) (row_size y : nat) : Z :=
  raw !!! (y * (1 + row_size))%nat.

Definition known_tag (t : Z) : Prop := 0 <= t <= 4.

(** The reference filter on a whole image: each row, tagged with its own
    filter type, is filtered against the row above it (zeros above the
    first). *)
Fixpoint filter_image (bytes_per_pixel : nat) (prev_row : list Z)
    (rows : list (Z * list Z)) : list Z :=
  match rows with
  | [] => []
  | (filter_type, row) :: rows =>
    filter_type :: filter_row filter_type bytes_per_pixel prev_row row
    ++ filter_image bytes_per_pixel row rows
  end.

(** A row of [n] bytes with a known filter tag. *)
Definition tagged_row_ok (n : nat) (r : Z * list Z) : Prop :=
  known_tag r.1 /\ length r.2 = n /\ bytes_ok r.2.

(** The rows of a buffer of [height] rows of [row_size] bytes. *)
Definition image_rows (b : list Z) (row_size height : nat) : list (list Z) :=
  map (fun y => slice b (y * row_size) (y * row_size + row_size)) (seq 0 height).

(** Rows serialised with filter tag 0 in front of each. *)
Definition rows_untouched (rows : list (list Z)) : list Z :=
  flat_map (fun row => 0 :: row) rows.

(** An RGBA buffer made of pixels, and what becomes of each pixel. *)
Definition rgba_of (px : list (Z * Z * Z * Z)) : list Z :=
  flat_map (fun '(r, g, b, a) => [r; g; b; a]) px.

Definition pixel_over_white (p : Z * Z * Z * Z) : list Z :=
  let '(r, g, b, a) := p in [over_white r a; over_white g a; over_white b a].

Definition pixel_ok (p : Z * Z * Z * Z) : Prop :=
  let '(r, g, b, a) := p in is_byte r /\ is_byte g /\ is_byte b /\ is_byte a.

(** Bytes per pixel of the three colour types the tool reads, at bit depth 8. *)
Definition channels (color_type : Z) : nat :=
  if decide (color_type = 6) then 4%nat
  else if decide (color_type = 2) then 3%nat
  else 1%nat.

(** The RGB pixel buffer for a reconstructed image of each colour type. *)
Definition rgb_pixels (hdr : ihdr) (st : chunks) (recon : list Z) : list Z :=
  if decide (ihdr_color_type hdr = 6) then flattened_pixels recon
  else if decide (ihdr_color_type hdr = 2) then recon
  else flat_map (fun idx =>
                   triple_bytes (indexed_pixel (default [] (plte st)) (trns st) idx))
                recon.

(** What the tool needs, once the header has passed its checks: pixel data
    that decompresses to enough rows with known filter tags, one of the
    three colour types, and for indexed colour a palette of whole triples. *)
Definition acceptable (z : zlib) (hdr : ihdr) (st : chunks) (raw : list Z) : Prop :=
  let height := Z.to_nat (ihdr_height hdr) in
  let row_size := (Z.to_nat (ihdr_width hdr) * channels (ihdr_color_type hdr))%nat in
  idat_parts st <> []
  /\ zlib_decompress z (concat (idat_parts st)) = Some raw
  /\ (ihdr_color_type hdr = 6 \/ ihdr_color_type hdr = 2 \/ ihdr_color_type hdr = 3)
  /\ (height * (1 + row_size) <= length raw)%nat
  /\ (forall y, (y < height)%nat -> known_tag (row_tag raw row_size y))
  /\ (ihdr_color_type hdr = 3 ->
      exists p, plte st = Some p /\ (length p mod 3 = 0)%nat).

(** A codec whose decompressor, given bytes, returns bytes. *)
Definition decompresses_to_bytes (z : zlib) : Prop :=
  forall x y, bytes_ok x -> zlib_decompress z x = Some y -> bytes_ok y.

(** A collection whose pixel data, palette and transparency table hold
    bytes. *)
Definition tables_ok (st : chunks) : Prop :=
  Forall bytes_ok (idat_parts st)
  /\ (forall p, plte st = Some p -> bytes_ok p)
  /\ (forall t, trns st = Some t -> bytes_ok t).

(** The path [main] writes to: [--output] when it is given and not empty,
    the input itself for [--in-place] without [--output], and the input path
    followed by [.flattened.png] otherwise. *)
Definition target_path (a : args) : string :=
  match output a with
  | Some o => if decide (o = EmptyString) then input a +:+ ".flattened.png" else o
  | None => if in_place a then input a else input a +:+ ".flattened.png"
  end.

(** A payload whose length fits the 32-bit length field of a chunk. *)
Definition fits32 (data : list Z) : Prop := Z.of_nat (length data) < 4294967296.

(** What is in the output file when the [IDAT] chunk cannot be written. *)
Definition partial_stream (width height : Z) (ancillary : list (list Z * list Z))
  : list Z :=
  PNG_SIGNATURE
  ++ chunk_wire (IHDR, be32 width ++ be32 height ++ [8; 2; 0; 0; 0])
  ++ flat_map chunk_wire (filter whitelisted ancillary).

(** A codec whose compressor returns bytes that its decompressor takes back
    to the input. *)
Definition codec_round_trip (z : zlib) : Prop :=
  forall x, bytes_ok x ->
    bytes_ok (zlib_compress z x 9)
    /\ zlib_decompress z (zlib_compress z x 9) = Some x.

(** A chunk as [_write_chunk] lays it out, as one with a checksum field. *)
Definition with_crc (c : list Z * list Z) : list Z * list Z * list Z :=
  (c.1, c.2, be32 (Z.land (zlib_crc32 (c.1 ++ c.2) 0) 0xFFFFFFFF)).

(** * Properties *)

(** ** The Paeth predictor *)

Lemma paeth_cases (a b c : Z) :
  let p := a + b - c in
  (Z.abs (p - a) <= Z.abs (p - b) /\ Z.abs (p - a) <= Z.abs (p - c)
     /\ _paeth_predictor a b c = a)
  \/ (~ (Z.abs (p - a) <= Z.abs (p - b) /\ Z.abs (p - a) <= Z.abs (p - c))
     /\ Z.abs (p - b) <= Z.abs (p - c) /\ _paeth_predictor a b c = b)
  \/ (~ (Z.abs (p - a) <= Z.abs (p - b) /\ Z.abs (p - a) <= Z.abs (p - c))
     /\ Z.abs (p - c) < Z.abs (p - b) /\ _paeth_predictor a b c = c).
Proof.
  cbv zeta. unfold _paeth_predictor.
  destruct (Z.leb_spec (Z.abs (a + b - c - a)) (Z.abs (a + b - c - b)));
    destruct (Z.leb_spec (Z.abs (a + b - c - a)) (Z.abs (a + b - c - c)));
    destruct (Z.leb_spec (Z.abs (a + b - c - b)) (Z.abs (a + b - c - c)));
    cbn [andb]; intuition lia.
Qed.

(** C1, as the code has it.  With [p = left + up - upLeft], the predictor
    returns one of its three arguments at minimal distance from [p]; [left]
    wins whenever it is at minimal distance, [up] wins over [upLeft] when
    [left] is not.  [paeth(10,10,0)] is [left] (10); [paeth(5,10,10)] is
    [left] too (5, at distance 0), and [paeth(11,8,10)] shows [up] winning a
    tie with [upLeft]. *)
Theorem paeth_predictor_selects (left up up_left : Z) :
  let p := left + up - up_left in
  let dist x := Z.abs (p - x) in
  let r := _paeth_predictor left up up_left in
  (r = left \/ r = up \/ r = up_left)
  /\ (dist r <= dist left /\ dist r <= dist up /\ dist r <= dist up_left)
  /\ (dist left <= dist up /\ dist left <= dist up_left -> r = left)
  /\ (~ (dist left <= dist up /\ dist left <= dist up_left)
      -> dist up <= dist up_left -> r = up)
  /\ (~ (dist left <= dist up /\ dist left <= dist up_left)
      -> dist up_left < dist up -> r = up_left)
  /\ _paeth_predictor 10 10 0 = 10
  /\ _paeth_predictor 5 10 10 = 5
  /\ _paeth_predictor 11 8 10 = 8.
Proof.
  cbv zeta.
  destruct (paeth_cases left up up_left) as [H | [H | H]]; cbv zeta in H;
    destruct H as (H1 & H2 & ->);
    repeat split; try reflexivity; try tauto; try lia.
Qed.

Lemma paeth_predictor_selects_witness :
  _paeth_predictor 10 10 0 = 10 /\ _paeth_predictor 11 8 10 = 8.
Proof.
  split.
  - destruct (paeth_predictor_selects 10 10 0) as (_ & _ & Hleft & _).
    apply Hleft. cbn. lia.
  - destruct (paeth_predictor_selects 11 8 10) as (_ & _ & _ & Hup & _).
    apply Hup; cbn; lia.
Defined.

(** C1 as the specification words it fails: on [(5, 10, 10)] the predictor
    is [p = 5], so [left] is at distance 0 and is returned, not [up]. *)
Lemma paeth_5_10_10_is_left :
  _paeth_predictor 5 10 10 = 5 /\ (_paeth_predictor 5 10 10 =? 10) = false.
Proof. split; reflexivity. Qed.

(** ** Loops and buffers *)

Lemma result_bind_Ok {A B} (f : A -> result B) (a : A) : (Ok a ≫= f) = f a.
Proof. reflexivity. Qed.

Lemma for_loop_S {S} (body : nat -> S -> result S) i n s :
  for_loop body i (Datatypes.S n) s = (body i s ≫= for_loop body (Datatypes.S i) n).
Proof. reflexivity. Qed.

(** Loop invariants: a body that succeeds and keeps [I] makes the loop
    succeed in a state where [I] holds. *)
Lemma for_loop_invariant {S} (I : nat -> S -> Prop) (body : nat -> S -> result S) n :
  forall i s,
    I i s ->
    (forall j t, (i <= j < i + n)%nat -> I j t ->
       exists t', body j t = Ok t' /\ I (Datatypes.S j) t') ->
    exists s', for_loop body i n s = Ok s' /\ I (i + n)%nat s'.
Proof.
  induction n as [|n IH]; intros i s Hi Hbody.
  - exists s. rewrite Nat.add_0_r. auto.
  - destruct (Hbody i s) as (t' & Hb & Ht'); [lia | assumption |].
    rewrite for_loop_S, Hb, result_bind_Ok.
    destruct (IH (Datatypes.S i) t') as (s' & Hs' & HI); [assumption | |].
    + intros j t Hj. apply Hbody. lia.
    + exists s'. split; [assumption |]. now replace (i + Datatypes.S n)%nat
        with (Datatypes.S i + n)%nat by lia.
Qed.

Lemma for_range_invariant {S} (I : nat -> S -> Prop) (body : nat -> S -> result S) n s :
  I 0%nat s ->
  (forall j t, (j < n)%nat -> I j t ->
     exists t', body j t = Ok t' /\ I (Datatypes.S j) t') ->
  exists s', for_range n body s = Ok s' /\ I n s'.
Proof.
  intros H0 Hbody. unfold for_range.
  destruct (for_loop_invariant I body n 0%nat s H0) as (s' & ? & ?); eauto.
  intros j t Hj. apply Hbody. lia.
Qed.

(** A loop raises only what its body raises: if the body keeps [I] and
    never raises [e] under it, neither does the loop. *)
Lemma for_loop_never {S} (e : exn) (I : S -> Prop) (body : nat -> S -> result S) n :
  forall i s,
    I s ->
    (forall j t, I t -> body j t <> Raise e /\ forall t', body j t = Ok t' -> I t') ->
    for_loop body i n s <> Raise e
    /\ forall s', for_loop body i n s = Ok s' -> I s'.
Proof.
  induction n as [|n IH]; intros i s Hs Hbody.
  - cbn. split; [discriminate | intros s' [= <-]; assumption].
  - rewrite for_loop_S. destruct (Hbody i s Hs) as [Hne Hok].
    destruct (body i s) as [t | e']; cbn.
    + apply IH; auto.
    + split; [congruence | discriminate].
Qed.

Lemma getitem_Ok (b : list Z) i x : b !! i = Some x -> getitem b i = Ok x.
Proof. unfold getitem. now intros ->. Qed.

Lemma getitem_inv (b : list Z) i x : getitem b i = Ok x -> b !! i = Some x.
Proof. unfold getitem. destruct (b !! i); congruence. Qed.

Lemma getitem_never_ValueError (b : list Z) i : getitem b i <> Raise ValueError.
Proof. unfold getitem. destruct (b !! i); congruence. Qed.

Lemma getitem_byte (b : list Z) i x : bytes_ok b -> getitem b i = Ok x -> is_byte x.
Proof.
  intros Hb H%getitem_inv. unfold bytes_ok in Hb. rewrite Forall_lookup in Hb. eauto.
Qed.

Lemma setitem_Ok (b : list Z) i v :
  (i < length b)%nat -> is_byte v -> setitem b i v = Ok (<[i := v]> b).
Proof.
  intros Hi Hv. unfold setitem, is_byte in *.
  destruct (decide (i < length b)%nat); [| lia].
  destruct (decide (0 <= v < 256)); [reflexivity | lia].
Qed.

Lemma setitem_byte_never_ValueError (b : list Z) i v :
  is_byte v -> setitem b i v <> Raise ValueError.
Proof.
  intros Hv. unfold setitem, is_byte in *.
  destruct (decide (i < length b)%nat); [| discriminate].
  destruct (decide (0 <= v < 256)); [discriminate | lia].
Qed.

Lemma land_255_mod (x : Z) : Z.land x 255 = x mod 256.
Proof. change 255 with (Z.ones 8). now rewrite Z.land_ones by lia. Qed.

Lemma land_255_byte (x : Z) : is_byte (Z.land x 255).
Proof. rewrite land_255_mod. unfold is_byte. apply Z.mod_pos_bound. lia. Qed.

Lemma bytes_ok_lookup (b : list Z) i x : bytes_ok b -> b !! i = Some x -> is_byte x.
Proof. unfold bytes_ok. rewrite Forall_lookup. eauto. Qed.

(** A buffer is checked to hold bytes by computation. *)
Lemma bytes_ok_forallb (b : list Z) :
  forallb (fun x => (0 <=? x) && (x <? 256)) b = true -> bytes_ok b.
Proof.
  intros H. apply Forall_forall. intros x Hx%list_elem_of_In.
  rewrite forallb_forall in H. specialize (H x Hx).
  apply andb_true_iff in H as [H1 H2]. unfold is_byte. lia.
Qed.

(** ** Compositing over white *)

Lemma over_white_opaque (c : Z) : over_white c 255 = c.
Proof. unfold over_white. cbn -[Z.mul Z.div]. rewrite Z.add_0_r. apply Z.div_mul. lia. Qed.

Lemma over_white_transparent (c : Z) : over_white c 0 = 255.
Proof. unfold over_white. rewrite Z.mul_0_r. reflexivity. Qed.

Lemma over_white_byte (c a : Z) : is_byte c -> is_byte a -> is_byte (over_white c a).
Proof.
  unfold is_byte, over_white. intros Hc Ha. cbv zeta. split.
  - apply Z.div_pos; nia.
  - apply Z.div_lt_upper_bound; nia.
Qed.

Lemma lookup_total_Some (b : list Z) i : (i < length b)%nat -> b !! i = Some (b !!! i).
Proof.
  intros Hi. destruct (lookup_lt_is_Some_2 b i Hi) as [x Hx].
  rewrite Hx. f_equal. symmetry. now apply list_lookup_total_correct.
Qed.

Lemma getitem_total (b : list Z) i : (i < length b)%nat -> getitem b i = Ok (b !!! i).
Proof. intros Hi. apply getitem_Ok, lookup_total_Some, Hi. Qed.

Lemma bytes_ok_total (b : list Z) i : bytes_ok b -> (i < length b)%nat -> is_byte (b !!! i).
Proof. intros Hb Hi. eapply bytes_ok_lookup; [exact Hb | now apply lookup_total_Some]. Qed.

(** Three consecutive stores into the zero-filled tail of a buffer. *)
Lemma setitem_three (done_ : list Z) (m : nat) (v1 v2 v3 : Z) :
  is_byte v1 -> is_byte v2 -> is_byte v3 ->
  let j := length done_ in
  (out ← setitem (done_ ++ replicate (3 * Datatypes.S m) 0) j v1;
   out ← setitem out (j + 1) v2;
   setitem out (j + 2) v3)
  = Ok ((done_ ++ [v1; v2; v3]) ++ replicate (3 * m) 0).
Proof.
  intros H1 H2 H3 j.
  replace (3 * Datatypes.S m)%nat with (3 + 3 * m)%nat by lia.
  rewrite replicate_add. cbn [replicate app].
  rewrite setitem_Ok; [| rewrite length_app; cbn; lia | assumption].
  rewrite result_bind_Ok.
  rewrite setitem_Ok; [| rewrite length_insert, length_app; cbn; lia | assumption].
  rewrite result_bind_Ok.
  rewrite setitem_Ok; [| rewrite !length_insert, length_app; cbn; lia | assumption].
  f_equal. subst j.
  rewrite (insert_app_r_alt done_ _ (length done_)) by lia.
  rewrite (insert_app_r_alt done_ _ (length done_ + 1)) by lia.
  rewrite (insert_app_r_alt done_ _ (length done_ + 2)) by lia.
  replace (length done_ - length done_)%nat with 0%nat by lia.
  replace (length done_ + 1 - length done_)%nat with 1%nat by lia.
  replace (length done_ + 2 - length done_)%nat with 2%nat by lia.
  cbn. now rewrite <- app_assoc.
Qed.

Lemma flattened_pixel_bytes (rgba : list Z) k :
  bytes_ok rgba -> (4 * k + 3 < length rgba)%nat -> bytes_ok (flattened_pixel rgba k).
Proof.
  intros Hb Hk. unfold flattened_pixel, bytes_ok.
  repeat constructor; apply over_white_byte; apply bytes_ok_total; auto; lia.
Qed.

(** The pixel loop of [_flatten_rgba_over_white] computes [flattened_pixels]. *)
Lemma flatten_rgba_spec (rgba_bytes : list Z) :
  bytes_ok rgba_bytes -> (length rgba_bytes mod 4 = 0)%nat ->
  _flatten_rgba_over_white rgba_bytes = Ok (flattened_pixels rgba_bytes).
Proof.
  intros Hb Hmod. unfold _flatten_rgba_over_white.
  destruct (decide (length rgba_bytes mod 4 ≠ 0)%nat) as [? | _]; [contradiction |].
  set (n := (length rgba_bytes / 4)%nat).
  assert (Hlen : length rgba_bytes = (4 * n)%nat).
  { subst n. pose proof (Nat.div_mod (length rgba_bytes) 4). lia. }
  replace ((length rgba_bytes + 3) / 4)%nat with n.
  2:{ rewrite Hlen. apply Nat.div_unique with 3%nat; lia. }
  set (I := fun (k : nat) (st : list Z * nat) =>
              st.2 = (3 * k)%nat /\ (k <= n)%nat /\
              st.1 = flat_map (flattened_pixel rgba_bytes) (seq 0 k)
                     ++ replicate (3 * (n - k)) 0).
  match goal with
  | |- (for_range n ?body ?s0 ≫= _) = _ =>
      destruct (for_range_invariant I body n s0) as ([out j] & Hrun & Hj & _ & Hout)
  end.
  - subst I. cbn [fst snd flat_map seq app]. repeat split; [lia | f_equal; lia].
  - intros k [out j] Hk (Hj & _ & Hout). cbn [fst snd] in Hj, Hout. subst j.
    rewrite !getitem_total by lia. rewrite !result_bind_Ok.
    assert (Hlen_done : length (flat_map (flattened_pixel rgba_bytes) (seq 0 k))
                        = (3 * k)%nat).
    { clear. induction k as [|k IH]; [reflexivity |].
      rewrite seq_S, flat_map_app, length_app, IH. cbn. lia. }
    pose proof (flattened_pixel_bytes rgba_bytes k Hb ltac:(lia)) as Hpx.
    unfold flattened_pixel in Hpx. cbv zeta in Hpx.
    apply Forall_cons in Hpx as [H1 Hpx]. apply Forall_cons in Hpx as [H2 Hpx].
    apply Forall_cons in Hpx as [H3 _].
    pose proof (setitem_three (flat_map (flattened_pixel rgba_bytes) (seq 0 k))
                  (n - Datatypes.S k) _ _ _ H1 H2 H3) as Hset.
    cbv zeta in Hset. rewrite Hlen_done in Hset.
    replace (Datatypes.S (n - Datatypes.S k)) with (n - k)%nat in Hset by lia.
    rewrite Hout.
    destruct (setitem _ (3 * k) _) as [o1 |]; [| discriminate].
    rewrite result_bind_Ok. rewrite result_bind_Ok in Hset.
    destruct (setitem o1 _ _) as [o2 |]; [| discriminate].
    rewrite result_bind_Ok. rewrite result_bind_Ok in Hset.
    rewrite Hset, result_bind_Ok.
    eexists. split; [reflexivity |]. subst I. cbn [fst snd].
    repeat split; [lia | lia |].
    rewrite seq_S, flat_map_app. cbn [flat_map seq Nat.add]. now rewrite app_nil_r.
  - rewrite Hrun, result_bind_Ok. cbn [fst snd] in Hout. subst out.
    rewrite Nat.sub_diag, Nat.mul_0_r. cbn [replicate]. now rewrite app_nil_r.
Qed.

(** C4.  For channel and alpha bytes [c], [a], compositing over white is
    [(c*a + 255*(255-a)) // 255]: it is [c] at [a = 255] and [255] at
    [a = 0]; the truecolour-alpha flattener applies it to every pixel of
    its buffer, and the pixel (200,100,50,128) becomes (227,177,152). *)
Theorem composite_over_white (c a : Z) (rgba_bytes : list Z) :
  is_byte c -> is_byte a ->
  bytes_ok rgba_bytes -> (length rgba_bytes mod 4 = 0)%nat ->
  over_white c a = (c * a + 255 * (255 - a)) / 255
  /\ over_white c 255 = c
  /\ over_white c 0 = 255
  /\ _flatten_rgba_over_white rgba_bytes = Ok (flattened_pixels rgba_bytes)
  /\ _flatten_rgba_over_white [200; 100; 50; 128] = Ok [227; 177; 152].
Proof.
  intros _ _ Hb Hlen. repeat split.
  - apply over_white_opaque.
  - apply over_white_transparent.
  - now apply flatten_rgba_spec.
Qed.

Lemma composite_over_white_witness :
  over_white 200 128 = (200 * 128 + 255 * (255 - 128)) / 255
  /\ over_white 200 255 = 200
  /\ over_white 200 0 = 255
  /\ _flatten_rgba_over_white [200; 100; 50; 128; 1; 2; 3; 0]
     = Ok (flattened_pixels [200; 100; 50; 128; 1; 2; 3; 0])
  /\ _flatten_rgba_over_white [200; 100; 50; 128] = Ok [227; 177; 152].
Proof.
  apply (composite_over_white 200 128 [200; 100; 50; 128; 1; 2; 3; 0]).
  - unfold is_byte; lia.
  - unfold is_byte; lia.
  - repeat constructor; unfold is_byte; lia.
  - reflexivity.
Defined.

(** ** Byte stores of the indexed-colour expander *)

Lemma mapM_result_never {A B} (e : exn) (P : B -> Prop) (f : A -> result B) (l : list A) :
  (forall x, f x <> Raise e /\ forall y, f x = Ok y -> P y) ->
  mapM f l <> Raise e /\ forall k, mapM f l = Ok k -> Forall P k.
Proof.
  intros Hf. induction l as [|x l [IHne IHok]]; cbn.
  - split; [discriminate | intros k [= <-]; constructor].
  - destruct (Hf x) as [Hne Hok]. destruct (f x) as [y | e']; cbn; [| split; congruence].
    destruct (mapM f l) as [k' | e']; cbn; [| split; congruence].
    split; [discriminate |]. intros k [= <-]. constructor; auto.
Qed.

Lemma get_index_never_ValueError bit_depth row x :
  get_index_from_row bit_depth row x <> Raise ValueError.
Proof.
  unfold get_index_from_row.
  repeat case_decide; try discriminate;
    try apply getitem_never_ValueError;
    (destruct (getitem row _) eqn:E; cbn; [discriminate |];
     intros [= ->]; now apply getitem_never_ValueError in E).
Qed.

(** One pixel of the expander stores three bytes, whatever the index. *)
Lemma expand_pixel_never_ValueError bit_depth num_palette palette alpha row x
    (st : list Z * nat) :
  palette_ok palette -> bytes_ok alpha ->
  (let '(rgb, out_off) := st in
   idx ← get_index_from_row bit_depth row x;
   '(r, g, b_, a) ←
     (if decide (Z.of_nat num_palette <= idx) then Ok (0, 0, 0, 255)
      else
        '(r, g, b_) ← palette_getitem palette (Z.to_nat idx);
        a ← getitem alpha (Z.to_nat idx);
        Ok (r, g, b_, a));
   rgb ← setitem rgb out_off (over_white r a);
   rgb ← setitem rgb (out_off + 1) (over_white g a);
   rgb ← setitem rgb (out_off + 2) (over_white b_ a);
   let out_off := (out_off + 3)%nat in
   Ok (rgb, out_off)) <> Raise ValueError.
Proof.
  intros Hpal Halpha. destruct st as [rgb out_off].
  pose proof (get_index_never_ValueError bit_depth row x) as Hidx.
  destruct (get_index_from_row bit_depth row x) as [idx | e]; cbn; [| congruence].
  assert (Hpx : forall r g b_ a (rgb : list Z),
             is_byte r -> is_byte g -> is_byte b_ -> is_byte a ->
             (rgb ← setitem rgb out_off (over_white r a);
              rgb ← setitem rgb (out_off + 1) (over_white g a);
              rgb ← setitem rgb (out_off + 2) (over_white b_ a);
              Ok (rgb, (out_off + 3)%nat)) <> Raise ValueError).
  { intros r g b_ a rgb0 Hr Hg Hb Ha.
    pose proof (setitem_byte_never_ValueError rgb0 out_off _ (over_white_byte r a Hr Ha)).
    destruct (setitem rgb0 out_off _) as [o1 | e]; cbn; [| congruence].
    pose proof (setitem_byte_never_ValueError o1 (out_off + 1) _ (over_white_byte g a Hg Ha)).
    destruct (setitem o1 _ _) as [o2 | e]; cbn; [| congruence].
    pose proof (setitem_byte_never_ValueError o2 (out_off + 2) _ (over_white_byte b_ a Hb Ha)).
    destruct (setitem o2 _ _) as [o3 | e]; cbn; [discriminate | congruence]. }
  case_decide.
  - cbn. apply Hpx; unfold is_byte; lia.
  - unfold palette_getitem.
    destruct (palette !! Z.to_nat idx) as [[[r g] b_] |] eqn:Ep; cbn; [| discriminate].
    destruct (getitem alpha (Z.to_nat idx)) as [a | e] eqn:Ea; cbn.
    + unfold palette_ok in Hpal. rewrite Forall_lookup in Hpal.
      destruct (Hpal _ _ Ep) as (Hr & Hg & Hb). cbn in Hr, Hg, Hb.
      apply Hpx; auto. eapply getitem_byte; eauto.
    + intros [= ->]. now apply getitem_never_ValueError in Ea.
Qed.

(** Reduce the binds of the error monad, and nothing else. *)
Ltac rsimpl := cbn [mbind result_bind mret result_ret].

Lemma expand_indexed_never_ValueError bit_depth width height scanline_len
    (plte_ : list Z) (trns_ : option (list Z)) (recon : list Z) :
  bytes_ok plte_ ->
  (forall t, trns_ = Some t -> bytes_ok t) ->
  expand_indexed bit_depth width height scanline_len (Some plte_) trns_ recon
  <> Raise ValueError.
Proof.
  intros Hplte Htrns. unfold expand_indexed.
  case_decide; [discriminate |].
  (* the palette is made of bytes *)
  match goal with
  | |- (mapM ?f ?l ≫= _) <> _ =>
      destruct (mapM_result_never ValueError
                  (fun c : Z * Z * Z => is_byte c.1.1 /\ is_byte c.1.2 /\ is_byte c.2) f l)
        as [Hpne Hpok]
  end.
  { intros k. cbv zeta.
    destruct (getitem plte_ (3 * k)) as [r | e] eqn:Er; rsimpl.
    2:{ split; [| intros ? [=]]. intros [= ->]. now apply getitem_never_ValueError in Er. }
    destruct (getitem plte_ (3 * k + 1)) as [g | e] eqn:Eg; rsimpl.
    2:{ split; [| intros ? [=]]. intros [= ->]. now apply getitem_never_ValueError in Eg. }
    destruct (getitem plte_ (3 * k + 2)) as [b | e] eqn:Eb; rsimpl.
    2:{ split; [| intros ? [=]]. intros [= ->]. now apply getitem_never_ValueError in Eb. }
    split; [discriminate |]. intros y [= <-]. cbn [fst snd].
    repeat split; eapply getitem_byte; eauto. }
  destruct (mapM _ _) as [palette | e]; rsimpl; [| congruence].
  specialize (Hpok palette eq_refl). fold (palette_ok palette) in Hpok.
  (* so is the alpha table *)
  set (num_palette := (length plte_ / 3)%nat).
  assert (Halpha0 : bytes_ok (replicate num_palette 255)).
  { apply Forall_replicate. unfold is_byte. lia. }
  match goal with
  | |- (?m ≫= _) <> _ =>
      assert (Halpha : m <> Raise ValueError /\ forall al, m = Ok al -> bytes_ok al)
  end.
  { destruct trns_ as [t |].
    - apply (for_loop_never ValueError bytes_ok); [assumption |].
      intros j al Hal.
      destruct (getitem t j) as [v | e] eqn:Ev; rsimpl.
      2:{ split; [| intros ? [=]]. intros [= ->]. now apply getitem_never_ValueError in Ev. }
      unfold list_setitem. case_decide; [| split; [discriminate | intros ? [=]]].
      split; [discriminate |]. intros al' [= <-].
      apply Forall_insert; [assumption |].
      eapply getitem_byte; [apply Htrns; reflexivity | exact Ev].
    - split; [discriminate |]. now intros al [= <-]. }
  destruct Halpha as [Hane Haok].
  match goal with |- (?m ≫= _) <> _ => destruct m as [alpha | e] end;
    rsimpl; [| congruence].
  specialize (Haok alpha eq_refl).
  (* hence every store of the pixel loops is in range *)
  match goal with
  | |- (for_range ?n ?body ?s0 ≫= _) <> _ =>
      destruct (for_loop_never ValueError (fun _ : list Z * nat => True) body n 0%nat s0 I)
        as [Hne _]
  end.
  { intros y st _. split; [| auto].
    destruct st as [rgb out_off].
    apply (for_loop_never ValueError (fun _ : list Z * nat => True)); [exact I |].
    intros x st' _. split; [| auto].
    apply (expand_pixel_never_ValueError bit_depth num_palette palette alpha); assumption. }
  unfold for_range in Hne |- *.
  match goal with |- (?m ≫= _) <> _ => destruct m as [[rgb off] | e] end;
    rsimpl; congruence.
Qed.

Lemma over_white_range (c a : Z) :
  0 <= c <= 255 -> 0 <= a <= 255 -> 0 <= over_white c a <= 255.
Proof.
  intros Hc Ha. pose proof (over_white_byte c a) as H. unfold is_byte in H. lia.
Qed.

(** ** The chunk codec *)

Lemma lor_shiftl_byte (acc x : Z) :
  is_byte x -> Z.lor (Z.shiftl acc 8) x = acc * 256 + x.
Proof.
  intros Hx. unfold is_byte in Hx.
  assert (Hland : Z.land (Z.shiftl acc 8) x = 0).
  { apply Z.bits_inj'. intros n Hn. rewrite Z.land_spec, Z.bits_0.
    destruct (Z.lt_ge_cases n 8) as [Hlt | Hge].
    - rewrite Z.shiftl_spec_low by assumption. reflexivity.
    - assert (Hbit : Z.testbit x n = false).
      { apply Z.testbit_false; [assumption |].
        rewrite Z.div_small; [reflexivity |]. split; [lia |].
        apply Z.lt_le_trans with (2 ^ 8); [lia |].
        apply Z.pow_le_mono_r; lia. }
      rewrite Hbit. apply andb_false_r. }
  rewrite <- Z.lxor_lor by assumption.
  rewrite <- Z.add_nocarry_lxor by assumption.
  rewrite Z.shiftl_mul_pow2 by lia. reflexivity.
Qed.

Lemma struct_unpack_I_bytes (b0 b1 b2 b3 : Z) :
  is_byte b0 -> is_byte b1 -> is_byte b2 -> is_byte b3 ->
  struct_unpack_I [b0; b1; b2; b3] = ((b0 * 256 + b1) * 256 + b2) * 256 + b3.
Proof.
  intros H0 H1 H2 H3. unfold struct_unpack_I. cbn [foldl].
  rewrite !lor_shiftl_byte by assumption. lia.
Qed.

Lemma struct_unpack_I_nonneg (b : list Z) : bytes_ok b -> 0 <= struct_unpack_I b.
Proof.
  unfold struct_unpack_I. intros Hb.
  assert (H : forall acc, 0 <= acc ->
            0 <= foldl (fun acc x => Z.lor (Z.shiftl acc 8) x) acc b).
  { induction Hb as [|x b Hx Hb IH]; intros acc Hacc; cbn [foldl]; [assumption |].
    apply IH. apply Z.lor_nonneg. split; [now apply Z.shiftl_nonneg |].
    unfold is_byte in Hx. lia. }
  apply H. lia.
Qed.

Lemma struct_pack_I_Ok (n : Z) :
  0 <= n < 4294967296 ->
  struct_pack_I n = Ok [n / 16777216 mod 256; n / 65536 mod 256; n / 256 mod 256; n mod 256].
Proof.
  intros Hn. unfold struct_pack_I. case_decide; [| lia].
  rewrite !land_255_mod, !Z.shiftr_div_pow2 by lia. reflexivity.
Qed.

Lemma struct_pack_I_range (n : Z) (b : list Z) :
  struct_pack_I n = Ok b -> 0 <= n < 4294967296.
Proof. unfold struct_pack_I. case_decide; [auto | discriminate]. Qed.

(** [struct.unpack] undoes [struct.pack]. *)
Lemma struct_unpack_pack_I (n : Z) (b : list Z) :
  struct_pack_I n = Ok b -> struct_unpack_I b = n.
Proof.
  intros Hb. pose proof (struct_pack_I_range n b Hb) as Hn.
  rewrite struct_pack_I_Ok in Hb by assumption. injection Hb as <-.
  rewrite struct_unpack_I_bytes
    by (unfold is_byte; apply Z.mod_pos_bound; lia).
  Z.to_euclidean_division_equations. lia.
Qed.

(** Lengths of prefixes and suffixes, and suffixes of suffixes. *)
Ltac norm_len :=
  repeat (rewrite length_take || rewrite length_drop || rewrite drop_drop).

(** What [_read_chunk] does, by the length of what is left of the stream. *)
Lemma read_chunk_cases (s : list Z) :
  let n := struct_unpack_I (take 4 s) in
  _read_chunk s =
    if decide (s = []) then (Raise EOFError, [])
    else if decide (length s < 4)%nat then (Raise (PNGFormatError EOFInChunkLength), [])
    else if decide (length s < 8)%nat then (Raise (PNGFormatError EOFInChunkType), [])
    else if decide (Z.of_nat (length s - 8) < n \/ n < 0) then
      (Raise (PNGFormatError EOFInChunkData), drop (8 + Z.to_nat n) s)
    else if decide (length s < 12 + Z.to_nat n)%nat then
      (Raise (PNGFormatError EOFInChunkCRC), [])
    else (Ok (slice s 4 8, slice s 8 (8 + Z.to_nat n)), drop (12 + Z.to_nat n) s).
Proof.
  cbv zeta. unfold _read_chunk, io_bind, stream_read, io_raise, io_ret.
  destruct (decide (s = [])) as [-> | Hs]; [reflexivity |].
  destruct (decide (take 4 s = [])) as [Ht | _].
  { destruct s; [congruence | discriminate]. }
  set (n := struct_unpack_I (take 4 s)).
  norm_len.
  destruct (decide (length s < 4)%nat) as [Hl4 | Hl4].
  { case_decide; [| lia]. f_equal. apply drop_ge. lia. }
  case_decide; [lia |]. norm_len.
  destruct (decide (length s < 8)%nat) as [Hl8 | Hl8].
  { case_decide; [| lia]. cbv beta. f_equal. norm_len. apply drop_ge. lia. }
  case_decide; [lia |]. cbv beta. norm_len.
  destruct (decide (Z.of_nat (length s - 8) < n \/ n < 0)) as [Hd | Hd].
  { case_decide; [| lia]. cbv beta. norm_len. f_equal. }
  case_decide; [lia |]. cbv beta. norm_len.
  destruct (decide (length s < 12 + Z.to_nat n)%nat) as [Hc | Hc].
  { case_decide; [| lia]. cbv beta. norm_len. f_equal. apply drop_ge. lia. }
  case_decide; [lia |]. cbv beta. norm_len.
  unfold slice.
  replace (4 + 4 + Z.to_nat n + 4)%nat with (12 + Z.to_nat n)%nat by lia.
  replace (8 + Z.to_nat n - 8)%nat with (Z.to_nat n) by lia.
  reflexivity.
Qed.

Lemma be32_length (n : Z) : length (be32 n) = 4%nat.
Proof. reflexivity. Qed.

Lemma struct_pack_I_be32 (n : Z) : 0 <= n < 4294967296 -> struct_pack_I n = Ok (be32 n).
Proof. apply struct_pack_I_Ok. Qed.

Lemma struct_unpack_I_be32 (n : Z) : 0 <= n < 4294967296 -> struct_unpack_I (be32 n) = n.
Proof.
  intros Hn. apply struct_unpack_pack_I. now apply struct_pack_I_be32.
Qed.

Lemma crc_mask_range (x : Z) : 0 <= Z.land x 0xFFFFFFFF < 4294967296.
Proof.
  change 0xFFFFFFFF with (Z.ones 32). rewrite Z.land_ones by lia.
  apply Z.mod_pos_bound. lia.
Qed.

(** The running CRC of two writes is the CRC of the concatenation. *)
Lemma zlib_crc32_app (a b : list Z) (value : Z) :
  zlib_crc32 b (zlib_crc32 a value) = zlib_crc32 (a ++ b) value.
Proof.
  unfold zlib_crc32. rewrite foldl_app. do 2 f_equal.
  rewrite Z.lxor_assoc, Z.lxor_nilpotent, Z.lxor_0_r. reflexivity.
Qed.

(** [_write_chunk] appends the chunk in wire format, and fails, writing
    nothing, exactly when the payload length does not fit 32 bits. *)
Lemma write_chunk_spec (chunk_type data out : list Z) :
  _write_chunk chunk_type data out =
    if decide (Z.of_nat (length data) < 4294967296)
    then (Ok tt, out ++ chunk_wire (chunk_type, data))
    else (Raise StructError, out).
Proof.
  unfold _write_chunk, io_bind, io_lift, stream_write.
  case_decide as Hlen.
  - rewrite struct_pack_I_be32 by lia.
    cbv zeta. rewrite zlib_crc32_app.
    rewrite struct_pack_I_be32 by apply crc_mask_range.
    unfold chunk_wire, raw_chunk. now rewrite <- !app_assoc.
  - unfold struct_pack_I. case_decide; [lia | reflexivity].
Qed.

(** Reading a well-formed chunk off the front of a stream. *)
Lemma read_raw_chunk (chunk_type data crc_bytes rest : list Z) :
  chunk_ok (chunk_type, data, crc_bytes) ->
  _read_chunk (raw_chunk (chunk_type, data, crc_bytes) ++ rest)
  = (Ok (chunk_type, data), rest).
Proof.
  intros (Ht & Hd & Hc). unfold raw_chunk.
  set (n := Z.of_nat (length data)).
  unfold _read_chunk, io_bind, stream_read, io_raise, io_ret.
  rewrite <- !app_assoc.
  rewrite (take_app_length' (be32 n)), (drop_app_length' (be32 n)) by reflexivity.
  case_decide; [discriminate |]. case_decide; [contradiction |].
  rewrite struct_unpack_I_be32 by lia.
  rewrite (take_app_length' chunk_type), (drop_app_length' chunk_type) by lia.
  case_decide; [contradiction |]. cbv beta.
  rewrite (take_app_length' data), (drop_app_length' data) by lia.
  case_decide; [lia |]. cbv beta.
  rewrite (take_app_length' crc_bytes), (drop_app_length' crc_bytes) by lia.
  case_decide; [contradiction |]. reflexivity.
Qed.

(** C9, with the bound it needs.  For a four-byte type [t] and a payload
    [d] of fewer than 2^32 bytes, [_write_chunk] writes, and the stream it
    wrote is read by [_read_chunk] as [(t, d)], byte for byte, the read
    ending at the end of the stream; the four checksum bytes may be replaced
    by any others.  For a payload of 2^32 bytes or more the round trip
    fails: [struct.pack] raises on the length before the first write, the
    stream holds nothing, and reading it back raises [EOFError]. *)
Theorem chunk_round_trip (chunk_type data : list Z) :
  length chunk_type = 4%nat ->
  (Z.of_nat (length data) < 4294967296 ->
   exists out, _write_chunk chunk_type data [] = (Ok tt, out))
  /\ (forall out,
       _write_chunk chunk_type data [] = (Ok tt, out) ->
       _read_chunk out = (Ok (chunk_type, data), [])
       /\ forall crc_bytes, length crc_bytes = 4%nat ->
            _read_chunk (take (length out - 4) out ++ crc_bytes)
            = (Ok (chunk_type, data), []))
  /\ (4294967296 <= Z.of_nat (length data) ->
      _write_chunk chunk_type data [] = (Raise StructError, [])
      /\ _read_chunk [] = (Raise EOFError, [])).
Proof.
  intros Ht. rewrite write_chunk_spec. split; [| split].
  - intros Hd. case_decide; [| lia]. now eexists.
  - intros out. case_decide as Hd; [| discriminate]. intros Hout.
    apply (f_equal snd) in Hout. cbn [snd app] in Hout. subst out.
    unfold chunk_wire. set (crc := be32 _). split.
    + rewrite <- (app_nil_r (raw_chunk _)). apply read_raw_chunk. now repeat split.
    + intros crc_bytes Hc.
      replace (take _ _ ++ crc_bytes) with (raw_chunk (chunk_type, data, crc_bytes) ++ []).
      * apply read_raw_chunk. now repeat split.
      * rewrite app_nil_r. unfold raw_chunk. rewrite !app_assoc. f_equal.
        rewrite take_app_length'; [reflexivity |].
        rewrite !length_app. subst crc. rewrite !be32_length. lia.
  - intros Hd. case_decide; [lia |]. now split.
Qed.

Lemma chunk_round_trip_witness :
  let out := [0; 0; 0; 3; 73; 72; 68; 82; 1; 2; 3; 201; 126; 7; 122] in
  _write_chunk IHDR [1; 2; 3] [] = (Ok tt, out)
  /\ _read_chunk out = (Ok (IHDR, [1; 2; 3]), [])
  /\ _read_chunk (take (length out - 4) out ++ [0; 0; 0; 0])
     = (Ok (IHDR, [1; 2; 3]), []).
Proof.
  cbv zeta.
  destruct (chunk_round_trip IHDR [1; 2; 3] eq_refl) as (_ & Hread & _).
  assert (Hw : _write_chunk IHDR [1; 2; 3] []
               = (Ok tt, [0; 0; 0; 3; 73; 72; 68; 82; 1; 2; 3; 201; 126; 7; 122]))
    by (vm_compute; reflexivity).
  destruct (Hread _ Hw) as [Hr Hcrc].
  split; [exact Hw |]. split; [exact Hr |]. apply Hcrc. reflexivity.
Defined.

(** C9 as the specification words it fails: a payload of 2^32 zero bytes is
    not written at all, and what [_write_chunk] left in the stream is not
    read back as the chunk. *)
Lemma chunk_too_long_is_not_written :
  _write_chunk IDAT (replicate (Z.to_nat 4294967296) 0) [] = (Raise StructError, [])
  /\ _read_chunk [] = (Raise EOFError, []).
Proof.
  split; [| reflexivity].
  rewrite write_chunk_spec.
  destruct (decide (Z.of_nat (length (replicate (Z.to_nat 4294967296) 0)) < 4294967296))
    as [Hfit | _]; [| reflexivity].
  rewrite length_replicate, Z2Nat.id in Hfit; lia.
Qed.

(** C7.  On a stream of bytes [s], with [n] the length its first four bytes
    declare: [_read_chunk] signals the end of the chunks ([EOFError]) exactly
    when [s] is empty; a length field of one to three bytes, a type tag cut
    short, fewer than [n] payload bytes and a checksum cut short are each a
    format error; and a chunk is returned only when all [12 + n] bytes are
    there, and then it is the whole chunk. *)
Theorem read_chunk_end_or_error (s : list Z) :
  bytes_ok s ->
  let n := struct_unpack_I (take 4 s) in
  let len := Z.of_nat (length s) in
  (fst (_read_chunk s) = Raise EOFError <-> s = [])
  /\ (1 <= len <= 3 ->
      fst (_read_chunk s) = Raise (PNGFormatError EOFInChunkLength))
  /\ (4 <= len < 8 ->
      fst (_read_chunk s) = Raise (PNGFormatError EOFInChunkType))
  /\ (8 <= len < 8 + n ->
      fst (_read_chunk s) = Raise (PNGFormatError EOFInChunkData))
  /\ (8 + n <= len < 12 + n ->
      fst (_read_chunk s) = Raise (PNGFormatError EOFInChunkCRC))
  /\ (12 + n <= len ->
      _read_chunk s = (Ok (slice s 4 8, slice s 8 (8 + Z.to_nat n)),
                       drop (12 + Z.to_nat n) s))
  /\ (forall chunk_type data,
        fst (_read_chunk s) = Ok (chunk_type, data) ->
        12 + n <= len /\ length chunk_type = 4%nat /\ Z.of_nat (length data) = n).
Proof.
  intros Hb n len.
  assert (Hn : 0 <= n).
  { apply struct_unpack_I_nonneg. unfold bytes_ok in *. now apply Forall_take. }
  pose proof (read_chunk_cases s) as Hcases. cbv zeta in Hcases. fold n in Hcases.
  assert (Hnil : s = [] <-> length s = 0%nat).
  { split; [now intros -> | apply nil_length_inv]. }
  rewrite Hcases. subst len.
  repeat split.
  - repeat case_decide; cbn [fst]; try discriminate; auto.
  - intros ->. reflexivity.
  - intros H. repeat case_decide; cbn [fst]; try reflexivity; try lia.
    subst s. cbn in H. lia.
  - intros H. repeat case_decide; cbn [fst]; try reflexivity; try lia.
    subst s. cbn in H. lia.
  - intros H. repeat case_decide; cbn [fst]; try reflexivity; try lia.
    subst s. cbn in H. lia.
  - intros H. repeat case_decide; cbn [fst]; try reflexivity; try lia.
    subst s. cbn in H. lia.
  - intros H. repeat case_decide; try reflexivity; try lia.
    subst s. cbn in H. lia.
  - revert H. repeat case_decide; cbn [fst]; try discriminate. lia.
  - revert H. repeat case_decide; cbn [fst]; try discriminate.
    intros [= <- <-]. unfold slice. norm_len. lia.
  - revert H. repeat case_decide; cbn [fst]; try discriminate.
    intros [= <- <-]. unfold slice. norm_len. lia.
Qed.

Lemma read_chunk_end_or_error_witness :
  let s := [0; 0; 0; 5; 73; 68; 65; 84; 1; 2] in
  let n := struct_unpack_I (take 4 s) in
  let len := Z.of_nat (length s) in
  (fst (_read_chunk s) = Raise EOFError <-> s = [])
  /\ (1 <= len <= 3 ->
      fst (_read_chunk s) = Raise (PNGFormatError EOFInChunkLength))
  /\ (4 <= len < 8 ->
      fst (_read_chunk s) = Raise (PNGFormatError EOFInChunkType))
  /\ (8 <= len < 8 + n ->
      fst (_read_chunk s) = Raise (PNGFormatError EOFInChunkData))
  /\ (8 + n <= len < 12 + n ->
      fst (_read_chunk s) = Raise (PNGFormatError EOFInChunkCRC))
  /\ (12 + n <= len ->
      _read_chunk s = (Ok (slice s 4 8, slice s 8 (8 + Z.to_nat n)),
                       drop (12 + Z.to_nat n) s))
  /\ (forall chunk_type data,
        fst (_read_chunk s) = Ok (chunk_type, data) ->
        12 + n <= len /\ length chunk_type = 4%nat /\ Z.of_nat (length data) = n).
Proof.
  apply (read_chunk_end_or_error [0; 0; 0; 5; 73; 68; 65; 84; 1; 2]).
  repeat constructor; unfold is_byte; lia.
Defined.

(** ** Scanline unfiltering *)

(** C6.  With [expected = height * (1 + row_length)]: a decompressed buffer
    shorter than [expected] is a format error; a longer one is cut to its
    first [expected] bytes, and unfiltering goes on with that prefix. *)
Theorem unfilter_size_check (raw : list Z) (height scanline_length bytes_per_pixel : nat) :
  let expected_size := (height * (1 + scanline_length))%nat in
  ((length raw < expected_size)%nat ->
     _unfilter_scanlines raw height scanline_length bytes_per_pixel
     = Raise (PNGFormatError (IDATSizeUnexpected (length raw) expected_size)))
  /\ ((expected_size < length raw)%nat ->
     length (take expected_size raw) = expected_size
     /\ _unfilter_scanlines raw height scanline_length bytes_per_pixel
        = _unfilter_scanlines (take expected_size raw) height scanline_length
            bytes_per_pixel).
Proof.
  cbv zeta. split.
  - intros Hlt. unfold _unfilter_scanlines.
    case_decide; [| lia]. case_decide; [reflexivity | lia].
  - intros Hgt.
    assert (Hlen : length (take (height * (1 + scanline_length)) raw)
                   = (height * (1 + scanline_length))%nat)
      by (rewrite length_take; lia).
    split; [exact Hlen |].
    unfold _unfilter_scanlines.
    rewrite Hlen.
    destruct (decide (length raw ≠ (height * (1 + scanline_length))%nat)); [| lia].
    destruct (decide (length raw < height * (1 + scanline_length))%nat); [lia |].
    destruct (decide ((height * (1 + scanline_length))%nat
                      ≠ (height * (1 + scanline_length))%nat)); [congruence |].
    reflexivity.
Qed.

(** A buffer with two bytes of padding after its single row. *)
Lemma unfilter_size_check_witness :
  _unfilter_scanlines [1; 10; 20] 2 2 1
  = Raise (PNGFormatError (IDATSizeUnexpected 3 6))
  /\ _unfilter_scanlines [1; 10; 20; 99; 99] 1 2 1 = Ok [10; 30]
  /\ _unfilter_scanlines [1; 10; 20; 99; 99] 1 2 1
     = _unfilter_scanlines [1; 10; 20] 1 2 1.
Proof.
  destruct (unfilter_size_check [1; 10; 20] 2 2 1) as [Hshort _].
  destruct (unfilter_size_check [1; 10; 20; 99; 99] 1 2 1) as [_ Hlong].
  split; [apply Hshort; cbn; lia |].
  destruct Hlong as [_ Hcut]; [cbn; lia |].
  split; [| exact Hcut]. rewrite Hcut. reflexivity.
Defined.

(** A left-to-right loop that adds to each byte a prediction made from the
    bytes already rebuilt undoes a filter that subtracted that prediction. *)
Lemma unfilter_loop (row filt : list Z) (pred : nat -> Z)
    (body : nat -> list Z -> result (list Z)) :
  length filt = length row -> bytes_ok row ->
  (forall i x, row !! i = Some x -> filt !! i = Some ((x - pred i) mod 256)) ->
  (forall i curr, (i < length row)%nat -> curr = take i row ++ drop i filt ->
     body i curr = (x ← getitem curr i; setitem curr i (Z.land (x + pred i) 0xFF))) ->
  for_range (length row) body filt = Ok row.
Proof.
  intros Hlen Hb Hfilt Hbody.
  destruct (for_range_invariant (fun i curr => curr = take i row ++ drop i filt)
              body (length row) filt) as (curr & Hrun & Hcurr).
  - reflexivity.
  - intros i curr Hi ->.
    rewrite (Hbody i _ Hi eq_refl).
    destruct (lookup_lt_is_Some_2 row i Hi) as [x Hx].
    pose proof (Hfilt i x Hx) as Hf.
    assert (Hti : length (take i row) = i) by (rewrite length_take; lia).
    assert (Hget : (take i row ++ drop i filt) !! i = Some ((x - pred i) mod 256)).
    { rewrite lookup_app_r by lia. rewrite Hti, Nat.sub_diag, lookup_drop.
      now rewrite Nat.add_0_r. }
    rewrite (getitem_Ok _ _ _ Hget), result_bind_Ok.
    assert (Hval : Z.land ((x - pred i) mod 256 + pred i) 0xFF = x).
    { rewrite land_255_mod, Zplus_mod_idemp_l.
      replace (x - pred i + pred i) with x by lia.
      apply Z.mod_small. exact (bytes_ok_lookup row i x Hb Hx). }
    rewrite Hval.
    rewrite setitem_Ok.
    + eexists. split; [reflexivity |].
      rewrite insert_app_r_alt by lia.
      rewrite Hti, Nat.sub_diag.
      rewrite (drop_S filt ((x - pred i) mod 256) i Hf). cbn [insert list_insert].
      rewrite (take_S_r row i x Hx), <- app_assoc. reflexivity.
    + rewrite length_app, length_take, length_drop. lia.
    + exact (bytes_ok_lookup row i x Hb Hx).
  - rewrite Hrun, Hcurr. f_equal.
    rewrite take_ge by lia. rewrite drop_ge by lia. apply app_nil_r.
Qed.

(** The byte to the left, in a row rebuilt up to [i]. *)
Lemma left_of_rebuilt (bytes_per_pixel : nat) (row filt : list Z) (i : nat) :
  (1 <= bytes_per_pixel)%nat -> (i < length row)%nat ->
  left_of bytes_per_pixel (take i row ++ drop i filt) i
  = Ok (if decide (bytes_per_pixel <= i)%nat then row !!! (i - bytes_per_pixel)%nat else 0).
Proof.
  intros Hbpp Hi. unfold left_of. case_decide; [| reflexivity].
  apply getitem_Ok.
  rewrite lookup_app_l by (rewrite length_take; lia).
  rewrite lookup_take_lt by lia. apply lookup_total_Some. lia.
Qed.

Lemma left_of_total (bytes_per_pixel : nat) (b : list Z) (i : nat) :
  (i < length b)%nat ->
  left_of bytes_per_pixel b i
  = Ok (if decide (bytes_per_pixel <= i)%nat then b !!! (i - bytes_per_pixel)%nat else 0).
Proof.
  intros Hi. unfold left_of. case_decide; [| reflexivity].
  apply getitem_total. lia.
Qed.

(** [unfilter_row] undoes [filter_row], for every filter type and against
    any previous row. *)
Lemma unfilter_filter_row (filter_type : Z) (bytes_per_pixel : nat) (prev_row row : list Z) :
  0 <= filter_type <= 4 -> (1 <= bytes_per_pixel)%nat ->
  bytes_ok row -> length prev_row = length row ->
  unfilter_row filter_type (length row) bytes_per_pixel prev_row
    (filter_row filter_type bytes_per_pixel prev_row row) = Ok row.
Proof.
  intros Hft Hbpp Hb Hprev.
  assert (Hlen : length (filter_row filter_type bytes_per_pixel prev_row row) = length row)
    by apply length_imap.
  assert (Hfilt : forall i x, row !! i = Some x ->
            filter_row filter_type bytes_per_pixel prev_row row !! i
            = Some ((x - filter_prediction filter_type bytes_per_pixel prev_row row i)
                    mod 256)).
  { intros i x Hx. unfold filter_row. now rewrite list_lookup_imap, Hx. }
  unfold unfilter_row.
  destruct (decide (filter_type = 0)) as [-> | H0].
  { f_equal. unfold filter_row. apply list_eq. intros i.
    rewrite list_lookup_imap. destruct (row !! i) as [x |] eqn:Hx; [| reflexivity].
    cbn. f_equal. unfold filter_prediction.
    repeat (case_decide; [lia |]). rewrite Z.sub_0_r.
    apply Z.mod_small. exact (bytes_ok_lookup row i x Hb Hx). }
  repeat case_decide; try lia; subst filter_type;
    apply (unfilter_loop row _ _ _ Hlen Hb Hfilt);
    intros i curr Hi ->;
    rewrite ?(left_of_rebuilt bytes_per_pixel row _ i Hbpp Hi);
    rewrite ?(getitem_total prev_row i) by lia;
    rewrite ?(left_of_total bytes_per_pixel prev_row i) by lia;
    rewrite ?result_bind_Ok;
    unfold filter_prediction;
    repeat (case_decide; try lia; try reflexivity).
Qed.

(** C5.  For a row of bytes, a pixel stride of at least one byte and each
    filter type [T] of 1 (Sub), 2 (Up), 3 (Average), 4 (Paeth): the reference
    filter of type [T], applied against a zero-filled previous row, then
    [_unfilter_scanlines] on the tagged row, gives the row back, byte for
    byte.  (Rows shorter than one stride are included.) *)
Theorem unfilter_filter_round_trip (T : Z) (bytes_per_pixel : nat) (row : list Z) :
  1 <= T <= 4 -> (1 <= bytes_per_pixel)%nat -> bytes_ok row ->
  _unfilter_scanlines
    (T :: filter_row T bytes_per_pixel (replicate (length row) 0) row)
    1 (length row) bytes_per_pixel
  = Ok row.
Proof.
  intros HT Hbpp Hb.
  set (filt := filter_row T bytes_per_pixel (replicate (length row) 0) row).
  assert (Hlen : length filt = length row) by apply length_imap.
  unfold _unfilter_scanlines.
  cbn [length]. rewrite Hlen.
  case_decide; [lia |]. rsimpl.
  unfold for_range. cbn [for_loop]. rsimpl.
  cbn [getitem lookup list_lookup]. rsimpl.
  replace (slice (T :: filt) (0 + 1) (0 + 1 + length row)) with filt.
  2:{ unfold slice. replace (0 + 1 + length row - (0 + 1))%nat with (length filt) by lia.
      cbn [drop Nat.add]. now rewrite firstn_all. }
  subst filt.
  rewrite unfilter_filter_row; [| lia | assumption | assumption | apply length_replicate].
  rsimpl. f_equal. unfold slice_assign.
  rewrite take_0. cbn [app].
  rewrite drop_ge; [apply app_nil_r |].
  rewrite length_replicate. lia.
Qed.

Lemma unfilter_filter_round_trip_witness :
  _unfilter_scanlines
    (4 :: filter_row 4 3 (replicate (length [10; 20; 30; 250; 0; 7]) 0)
            [10; 20; 30; 250; 0; 7])
    1 (length [10; 20; 30; 250; 0; 7]) 3
  = Ok [10; 20; 30; 250; 0; 7].
Proof.
  apply (unfilter_filter_round_trip 4 3 [10; 20; 30; 250; 0; 7]).
  - lia.
  - lia.
  - repeat constructor; unfold is_byte; lia.
Defined.

(** ** The orchestrator: reading *)

Lemma raw_chunk_length (c : list Z * list Z * list Z) :
  chunk_ok c -> (12 <= length (raw_chunk c))%nat.
Proof.
  destruct c as [[t d] crc]. intros (Ht & _ & Hc). unfold raw_chunk.
  rewrite !length_app, be32_length. lia.
Qed.

Lemma raw_chunks_length (cs : list (list Z * list Z * list Z)) :
  Forall chunk_ok cs -> (length cs <= length (flat_map raw_chunk cs))%nat.
Proof.
  induction 1 as [|c cs Hc _ IH]; cbn [flat_map length]; [lia |].
  rewrite length_app. pose proof (raw_chunk_length c Hc). lia.
Qed.

(** The chunk loop on a sequence of well-formed chunks: everything up to
    the terminator (or the end of the file) is collected, in order. *)
Lemma read_chunks_collects (cs : list (list Z * list Z * list Z)) (tail : list Z) :
  Forall chunk_ok cs ->
  Forall (fun c => c.1.1 <> IEND) cs ->
  chunks_end tail ->
  forall fuel st, (length cs < fuel)%nat ->
    fst (read_chunks fuel st (flat_map raw_chunk cs ++ tail))
    = Ok (foldl collect_chunk st (map chunk_content cs)).
Proof.
  intros Hok Hne Hend. induction cs as [|[[t d] crc] cs IH]; intros fuel st Hfuel.
  - destruct fuel as [|fuel]; [cbn in Hfuel; lia |].
    cbn [flat_map app map foldl read_chunks].
    destruct Hend as [-> | (e & crc & junk & Hc & ->)]; [reflexivity |].
    rewrite read_raw_chunk by assumption.
    repeat (case_decide; [discriminate |]). case_decide; [reflexivity | congruence].
  - destruct fuel as [|fuel]; [cbn in Hfuel; lia |].
    apply Forall_cons in Hok as [Hc Hok]. apply Forall_cons in Hne as [Ht Hne].
    cbn [fst] in Ht.
    cbn [flat_map map foldl read_chunks]. rewrite <- app_assoc.
    rewrite read_raw_chunk by assumption.
    cbn [length] in Hfuel.
    unfold collect_chunk at 2. cbn [chunk_content fst snd].
    repeat case_decide; try contradiction; apply IH; auto; lia.
Qed.

Lemma filter_whitelisted_collect (cs : list (list Z * list Z)) :
  forall st,
    filter whitelisted (ancillary_chunks (foldl collect_chunk st cs))
    = filter whitelisted (ancillary_chunks st) ++ filter whitelisted cs.
Proof.
  induction cs as [|[t d] cs IH]; intros st; cbn [foldl].
  - now rewrite app_nil_r.
  - rewrite IH. unfold collect_chunk.
    repeat case_decide; subst; cbn [ancillary_chunks].
    + rewrite filter_cons_False; [reflexivity |].
      unfold whitelisted. cbn. rewrite !elem_of_cons, elem_of_nil.
      intros [Hw | [Hw | [Hw | []]]]; discriminate.
    + rewrite filter_cons_False; [reflexivity |].
      unfold whitelisted. cbn. rewrite !elem_of_cons, elem_of_nil.
      intros [Hw | [Hw | [Hw | []]]]; discriminate.
    + rewrite filter_cons_False; [reflexivity |].
      unfold whitelisted. cbn. rewrite !elem_of_cons, elem_of_nil.
      intros [Hw | [Hw | [Hw | []]]]; discriminate.
    + rewrite filter_app, <- app_assoc. f_equal.
      change ((t, d) :: cs) with ([(t, d)] ++ cs). now rewrite filter_app.
Qed.

(** What a successful [decode_and_flatten] has gone through. *)
Lemma decode_and_flatten_Ok (z : zlib) (f : list Z) (d : flattened) :
  fst (decode_and_flatten z f) = Ok d ->
  exists hd rest st out_raw,
    take 8 f = PNG_SIGNATURE
    /\ _read_chunk (drop 8 f) = (Ok (IHDR, hd), rest)
    /\ length hd = 13%nat
    /\ ihdr_bit_depth (struct_unpack_IHDR hd) = 8
    /\ ihdr_interlace (struct_unpack_IHDR hd) = 0
    /\ ihdr_compression (struct_unpack_IHDR hd) = 0
    /\ ihdr_filter_method (struct_unpack_IHDR hd) = 0
    /\ fst (read_chunks (S (length rest)) (Chunks [] [] None None) rest) = Ok st
    /\ idat_parts st <> []
    /\ d = Flattened (ihdr_width (struct_unpack_IHDR hd))
                     (ihdr_height (struct_unpack_IHDR hd))
                     (ancillary_chunks st) (zlib_compress z out_raw 9).
Proof.
  unfold decode_and_flatten, io_bind, stream_read, io_raise, io_ret, io_lift.
  case_decide as Hsig; [discriminate |].
  destruct (_read_chunk (drop 8 f)) as [[[t hd] | e] rest] eqn:Hread; [| discriminate].
  case_decide as Ht; [discriminate |]. subst t.
  case_decide as Hlen; [discriminate |].
  case_decide as Hbd; [discriminate |].
  case_decide as Hil; [discriminate |].
  case_decide as Hcf; [discriminate |].
  destruct (read_chunks (S (length rest)) _ rest) as [[st | e] rest'] eqn:Hloop;
    [| discriminate].
  case_decide as Hidat; [discriminate |].
  destruct (zlib_decompress z _) as [decompressed |]; [| discriminate].
  cbv beta.
  set (hdr := struct_unpack_IHDR hd) in *.
  assert (Hfin : forall layout : result (Z * Z),
    fst (match layout with
         | Ok (bpp, scanline_len) =>
           match _unfilter_scanlines decompressed (Z.to_nat (ihdr_height hdr))
                   (Z.to_nat scanline_len) (Z.to_nat bpp) with
           | Ok recon =>
             match (if decide (ihdr_color_type hdr = 6) then _flatten_rgba_over_white recon
                    else if decide (ihdr_color_type hdr = 2) then Ok recon
                    else expand_indexed (ihdr_bit_depth hdr) (Z.to_nat (ihdr_width hdr))
                           (Z.to_nat (ihdr_height hdr)) (Z.to_nat scanline_len)
                           (plte st) (trns st) recon) with
             | Ok rgb_bytes =>
               match refilter_rows rgb_bytes (Z.to_nat (ihdr_width hdr))
                       (Z.to_nat (ihdr_height hdr)) with
               | Ok out_raw =>
                 (Ok (Flattened (ihdr_width hdr) (ihdr_height hdr) (ancillary_chunks st)
                        (zlib_compress z out_raw 9)), rest')
               | Raise e => (Raise e, rest')
               end
             | Raise e => (Raise e, rest')
             end
           | Raise e => (Raise e, rest')
           end
         | Raise e => (Raise e, rest')
         end) = Ok d ->
    exists out_raw, d = Flattened (ihdr_width hdr) (ihdr_height hdr) (ancillary_chunks st)
                          (zlib_compress z out_raw 9)).
  { intros [[bpp sl] | e]; [| discriminate].
    destruct (_unfilter_scanlines _ _ _ _) as [recon | e]; [| discriminate].
    match goal with |- context [match ?m with Ok _ => _ | Raise _ => _ end] =>
      destruct m as [rgb_bytes | e] end; [| discriminate].
    destruct (refilter_rows _ _ _) as [out_raw | e]; [| discriminate].
    cbn [fst]. intros [= <-]. now exists out_raw. }
  intros Hd.
  assert (exists out_raw, d = Flattened (ihdr_width hdr) (ihdr_height hdr)
                                (ancillary_chunks st) (zlib_compress z out_raw 9))
    as [out_raw ->].
  { repeat case_decide.
    - apply (Hfin (Ok (4, ihdr_width hdr * 4))). exact Hd.
    - apply (Hfin (Ok (3, ihdr_width hdr * 3))). exact Hd.
    - apply (Hfin (Ok (Z.max 1 ((ihdr_bit_depth hdr + 7) / 8),
                       (ihdr_width hdr * ihdr_bit_depth hdr + 7) / 8))). exact Hd.
    - discriminate. }
  assert (Hc : ihdr_compression hdr = 0 /\ ihdr_filter_method hdr = 0).
  { split; apply dec_stable; intros ?; apply Hcf; auto. }
  destruct Hc as [Hc Hf].
  exists hd, rest, st, out_raw.
  repeat split; try assumption.
  now rewrite Hloop.
Qed.

(** ** The orchestrator: writing *)

Lemma struct_pack_IHDR_truecolor (width height : Z) :
  struct_pack_IHDR width height 8 2 0 0 0 =
    if decide (0 <= width < 4294967296 /\ 0 <= height < 4294967296)
    then Ok (be32 width ++ be32 height ++ [8; 2; 0; 0; 0])
    else Raise StructError.
Proof.
  unfold struct_pack_IHDR.
  case_decide as H.
  - destruct H as [Hw Hh]. rewrite !struct_pack_I_be32 by assumption. reflexivity.
  - unfold struct_pack_I.
    destruct (decide (0 <= width < 4294967296)); [| reflexivity].
    destruct (decide (0 <= height < 4294967296)); [tauto | reflexivity].
Qed.

Lemma write_chunk_outcome (chunk_type data out : list Z) :
  completes_or_StructError (_write_chunk chunk_type data out)
    (out ++ chunk_wire (chunk_type, data)).
Proof.
  rewrite write_chunk_spec. unfold completes_or_StructError.
  case_decide; [now left | right; now eexists].
Qed.

Lemma write_ancillary_outcome (l : list (list Z * list Z)) :
  forall out,
    completes_or_StructError (write_ancillary l out)
      (out ++ flat_map chunk_wire (filter whitelisted l)).
Proof.
  induction l as [|[ctype cdata] l IH]; intros out.
  - left. cbn. now rewrite app_nil_r.
  - cbn [write_ancillary]. unfold io_bind.
    destruct (decide (ctype ∈ [sRGB; gAMA; cHRM])) as [Hin | Hout].
    + rewrite filter_cons_True by exact Hin. cbn [flat_map].
      destruct (write_chunk_outcome ctype cdata out) as [-> | [partial ->]].
      * rewrite app_assoc. apply IH.
      * right. now eexists.
    + rewrite filter_cons_False by exact Hout. apply IH.
Qed.

Lemma write_png_outcome (d : flattened) :
  completes_or_StructError (write_png d [])
    (output_stream (out_width d) (out_height d) (out_ancillary d) (out_compressed d)).
Proof.
  unfold write_png, io_bind, io_lift, stream_write, output_stream.
  cbn [app]. rewrite struct_pack_IHDR_truecolor.
  case_decide; [| right; now eexists].
  destruct (write_chunk_outcome IHDR
              (be32 (out_width d) ++ be32 (out_height d) ++ [8; 2; 0; 0; 0])
              PNG_SIGNATURE) as [-> | [partial ->]]; [| right; now eexists].
  destruct (write_ancillary_outcome (out_ancillary d)
              (PNG_SIGNATURE ++ chunk_wire
                 (IHDR, be32 (out_width d) ++ be32 (out_height d) ++ [8; 2; 0; 0; 0])))
    as [-> | [partial ->]]; [| right; now eexists].
  match goal with |- context [_write_chunk IDAT ?c ?o] =>
    destruct (write_chunk_outcome IDAT c o) as [-> | [partial ->]] end;
    [| right; now eexists].
  match goal with |- context [_write_chunk IEND ?c ?o] =>
    destruct (write_chunk_outcome IEND c o) as [-> | [partial ->]] end;
    [| right; now eexists].
  left. f_equal. now rewrite <- !app_assoc.
Qed.

(** C3.  A run that ends in a format error leaves the file system as it
    was: the error was raised while reading and transforming the input,
    before the output file is opened.  (The writing half, which runs only
    after [decode_and_flatten] has returned, raises no format error.) *)
Theorem format_error_no_output (z : zlib) (sys : os) (src_path : string)
    (dst_path : option string) (overwrite : bool)
    (files files' : gmap inode (list Z)) (e : format_error) :
  flatten_png_alpha_to_white z sys src_path dst_path overwrite files
  = (Raise (PNGFormatError e), files') ->
  files' = files
  /\ exists src_file f,
       os_open_rb sys src_path = Some src_file /\ files !! src_file = Some f
       /\ fst (decode_and_flatten z f) = Raise (PNGFormatError e).
Proof.
  unfold flatten_png_alpha_to_white.
  destruct (os_open_rb sys src_path) as [src_file |] eqn:Hopen; [| discriminate].
  cbn [mbind option_bind].
  destruct (files !! src_file) as [f |] eqn:Hf; [| discriminate].
  destruct (fst (decode_and_flatten z f)) as [d | e'] eqn:Hdec.
  - destruct (os_open_wb sys _) as [out_file |]; [| discriminate].
    destruct (write_png_outcome d) as [-> | [partial ->]]; cbn; discriminate.
  - intros [= -> <-]. split; [reflexivity |]. now exists src_file, f.
Qed.

(** A file whose first chunk declares 255 payload bytes and holds three. *)
Lemma format_error_no_output_witness :
  let truncated := PNG_SIGNATURE ++ [0; 0; 0; 255] ++ IHDR ++ [1; 2; 3] in
  let files : gmap inode (list Z) := {[ 1%N := truncated ]} in
  files = files
  /\ exists src_file f,
       os_open_rb example_os "a.png" = Some src_file /\ files !! src_file = Some f
       /\ fst (decode_and_flatten stored f) = Raise (PNGFormatError EOFInChunkData).
Proof.
  cbv zeta.
  apply (format_error_no_output stored example_os "a.png" None false
           {[ 1%N := PNG_SIGNATURE ++ [0; 0; 0; 255] ++ IHDR ++ [1; 2; 3] ]}).
  vm_compute. reflexivity.
Defined.

(** A run on an input of known chunk structure: the signature, a header
    chunk, well-formed chunks [cs] none of which is the terminator, and then
    the end of the file or a terminator chunk. *)
Lemma structured_run_output (z : zlib) (sys : os) (src_path : string)
    (dst_path : option string) (overwrite : bool)
    (files files' : gmap inode (list Z)) (output_path : string) (src_file : inode)
    (hd crc0 : list Z) (cs : list (list Z * list Z * list Z)) (tail : list Z) :
  os_open_rb sys src_path = Some src_file ->
  files !! src_file
    = Some (PNG_SIGNATURE ++ raw_chunk (IHDR, hd, crc0) ++ flat_map raw_chunk cs ++ tail) ->
  chunk_ok (IHDR, hd, crc0) ->
  Forall chunk_ok cs ->
  Forall (fun c => c.1.1 <> IEND) cs ->
  chunks_end tail ->
  flatten_png_alpha_to_white z sys src_path dst_path overwrite files
  = (Ok output_path, files') ->
  let hdr := struct_unpack_IHDR hd in
  ihdr_bit_depth hdr = 8 /\ ihdr_compression hdr = 0
  /\ ihdr_filter_method hdr = 0 /\ ihdr_interlace hdr = 0
  /\ output_path = resolve_output_path src_path dst_path overwrite
  /\ exists out_raw out_file,
       os_open_wb sys output_path = Some out_file
       /\ files' = <[out_file :=
                  PNG_SIGNATURE
                  ++ chunk_wire (IHDR, be32 (ihdr_width hdr) ++ be32 (ihdr_height hdr)
                                       ++ [8; 2; 0; 0; 0])
                  ++ flat_map chunk_wire (filter whitelisted (map chunk_content cs))
                  ++ chunk_wire (IDAT, zlib_compress z out_raw 9)
                  ++ chunk_wire (IEND, [])]> files.
Proof.
  intros Hopen Hsrc Hhd Hcs Hne Hend. unfold flatten_png_alpha_to_white.
  rewrite Hopen. cbn [mbind option_bind]. rewrite Hsrc.
  destruct (fst (decode_and_flatten z _)) as [d | e] eqn:Hdec; [| discriminate].
  apply decode_and_flatten_Ok in Hdec
    as (hd' & rest & st & out_raw & _ & Hread & _ & Hbd & Hil & Hc & Hf & Hloop & _ & ->).
  destruct (os_open_wb sys (resolve_output_path src_path dst_path overwrite))
    as [out_file |] eqn:Hout; [| discriminate].
  rewrite (drop_app_length' PNG_SIGNATURE) in Hread by reflexivity.
  rewrite read_raw_chunk in Hread by assumption.
  injection Hread as <- <-.
  rewrite read_chunks_collects in Hloop; auto.
  2:{ rewrite length_app. pose proof (raw_chunks_length cs Hcs). lia. }
  injection Hloop as <-.
  destruct (write_png_outcome
              (Flattened (ihdr_width (struct_unpack_IHDR hd))
                 (ihdr_height (struct_unpack_IHDR hd))
                 (ancillary_chunks
                    (foldl collect_chunk (Chunks [] [] None None) (map chunk_content cs)))
                 (zlib_compress z out_raw 9))) as [-> | [partial ->]];
    [| discriminate].
  intros [= <- <-]. cbv zeta.
  repeat (split; [assumption || reflexivity |]).
  exists out_raw, out_file. split; [exact Hout |].
  unfold output_stream. cbn [out_width out_height out_ancillary out_compressed].
  now rewrite filter_whitelisted_collect.
Qed.

(** ** Indexed colour: unpacking and expansion *)

Lemma land_ones_mod (x n : Z) : 0 <= n -> Z.land x (2 ^ n - 1) = x mod 2 ^ n.
Proof.
  intros Hn. rewrite <- Z.land_ones by assumption. f_equal.
  rewrite Z.ones_equiv. lia.
Qed.

(** [get_index_from_row] unpacks fixed-width fields, most significant first. *)
Lemma get_index_packed (bit_depth : Z) (row : list Z) (x : nat) :
  bit_depth = 1 \/ bit_depth = 2 \/ bit_depth = 4 \/ bit_depth = 8 ->
  bytes_ok row ->
  Z.of_nat x * bit_depth < 8 * Z.of_nat (length row) ->
  get_index_from_row bit_depth row x = Ok (packed_index bit_depth row x).
Proof.
  intros Hbd Hb Hx. unfold get_index_from_row, packed_index.
  destruct Hbd as [-> | [-> | [-> | ->]]];
    repeat match goal with
           | |- context [decide (@eq Z ?a ?b)] => destruct (decide (a = b)); try lia
           end; cbv zeta.
  - (* 1 bit *)
    change (Z.to_nat (8 / 1)) with 8%nat.
    assert (Hi : (x / 8 < length row)%nat) by (apply Nat.Div0.div_lt_upper_bound; lia).
    rewrite getitem_total by exact Hi. rsimpl. f_equal.
    pose proof (Nat.mod_upper_bound x 8 ltac:(lia)).
    change 0x01 with (2 ^ 1 - 1). rewrite land_ones_mod by lia.
    rewrite Z.shiftr_div_pow2 by lia. do 3 f_equal. lia.
  - (* 2 bits *)
    change (Z.to_nat (8 / 2)) with 4%nat.
    assert (Hi : (x / 4 < length row)%nat) by (apply Nat.Div0.div_lt_upper_bound; lia).
    rewrite getitem_total by exact Hi. rsimpl. f_equal.
    pose proof (Nat.mod_upper_bound x 4 ltac:(lia)).
    change 0x03 with (2 ^ 2 - 1). rewrite land_ones_mod by lia.
    rewrite Z.shiftr_div_pow2 by lia. do 3 f_equal. lia.
  - (* 4 bits *)
    change (Z.to_nat (8 / 4)) with 2%nat.
    assert (Hi : (x / 2 < length row)%nat) by (apply Nat.Div0.div_lt_upper_bound; lia).
    rewrite getitem_total by exact Hi. rsimpl. f_equal.
    pose proof (Nat.mod_upper_bound x 2 ltac:(lia)).
    change 0x0F with (2 ^ 4 - 1). rewrite !land_ones_mod by lia.
    case_decide as Hk.
    + rewrite Hk, Z.shiftr_div_pow2 by lia. reflexivity.
    + replace (x mod 2)%nat with 1%nat by lia.
      change (2 ^ (8 - 4 * (Z.of_nat 1 + 1))) with 1. now rewrite Z.div_1_r.
  - (* 8 bits *)
    change (Z.to_nat (8 / 8)) with 1%nat.
    rewrite Nat.mod_1_r, Nat.div_1_r.
    rewrite getitem_total by lia. f_equal.
    change (2 ^ (8 - 8 * (Z.of_nat 0 + 1))) with 1. rewrite Z.div_1_r.
    symmetry. apply Z.mod_small.
    pose proof (bytes_ok_total row x Hb ltac:(lia)) as Hbyte. unfold is_byte in Hbyte. lia.
Qed.

Lemma get_index_unsupported (bit_depth : Z) (row : list Z) (x : nat) :
  bit_depth <> 1 -> bit_depth <> 2 -> bit_depth <> 4 -> bit_depth <> 8 ->
  get_index_from_row bit_depth row x
  = Raise (PNGFormatError (UnsupportedIndexedBitDepth bit_depth)).
Proof.
  intros. unfold get_index_from_row. repeat (case_decide; [contradiction |]). reflexivity.
Qed.

Lemma packed_index_range (bit_depth : Z) (row : list Z) (x : nat) :
  0 < bit_depth -> 0 <= packed_index bit_depth row x < 2 ^ bit_depth.
Proof.
  intros Hbd. unfold packed_index. cbv zeta. apply Z.mod_pos_bound.
  apply Z.pow_pos_nonneg; lia.
Qed.

Lemma setitem_three_then {A} (done_ : list Z) (m : nat) (v1 v2 v3 : Z)
    (K : list Z -> result A) :
  is_byte v1 -> is_byte v2 -> is_byte v3 ->
  let j := length done_ in
  (out ← setitem (done_ ++ replicate (3 * Datatypes.S m) 0) j v1;
   out ← setitem out (j + 1) v2;
   out ← setitem out (j + 2) v3;
   K out)
  = K ((done_ ++ [v1; v2; v3]) ++ replicate (3 * m) 0).
Proof.
  intros H1 H2 H3 j.
  pose proof (setitem_three done_ m v1 v2 v3 H1 H2 H3) as Hset. cbv zeta in Hset.
  fold j in Hset.
  destruct (setitem _ j v1) as [o1 |]; [| discriminate].
  rewrite result_bind_Ok. rewrite result_bind_Ok in Hset.
  destruct (setitem o1 _ v2) as [o2 |]; [| discriminate].
  rewrite result_bind_Ok. rewrite result_bind_Ok in Hset.
  rewrite Hset. reflexivity.
Qed.

Lemma flat_map_triples_length (emit : nat -> Z * Z * Z) (i k : nat) :
  length (flat_map (fun x => triple_bytes (emit x)) (seq i k)) = (3 * k)%nat.
Proof.
  revert i. induction k as [|k IH]; intros i; [reflexivity |].
  cbn [seq flat_map]. rewrite length_app, IH. cbn. lia.
Qed.

(** A loop that stores one triple per step fills the zeroed tail of its
    buffer with the triples, in order. *)
Lemma emit_loop (n m : nat) (emit : nat -> Z * Z * Z)
    (body : nat -> list Z * nat -> result (list Z * nat)) (done_ : list Z) :
  (forall k, (k < n)%nat -> bytes_ok (triple_bytes (emit k))) ->
  (forall k rgb off, (k < n)%nat ->
     body k (rgb, off) =
       (rgb ← setitem rgb off (emit k).1.1;
        rgb ← setitem rgb (off + 1) (emit k).1.2;
        rgb ← setitem rgb (off + 2) (emit k).2;
        Ok (rgb, (off + 3)%nat))) ->
  for_range n body (done_ ++ replicate (3 * (n + m)) 0, length done_)
  = Ok (done_ ++ flat_map (fun k => triple_bytes (emit k)) (seq 0 n)
          ++ replicate (3 * m) 0,
        (length done_ + 3 * n)%nat).
Proof.
  intros Hbytes Hbody.
  destruct (for_range_invariant
              (fun k st => (k <= n)%nat /\
                 st = ((done_ ++ flat_map (fun k => triple_bytes (emit k)) (seq 0 k))
                         ++ replicate (3 * (n - k + m)) 0,
                       (length done_ + 3 * k)%nat))
              body n (done_ ++ replicate (3 * (n + m)) 0, length done_))
    as (st & Hrun & _ & ->).
  - split; [lia |]. cbn [seq flat_map]. rewrite app_nil_r.
    now rewrite Nat.sub_0_r, Nat.mul_0_r, Nat.add_0_r.
  - intros k st Hk [_ ->]. rewrite (Hbody k _ _ Hk).
    pose proof (Hbytes k Hk) as Hb. unfold triple_bytes in Hb.
    apply Forall_cons in Hb as [H1 Hb]. apply Forall_cons in Hb as [H2 Hb].
    apply Forall_cons in Hb as [H3 _].
    replace (n - k + m)%nat with (Datatypes.S (n - Datatypes.S k + m)) by lia.
    replace (length done_ + 3 * k)%nat
      with (length (done_ ++ flat_map (fun k => triple_bytes (emit k)) (seq 0 k)))
      by (rewrite length_app, flat_map_triples_length; reflexivity).
    rewrite (setitem_three_then _ _ _ _ _ _ H1 H2 H3).
    eexists. split; [reflexivity |]. split; [lia |].
    rewrite seq_S, flat_map_app. cbn [flat_map Nat.add]. rewrite app_nil_r.
    rewrite !length_app, flat_map_triples_length. unfold triple_bytes.
    cbn [length]. rewrite <- !app_assoc.
    replace (length done_ + 3 * k + 3)%nat with (length done_ + 3 * Datatypes.S k)%nat by lia.
    reflexivity.
  - rewrite Hrun. rewrite Nat.sub_diag. cbn [Nat.add]. now rewrite <- app_assoc.
Qed.

Lemma mapM_result_map {A B} (f : A -> result B) (g : A -> B) (l : list A) :
  (forall x, x ∈ l -> f x = Ok (g x)) -> mapM f l = Ok (map g l).
Proof.
  induction l as [|x l IH]; intros Hf; [reflexivity |].
  cbn [mapM map]. rewrite Hf by apply list_elem_of_here. rsimpl.
  rewrite IH by (intros y Hy; apply Hf; now apply list_elem_of_further).
  reflexivity.
Qed.

Lemma palette_built (plte_ : list Z) :
  (length plte_ mod 3 = 0)%nat ->
  mapM (fun k =>
          let i := (3 * k)%nat in
          r ← getitem plte_ i;
          g ← getitem plte_ (i + 1);
          b ← getitem plte_ (i + 2);
          Ok (r, g, b)) (seq 0 ((length plte_ + 2) / 3))
  = Ok (palette_of plte_).
Proof.
  intros Hmod.
  unfold palette_of. set (n := (length plte_ / 3)%nat).
  assert (Hlen : length plte_ = (3 * n)%nat).
  { subst n. pose proof (Nat.div_mod (length plte_) 3). lia. }
  replace ((length plte_ + 2) / 3)%nat with n.
  2:{ rewrite Hlen. apply Nat.div_unique with 2%nat; lia. }
  apply mapM_result_map. intros k Hk. apply elem_of_seq in Hk. cbv zeta.
  rewrite !getitem_total by lia. reflexivity.
Qed.

Lemma alpha_built (num_palette : nat) (t : list Z) :
  for_range (Nat.min num_palette (length t))
    (fun i alpha => v ← getitem t i; list_setitem alpha i v)
    (replicate num_palette 255)
  = Ok (alpha_table num_palette (Some t)).
Proof.
  set (m := Nat.min num_palette (length t)).
  destruct (for_range_invariant
              (fun i alpha => alpha = take i t ++ replicate (num_palette - i) 255)
              (fun i alpha => v ← getitem t i; list_setitem alpha i v)
              m (replicate num_palette 255)) as (alpha & Hrun & ->).
  - now rewrite take_0, Nat.sub_0_r.
  - intros i alpha Hi ->.
    rewrite getitem_total by lia. rsimpl.
    assert (Hti : length (take i t) = i) by (rewrite length_take; lia).
    unfold list_setitem.
    case_decide as Hlt.
    2:{ exfalso. apply Hlt. rewrite length_app, length_replicate. lia. }
    eexists. split; [reflexivity |].
    rewrite insert_app_r_alt by lia. rewrite Hti, Nat.sub_diag.
    replace (num_palette - i)%nat with (Datatypes.S (num_palette - Datatypes.S i)) by lia.
    cbn [replicate insert list_insert].
    rewrite (take_S_r t i (t !!! i)) by (apply lookup_total_Some; lia).
    now rewrite <- app_assoc.
  - rewrite Hrun. reflexivity.
Qed.

Lemma alpha_table_lookup (num_palette : nat) (trns_ : option (list Z)) (i : nat) :
  (i < num_palette)%nat ->
  alpha_table num_palette trns_ !! i = Some (alpha_of trns_ i).
Proof.
  intros Hi. unfold alpha_table, alpha_of. destruct trns_ as [t |].
  - destruct (decide (i < length t)%nat) as [Hlt | Hge].
    + rewrite lookup_app_l by (rewrite length_take; lia).
      rewrite lookup_take_lt by lia.
      rewrite (lookup_total_Some t i Hlt). reflexivity.
    + rewrite lookup_app_r by (rewrite length_take; lia).
      rewrite (lookup_ge_None_2 t i) by lia.
      apply lookup_replicate_2. rewrite length_take. lia.
  - now apply lookup_replicate_2.
Qed.

Lemma alpha_of_byte (trns_ : option (list Z)) (i : nat) :
  (forall t, trns_ = Some t -> bytes_ok t) -> is_byte (alpha_of trns_ i).
Proof.
  intros Ht. unfold alpha_of. destruct trns_ as [t |]; [| unfold is_byte; lia].
  destruct (t !! i) as [v |] eqn:Hv; cbn; [| unfold is_byte; lia].
  eapply bytes_ok_lookup; [apply Ht; reflexivity | exact Hv].
Qed.

Lemma indexed_pixel_bytes (plte_ : list Z) (trns_ : option (list Z)) (idx : Z) :
  bytes_ok plte_ -> (length plte_ mod 3 = 0)%nat ->
  (forall t, trns_ = Some t -> bytes_ok t) -> 0 <= idx ->
  bytes_ok (triple_bytes (indexed_pixel plte_ trns_ idx)).
Proof.
  intros Hp Hmod Ht Hidx. unfold indexed_pixel, triple_bytes.
  pose proof (Nat.div_mod (length plte_) 3 ltac:(lia)) as Hdm.
  case_decide; cbn [fst snd].
  - repeat constructor; apply over_white_byte; unfold is_byte; lia.
  - repeat constructor; apply over_white_byte;
      solve [now apply alpha_of_byte | apply bytes_ok_total; [assumption | lia]].
Qed.

Lemma palette_of_lookup (plte_ : list Z) (i : nat) :
  (i < length plte_ / 3)%nat ->
  palette_getitem (palette_of plte_) i
  = Ok (plte_ !!! (3 * i)%nat, plte_ !!! (3 * i + 1)%nat, plte_ !!! (3 * i + 2)%nat).
Proof.
  intros Hi. unfold palette_getitem, palette_of.
  rewrite list_lookup_fmap, lookup_seq_lt by assumption. reflexivity.
Qed.

(** One pixel of the expander: the three stores are those of [indexed_pixel]. *)
Lemma expand_pixel_step (plte_ : list Z) (trns_ : option (list Z)) (idx : Z)
    (rgb : list Z) (out_off : nat) :
  0 <= idx ->
  ('(r, g, b_, a) ←
     (if decide (Z.of_nat (length plte_ / 3) <= idx) then Ok (0, 0, 0, 255)
      else
        '(r, g, b_) ← palette_getitem (palette_of plte_) (Z.to_nat idx);
        a ← getitem (alpha_table (length plte_ / 3) trns_) (Z.to_nat idx);
        Ok (r, g, b_, a));
   rgb ← setitem rgb out_off (over_white r a);
   rgb ← setitem rgb (out_off + 1) (over_white g a);
   rgb ← setitem rgb (out_off + 2) (over_white b_ a);
   Ok (rgb, (out_off + 3)%nat))
  = (rgb ← setitem rgb out_off (indexed_pixel plte_ trns_ idx).1.1;
     rgb ← setitem rgb (out_off + 1) (indexed_pixel plte_ trns_ idx).1.2;
     rgb ← setitem rgb (out_off + 2) (indexed_pixel plte_ trns_ idx).2;
     Ok (rgb, (out_off + 3)%nat)).
Proof.
  intros Hidx. unfold indexed_pixel. case_decide as Hge; [reflexivity |].
  rewrite palette_of_lookup by lia. rsimpl.
  assert (Hi : (Z.to_nat idx < length plte_ / 3)%nat) by lia.
  rewrite (getitem_Ok _ _ _ (alpha_table_lookup _ trns_ _ Hi)).
  reflexivity.
Qed.

Lemma slice_row_length (recon : list Z) (y height scanline_len : nat) :
  (y < height)%nat -> (height * scanline_len <= length recon)%nat ->
  length (slice recon (y * scanline_len) ((y + 1) * scanline_len)) = scanline_len.
Proof.
  intros Hy Hlen. unfold slice. rewrite length_take, length_drop.
  assert (Hrow : ((y + 1) * scanline_len <= height * scanline_len)%nat)
    by (apply Nat.mul_le_mono_r; lia).
  rewrite Nat.mul_add_distr_r, Nat.mul_1_l in *.
  lia.
Qed.

Lemma slice_bytes (b : list Z) (lo hi : nat) : bytes_ok b -> bytes_ok (slice b lo hi).
Proof. intros Hb. unfold slice, bytes_ok in *. now apply Forall_take, Forall_drop. Qed.

Lemma expanded_row_length (bit_depth : Z) (width scanline_len : nat)
    (plte_ : list Z) (trns_ : option (list Z)) (recon : list Z) (y : nat) :
  length (flat_map (fun y =>
            let row := slice recon (y * scanline_len) ((y + 1) * scanline_len) in
            flat_map (fun x =>
              triple_bytes (indexed_pixel plte_ trns_ (packed_index bit_depth row x)))
              (seq 0 width)) (seq 0 y))
  = (3 * (width * y))%nat.
Proof.
  induction y as [|y IH]; [cbn; lia |].
  rewrite seq_S, flat_map_app, length_app, IH. cbn [flat_map Nat.add].
  rewrite app_nil_r.
  rewrite (flat_map_triples_length
             (fun x => indexed_pixel plte_ trns_
                         (packed_index bit_depth
                            (slice recon (y * scanline_len) ((y + 1) * scanline_len)) x))).
  lia.
Qed.

(** The expander computes [expanded_pixels]. *)
Lemma expand_indexed_spec (bit_depth : Z) (width height scanline_len : nat)
    (plte_ : list Z) (trns_ : option (list Z)) (recon : list Z) :
  bit_depth = 1 \/ bit_depth = 2 \/ bit_depth = 4 \/ bit_depth = 8 ->
  bytes_ok plte_ -> (length plte_ mod 3 = 0)%nat ->
  (forall t, trns_ = Some t -> bytes_ok t) ->
  bytes_ok recon ->
  Z.of_nat width * bit_depth <= 8 * Z.of_nat scanline_len ->
  (height * scanline_len <= length recon)%nat ->
  expand_indexed bit_depth width height scanline_len (Some plte_) trns_ recon
  = Ok (expanded_pixels bit_depth width height scanline_len plte_ trns_ recon).
Proof.
  intros Hbd Hplte Hmod Htrns Hrecon Hwidth Hlen.
  unfold expand_indexed. case_decide; [contradiction |].
  rewrite palette_built by assumption. rsimpl.
  set (num_palette := (length plte_ / 3)%nat).
  match goal with
  | |- (?m ≫= _) = _ =>
      replace m with (Ok (alpha_table num_palette trns_))
        by (destruct trns_; [symmetry; apply alpha_built | reflexivity])
  end.
  rsimpl.
  set (row_pixels := fun y =>
         let row := slice recon (y * scanline_len) ((y + 1) * scanline_len) in
         flat_map (fun x =>
           triple_bytes (indexed_pixel plte_ trns_ (packed_index bit_depth row x)))
           (seq 0 width)).
  match goal with
  | |- (for_range height ?body ?s0 ≫= _) = _ =>
      destruct (for_range_invariant
                  (fun y st => (y <= height)%nat /\
                     st = (flat_map row_pixels (seq 0 y)
                             ++ replicate (3 * (width * (height - y))) 0,
                           (3 * (width * y))%nat))
                  body height s0) as (st & Hrun & _ & ->)
  end.
  - split; [lia |]. cbn [seq flat_map app]. rewrite Nat.sub_0_r.
    f_equal; [f_equal |]; lia.
  - intros y st Hy [_ ->]. cbv beta iota.
    set (row := slice recon (y * scanline_len) ((y + 1) * scanline_len)).
    pose proof (expanded_row_length bit_depth width scanline_len plte_ trns_ recon y)
      as HlenP.
    fold row_pixels in HlenP.
    replace (width * (height - y))%nat
      with (width + width * (height - Datatypes.S y))%nat by nia.
    rewrite <- HlenP.
    rewrite (emit_loop width (width * (height - Datatypes.S y))
               (fun x => indexed_pixel plte_ trns_ (packed_index bit_depth row x))).
    + eexists. split; [reflexivity |]. split; [lia |].
      rewrite seq_S, flat_map_app. cbn [flat_map Nat.add].
      rewrite app_nil_r, <- app_assoc. fold row. rewrite HlenP.
      f_equal. lia.
    + intros x Hx. apply indexed_pixel_bytes; try assumption.
      apply packed_index_range. lia.
    + intros x rgb off Hx.
      rewrite get_index_packed; [| assumption | now apply slice_bytes |].
      * rsimpl. apply expand_pixel_step. apply packed_index_range. lia.
      * subst row. rewrite (slice_row_length recon y height) by assumption. nia.
  - rewrite Hrun. rsimpl. rewrite Nat.sub_diag, Nat.mul_0_r. cbn [Nat.mul replicate].
    now rewrite app_nil_r.
Qed.

(** ** The chunk loop terminates *)

Lemma read_chunk_consumes (s s' : list Z) (c : list Z * list Z) :
  _read_chunk s = (Ok c, s') -> (length s' + 12 <= length s)%nat.
Proof.
  rewrite read_chunk_cases. cbv zeta.
  repeat case_decide; try discriminate.
  intros [= _ <-]. rewrite length_drop. lia.
Qed.

(** With more fuel than the stream has bytes, the loop never runs out:
    its result does not depend on the fuel. *)
Lemma read_chunks_fuel (fuel fuel' : nat) :
  forall st s, (length s < fuel)%nat -> (length s < fuel')%nat ->
    read_chunks fuel st s = read_chunks fuel' st s.
Proof.
  revert fuel'. induction fuel as [|fuel IH]; intros fuel' st s Hf Hf'; [lia |].
  destruct fuel' as [|fuel']; [lia |].
  cbn [read_chunks].
  destruct (_read_chunk s) as [[[chunk_type data] | e] s'] eqn:Hread; [| reflexivity].
  apply read_chunk_consumes in Hread.
  repeat case_decide; try reflexivity; apply IH; lia.
Qed.

(** ** The bit-depth gate *)

(** Whatever the colour type, a header whose bit depth is not 8 ends the
    run before any chunk after the header is read. *)
Lemma bit_depth_gate (z : zlib) (f hd rest : list Z) :
  take 8 f = PNG_SIGNATURE ->
  _read_chunk (drop 8 f) = (Ok (IHDR, hd), rest) ->
  length hd = 13%nat ->
  ihdr_bit_depth (struct_unpack_IHDR hd) <> 8 ->
  fst (decode_and_flatten z f) = Raise (PNGFormatError Only8BitSupported).
Proof.
  intros Hsig Hread Hlen Hbd.
  unfold decode_and_flatten, io_bind, stream_read, io_raise.
  case_decide; [contradiction |].
  rewrite Hread.
  case_decide; [contradiction |]. case_decide; [contradiction |].
  case_decide; [reflexivity | contradiction].
Qed.

Example packed_index_4bit :
  packed_index 4 [0xAB] 0 = 0xA /\ packed_index 4 [0xAB] 1 = 0xB.
Proof. split; reflexivity. Qed.

Example packed_index_2bit :
  map (packed_index 2 [228]) [0; 1; 2; 3]%nat = [3; 2; 1; 0].
Proof. reflexivity. Qed.

Example packed_index_1bit :
  map (packed_index 1 [129]) [0; 1; 2; 3; 4; 5; 6; 7]%nat = [1; 0; 0; 0; 0; 0; 0; 1].
Proof. reflexivity. Qed.

(** C2, as the code has it.  The unpacker [get_index_from_row] reads pixel
    [x] of a packed row for bit depths 1, 2, 4 and 8 (most significant field
    first) and is a format error for any other depth, and [expand_indexed]
    sends every index through the palette; but the program checks the
    header first: a bit depth other than 8 is the format error "Only 8-bit
    PNGs are supported", for every colour type, so of these only the 8-bit
    unpacking is ever reached from a file. *)
Theorem indexed_unpack_behind_depth_gate
    (bit_depth : Z) (row : list Z) (x width height scanline_len : nat)
    (plte_ : list Z) (trns_ : option (list Z)) (recon : list Z)
    (z : zlib) (f hd rest : list Z) :
  (bit_depth = 1 \/ bit_depth = 2 \/ bit_depth = 4 \/ bit_depth = 8 ->
   bytes_ok row -> Z.of_nat x * bit_depth < 8 * Z.of_nat (length row) ->
   get_index_from_row bit_depth row x = Ok (packed_index bit_depth row x))
  /\ (bit_depth <> 1 -> bit_depth <> 2 -> bit_depth <> 4 -> bit_depth <> 8 ->
      get_index_from_row bit_depth row x
      = Raise (PNGFormatError (UnsupportedIndexedBitDepth bit_depth)))
  /\ (bit_depth = 1 \/ bit_depth = 2 \/ bit_depth = 4 \/ bit_depth = 8 ->
      bytes_ok plte_ -> (length plte_ mod 3 = 0)%nat ->
      (forall t, trns_ = Some t -> bytes_ok t) -> bytes_ok recon ->
      Z.of_nat width * bit_depth <= 8 * Z.of_nat scanline_len ->
      (height * scanline_len <= length recon)%nat ->
      expand_indexed bit_depth width height scanline_len (Some plte_) trns_ recon
      = Ok (expanded_pixels bit_depth width height scanline_len plte_ trns_ recon))
  /\ (take 8 f = PNG_SIGNATURE ->
      _read_chunk (drop 8 f) = (Ok (IHDR, hd), rest) ->
      length hd = 13%nat ->
      ihdr_bit_depth (struct_unpack_IHDR hd) <> 8 ->
      fst (decode_and_flatten z f) = Raise (PNGFormatError Only8BitSupported)).
Proof.
  split; [apply get_index_packed |].
  split; [apply get_index_unsupported |].
  split; [apply expand_indexed_spec | apply bit_depth_gate].
Qed.

Lemma indexed_unpack_behind_depth_gate_witness :
  get_index_from_row 4 [0xAB] 1 = Ok 0xB
  /\ expand_indexed 4 2 1 1 (Some [255; 0; 0; 0; 255; 0]) None [16]
     = Ok [0; 255; 0; 255; 0; 0]
  /\ fst (decode_and_flatten stored indexed_4bit_png)
     = Raise (PNGFormatError Only8BitSupported).
Proof.
  destruct (indexed_unpack_behind_depth_gate 4 [0xAB] 1 2 1 1
              [255; 0; 0; 0; 255; 0] None [16] stored indexed_4bit_png
              (be32 2 ++ be32 1 ++ [4; 3; 0; 0; 0])
              (snd (_read_chunk (drop 8 indexed_4bit_png))))
    as (Hunpack & _ & Hexpand & Hgate).
  split; [| split].
  - apply Hunpack; [lia | repeat constructor; unfold is_byte; lia | cbn; lia].
  - apply Hexpand; try (cbn; lia); try reflexivity.
    + repeat constructor; unfold is_byte; lia.
    + discriminate.
    + repeat constructor; unfold is_byte; lia.
  - apply Hgate; [reflexivity | vm_compute; reflexivity | reflexivity |].
    vm_compute. discriminate.
Defined.

(** The same image with eight bits per pixel goes through: green, then red. *)
Example indexed_8bit_is_expanded :
  fst (decode_and_flatten stored indexed_8bit_png)
  = Ok (Flattened 2 1 [] [0; 0; 255; 0; 255; 0; 0]).
Proof. vm_compute. reflexivity. Qed.

(** C2 as the specification words it fails: an indexed-colour file with
    four bits per pixel is not unpacked; the run ends in the format error
    of the header check. *)
Lemma indexed_4bit_is_rejected :
  flatten_png_alpha_to_white stored example_os "a.png" None false
    {[ 1%N := indexed_4bit_png ]}
  = (Raise (PNGFormatError Only8BitSupported), {[ 1%N := indexed_4bit_png ]}).
Proof. vm_compute. reflexivity. Qed.

(** ** Byte stores never fail *)

(** C10.  For bytes [c] and [a] the composited value is in [0, 255].  So no
    byte store of the truecolour-alpha flattener, on a buffer of bytes, and
    none of the indexed-colour expander, on a palette and a transparency
    table of bytes, is out of range: neither raises [ValueError], and both
    return on well-formed buffers. *)
Theorem composited_stores_in_range (c a : Z) (rgba_bytes plte_ : list Z)
    (trns_ : option (list Z)) (bit_depth : Z) (width height scanline_len : nat)
    (recon : list Z) :
  0 <= c <= 255 -> 0 <= a <= 255 ->
  bytes_ok rgba_bytes -> bytes_ok plte_ -> (forall t, trns_ = Some t -> bytes_ok t) ->
  0 <= (c * a + 255 * (255 - a)) / 255 <= 255
  /\ _flatten_rgba_over_white rgba_bytes <> Raise ValueError
  /\ ((length rgba_bytes mod 4 = 0)%nat -> is_Ok (_flatten_rgba_over_white rgba_bytes))
  /\ expand_indexed bit_depth width height scanline_len (Some plte_) trns_ recon
     <> Raise ValueError
  /\ (bit_depth = 1 \/ bit_depth = 2 \/ bit_depth = 4 \/ bit_depth = 8 ->
      (length plte_ mod 3 = 0)%nat -> bytes_ok recon ->
      Z.of_nat width * bit_depth <= 8 * Z.of_nat scanline_len ->
      (height * scanline_len <= length recon)%nat ->
      is_Ok (expand_indexed bit_depth width height scanline_len (Some plte_) trns_ recon)).
Proof.
  intros Hc Ha Hrgba Hplte Htrns.
  split; [apply (over_white_range c a Hc Ha) |].
  split.
  { destruct (decide (length rgba_bytes mod 4 = 0)%nat) as [Hm | Hm].
    - now rewrite flatten_rgba_spec.
    - unfold _flatten_rgba_over_white. case_decide; [discriminate | contradiction]. }
  split.
  { intros Hm. rewrite flatten_rgba_spec by assumption. now eexists. }
  split.
  { now apply expand_indexed_never_ValueError. }
  intros Hbd Hmod Hrecon Hw Hh.
  rewrite expand_indexed_spec by assumption. now eexists.
Qed.

Lemma composited_stores_in_range_witness :
  0 <= (200 * 128 + 255 * (255 - 128)) / 255 <= 255
  /\ _flatten_rgba_over_white [200; 100; 50; 128] <> Raise ValueError
  /\ is_Ok (_flatten_rgba_over_white [200; 100; 50; 128])
  /\ expand_indexed 8 2 1 2 (Some [255; 0; 0; 0; 255; 0]) (Some [0]) [1; 0]
     <> Raise ValueError
  /\ is_Ok (expand_indexed 8 2 1 2 (Some [255; 0; 0; 0; 255; 0]) (Some [0]) [1; 0]).
Proof.
  destruct (composited_stores_in_range 200 128 [200; 100; 50; 128]
              [255; 0; 0; 0; 255; 0] (Some [0]) 8 2 1 2 [1; 0])
    as (Hrange & Hflat & Hflat_ok & Hexp & Hexp_ok).
  - lia.
  - lia.
  - repeat constructor; unfold is_byte; lia.
  - repeat constructor; unfold is_byte; lia.
  - intros t [= <-]. repeat constructor; unfold is_byte; lia.
  - repeat split; try assumption.
    + apply Hrange.
    + apply Hrange.
    + apply Hflat_ok. reflexivity.
    + apply Hexp_ok; try (cbn; lia); try reflexivity.
      repeat constructor; unfold is_byte; lia.
Defined.

(** ** Every file that is read has the chunk structure *)

Lemma be32_unpack (b : list Z) :
  bytes_ok b -> length b = 4%nat ->
  be32 (struct_unpack_I b) = b /\ 0 <= struct_unpack_I b < 4294967296.
Proof.
  intros Hb Hlen.
  destruct b as [|b0 [|b1 [|b2 [|b3 [|? ?]]]]]; try discriminate.
  apply Forall_cons in Hb as [H0 Hb]. apply Forall_cons in Hb as [H1 Hb].
  apply Forall_cons in Hb as [H2 Hb]. apply Forall_cons in Hb as [H3 _].
  rewrite struct_unpack_I_bytes by assumption.
  unfold is_byte in *. unfold be32. split.
  - repeat f_equal; Z.to_euclidean_division_equations; lia.
  - lia.
Qed.

Lemma read_chunk_EOF (s s' : list Z) :
  _read_chunk s = (Raise EOFError, s') -> s = [].
Proof.
  rewrite read_chunk_cases. cbv zeta. repeat case_decide; try discriminate. auto.
Qed.

(** A chunk that was read stood, well formed, at the front of the stream. *)
Lemma read_chunk_Ok_inv (s s' chunk_type data : list Z) :
  bytes_ok s ->
  _read_chunk s = (Ok (chunk_type, data), s') ->
  exists crc_bytes,
    s = raw_chunk (chunk_type, data, crc_bytes) ++ s'
    /\ chunk_ok (chunk_type, data, crc_bytes).
Proof.
  intros Hb. rewrite read_chunk_cases. cbv zeta.
  set (n := struct_unpack_I (take 4 s)).
  repeat case_decide; try discriminate.
  remember (8 + Z.to_nat n)%nat as e8 eqn:He8.
  remember (12 + Z.to_nat n)%nat as e12 eqn:He12.
  intros [= <- <- <-]. subst e8 e12.
  assert (H4 : length (take 4 s) = 4%nat) by (rewrite length_take; lia).
  destruct (be32_unpack (take 4 s)) as [Hbe Hrange];
    [unfold bytes_ok in *; now apply Forall_take | exact H4 |].
  fold n in Hbe, Hrange.
  assert (Hd : length (slice s 8 (8 + Z.to_nat n)) = Z.to_nat n).
  { unfold slice. rewrite length_take, length_drop. lia. }
  exists (slice s (8 + Z.to_nat n) (12 + Z.to_nat n)).
  split.
  - unfold raw_chunk. cbv beta iota. rewrite Hd, Z2Nat.id, Hbe by lia.
    unfold slice.
    replace (8 - 4)%nat with 4%nat by lia.
    replace (8 + Z.to_nat n - 8)%nat with (Z.to_nat n) by lia.
    replace (12 + Z.to_nat n - (8 + Z.to_nat n))%nat with 4%nat by lia.
    rewrite <- !app_assoc.
    rewrite <- (take_drop 4 s) at 1. f_equal.
    rewrite <- (take_drop 4 (drop 4 s)) at 1. f_equal.
    rewrite drop_drop. change (4 + 4)%nat with 8%nat.
    rewrite <- (take_drop (Z.to_nat n) (drop 8 s)) at 1. f_equal.
    rewrite drop_drop.
    rewrite <- (take_drop 4 (drop (8 + Z.to_nat n) s)) at 1. f_equal.
    rewrite drop_drop. f_equal. lia.
  - repeat split.
    + unfold slice. rewrite length_take, length_drop. lia.
    + rewrite Hd. lia.
    + unfold slice. rewrite length_take, length_drop. lia.
Qed.

(** What the chunk loop returns, it collected from a sequence of
    well-formed chunks that ends with the file or with a terminator. *)
Lemma read_chunks_inv (fuel : nat) :
  forall st s st',
    bytes_ok s -> (length s < fuel)%nat ->
    fst (read_chunks fuel st s) = Ok st' ->
    exists cs tail,
      s = flat_map raw_chunk cs ++ tail
      /\ Forall chunk_ok cs
      /\ Forall (fun c => c.1.1 <> IEND) cs
      /\ chunks_end tail
      /\ st' = foldl collect_chunk st (map chunk_content cs).
Proof.
  induction fuel as [|fuel IH]; intros st s st' Hb Hfuel; [lia |].
  cbn [read_chunks].
  destruct (_read_chunk s) as [[[t d] | e] s'] eqn:Hread.
  - destruct (read_chunk_Ok_inv s s' t d Hb Hread) as (crc & Hs & Hok).
    apply read_chunk_consumes in Hread.
    assert (Hb' : bytes_ok s').
    { rewrite Hs in Hb. unfold bytes_ok in *. now apply Forall_app in Hb as [_ ?]. }
    assert (Hstep : forall st1,
              st1 = collect_chunk st (t, d) -> t <> IEND ->
              fst (read_chunks fuel st1 s') = Ok st' ->
              exists cs tail,
                s = flat_map raw_chunk cs ++ tail
                /\ Forall chunk_ok cs
                /\ Forall (fun c => c.1.1 <> IEND) cs
                /\ chunks_end tail
                /\ st' = foldl collect_chunk st (map chunk_content cs)).
    { intros st1 -> Hne Hrest.
      destruct (IH _ s' st' Hb' ltac:(lia) Hrest)
        as (cs & tail & Hs' & Hcs & Hnes & Hend & ->).
      exists ((t, d, crc) :: cs), tail. cbn [flat_map map foldl].
      rewrite <- app_assoc, <- Hs'.
      repeat split; try assumption; constructor; assumption. }
    unfold collect_chunk in Hstep.
    repeat case_decide; subst.
    + apply Hstep; [| discriminate]. now destruct (decide (IDAT = IDAT)).
    + apply Hstep; [| discriminate].
      destruct (decide (PLTE = IDAT)); [discriminate |].
      now destruct (decide (PLTE = PLTE)).
    + apply Hstep; [| discriminate].
      destruct (decide (tRNS = IDAT)); [discriminate |].
      destruct (decide (tRNS = PLTE)); [discriminate |].
      now destruct (decide (tRNS = tRNS)).
    + cbn [fst]. intros [= <-]. exists [], (raw_chunk (IEND, d, crc) ++ s').
      split; [reflexivity |]. split; [constructor |]. split; [constructor |].
      split; [| reflexivity]. right. now exists d, crc, s'.
    + apply Hstep; [| assumption].
      destruct (decide (t = IDAT)); [contradiction |].
      destruct (decide (t = PLTE)); [contradiction |].
      now destruct (decide (t = tRNS)).
  - destruct e; cbn [fst]; try discriminate.
    intros [= <-]. apply read_chunk_EOF in Hread as ->.
    exists [], [].
    split; [reflexivity |]. split; [constructor |]. split; [constructor |].
    split; [now left | reflexivity].
Qed.

(** ** The output stream *)

(** C8.  Every successful run, on a file [f] of bytes, has read [f] as the
    signature, a header chunk, a sequence [cs] of chunks before the
    terminator (or the end of the file), and has written exactly: the
    signature; a header chunk with the width and height of the input, bit
    depth 8, colour type 2, and compression, filter and interlace 0 (the
    values validated on the input); the chunks of [cs] whose type is [sRGB],
    [gAMA] or [cHRM], in their order; one [IDAT] chunk holding the
    compressor's output; the [IEND] chunk.  Nothing else of the input is
    copied. *)
Theorem output_stream_layout (z : zlib) (sys : os) (src_path : string)
    (dst_path : option string) (overwrite : bool)
    (files files' : gmap inode (list Z)) (output_path : string)
    (src_file : inode) (f : list Z) :
  os_open_rb sys src_path = Some src_file ->
  files !! src_file = Some f ->
  bytes_ok f ->
  flatten_png_alpha_to_white z sys src_path dst_path overwrite files
  = (Ok output_path, files') ->
  exists hd crc0 cs tail out_raw out_file,
    f = PNG_SIGNATURE ++ raw_chunk (IHDR, hd, crc0) ++ flat_map raw_chunk cs ++ tail
    /\ Forall chunk_ok cs
    /\ Forall (fun c => c.1.1 <> IEND) cs
    /\ chunks_end tail
    /\ ihdr_bit_depth (struct_unpack_IHDR hd) = 8
    /\ ihdr_compression (struct_unpack_IHDR hd) = 0
    /\ ihdr_filter_method (struct_unpack_IHDR hd) = 0
    /\ ihdr_interlace (struct_unpack_IHDR hd) = 0
    /\ output_path = resolve_output_path src_path dst_path overwrite
    /\ os_open_wb sys output_path = Some out_file
    /\ files' = <[out_file :=
                  PNG_SIGNATURE
                  ++ chunk_wire (IHDR, be32 (ihdr_width (struct_unpack_IHDR hd))
                                       ++ be32 (ihdr_height (struct_unpack_IHDR hd))
                                       ++ [8; 2; 0; 0; 0])
                  ++ flat_map chunk_wire (filter whitelisted (map chunk_content cs))
                  ++ chunk_wire (IDAT, zlib_compress z out_raw 9)
                  ++ chunk_wire (IEND, [])]> files.
Proof.
  intros Hopen Hsrc Hb Hrun.
  pose proof Hrun as Hrun'. unfold flatten_png_alpha_to_white in Hrun'.
  rewrite Hopen in Hrun'. cbn [mbind option_bind] in Hrun'. rewrite Hsrc in Hrun'.
  destruct (fst (decode_and_flatten z f)) as [d | e] eqn:Hdec; [| discriminate].
  clear Hrun'.
  apply decode_and_flatten_Ok in Hdec
    as (hd & rest & st & out_raw0 & Hsig & Hread & _ & _ & _ & _ & _ & Hloop & _ & _).
  assert (Hb8 : bytes_ok (drop 8 f)) by (unfold bytes_ok in *; now apply Forall_drop).
  destruct (read_chunk_Ok_inv _ _ _ _ Hb8 Hread) as (crc0 & Hf & Hhd).
  assert (Hbrest : bytes_ok rest).
  { rewrite Hf in Hb8. unfold bytes_ok in *. now apply Forall_app in Hb8 as [_ ?]. }
  destruct (read_chunks_inv _ _ _ _ Hbrest (Nat.lt_succ_diag_r _) Hloop)
    as (cs & tail & Hrest & Hcs & Hne & Hend & _).
  assert (Hfile : f = PNG_SIGNATURE ++ raw_chunk (IHDR, hd, crc0)
                        ++ flat_map raw_chunk cs ++ tail).
  { rewrite <- (take_drop 8 f), Hsig, Hf, Hrest. reflexivity. }
  rewrite Hfile in Hsrc.
  destruct (structured_run_output z sys src_path dst_path overwrite files files'
              output_path src_file hd crc0 cs tail Hopen Hsrc Hhd Hcs Hne Hend Hrun)
    as (Hbd & Hc & Hfm & Hil & Hpath & out_raw & out_file & Hwb & Hout).
  exists hd, crc0, cs, tail, out_raw, out_file.
  refine (conj Hfile (conj Hcs (conj Hne (conj Hend (conj Hbd (conj Hc (conj Hfm
            (conj Hil (conj Hpath (conj Hwb Hout)))))))))).
Qed.

(** A one-pixel example for C8: an [sRGB] chunk and a [tEXt] chunk before
    the pixel data, a terminator, and bytes after it. *)
Lemma output_stream_layout_witness :
  let cs := [(sRGB, [0], [1; 2; 3; 4]);
             (bytes_of "tEXt", [65; 0; 66], [0; 0; 0; 0]);
             (IDAT, [0; 200; 100; 50; 128], [9; 9; 9; 9])] in
  let f := PNG_SIGNATURE
           ++ raw_chunk (IHDR, be32 1 ++ be32 1 ++ [8; 6; 0; 0; 0], [0; 0; 0; 0])
           ++ flat_map raw_chunk cs
           ++ raw_chunk (IEND, [], [0; 0; 0; 0]) ++ [7; 7] in
  let files : gmap inode (list Z) := {[ 1%N := f ]} in
  exists hd crc0 cs tail out_raw out_file,
    f = PNG_SIGNATURE ++ raw_chunk (IHDR, hd, crc0) ++ flat_map raw_chunk cs ++ tail
    /\ Forall chunk_ok cs
    /\ Forall (fun c => c.1.1 <> IEND) cs
    /\ chunks_end tail
    /\ ihdr_bit_depth (struct_unpack_IHDR hd) = 8
    /\ ihdr_compression (struct_unpack_IHDR hd) = 0
    /\ ihdr_filter_method (struct_unpack_IHDR hd) = 0
    /\ ihdr_interlace (struct_unpack_IHDR hd) = 0
    /\ "a.png.flattened.png"%string = resolve_output_path "a.png" None false
    /\ os_open_wb example_os "a.png.flattened.png" = Some out_file
    /\ snd (flatten_png_alpha_to_white stored example_os "a.png" None false files)
       = <[out_file :=
            PNG_SIGNATURE
            ++ chunk_wire (IHDR, be32 (ihdr_width (struct_unpack_IHDR hd))
                                 ++ be32 (ihdr_height (struct_unpack_IHDR hd))
                                 ++ [8; 2; 0; 0; 0])
            ++ flat_map chunk_wire (filter whitelisted (map chunk_content cs))
            ++ chunk_wire (IDAT, zlib_compress stored out_raw 9)
            ++ chunk_wire (IEND, [])]> files.
Proof.
  cbv zeta.
  apply (output_stream_layout stored example_os "a.png" None false _ _ _ 1%N).
  - reflexivity.
  - reflexivity.
  - apply bytes_ok_forallb. vm_compute. reflexivity.
  - vm_compute. reflexivity.
Defined.

(** * Further properties *)

(** ** The run, stage by stage *)

(** [decode_and_flatten] is: the signature, the header chunk and its
    checks, the chunk loop, and then [transform]. *)
Lemma decode_and_flatten_stages (z : zlib) (f : list Z) :
  fst (decode_and_flatten z f) =
    if decide (take 8 f ≠ PNG_SIGNATURE) then Raise (PNGFormatError NotAPNGFile)
    else
      match _read_chunk (drop 8 f) with
      | (Raise e, _) => Raise e
      | (Ok (chunk_type, data), rest) =>
        hdr ← check_header chunk_type data;
        match read_chunks (S (length rest)) (Chunks [] [] None None) rest with
        | (Raise e, _) => Raise e
        | (Ok st, _) => transform z hdr st
        end
      end.
Proof.
  unfold decode_and_flatten, io_bind, stream_read, io_raise, io_ret, io_lift, check_header.
  case_decide; [reflexivity |].
  destruct (_read_chunk (drop 8 f)) as [[[t hd] | e] rest]; [| reflexivity].
  repeat (case_decide; [reflexivity |]). rsimpl.
  destruct (read_chunks (S (length rest)) _ rest) as [[st | e] rest']; [| reflexivity].
  unfold transform.
  case_decide; [reflexivity |].
  destruct (zlib_decompress z _) as [decompressed |]; [| reflexivity].
  rsimpl. cbv beta.
  repeat case_decide; rsimpl; try reflexivity;
    (destruct (_unfilter_scanlines _ _ _ _) as [recon | e]; rsimpl; [| reflexivity]);
    match goal with
    | |- context [refilter_rows ?b _ _] =>
        destruct (refilter_rows b _ _) as [out_raw | e]; reflexivity
    | |- context [match ?m with Ok _ => _ | Raise _ => _ end] =>
        destruct m as [rgb_bytes | e]; rsimpl; [| reflexivity];
        destruct (refilter_rows _ _ _) as [out_raw | e]; reflexivity
    end.
Qed.

(** ** Unfiltering: what it returns and when it fails *)

(** On a row of bytes, every known filter type rebuilds a row of bytes of
    the same length. *)
Lemma unfilter_row_known (filter_type : Z) (n bytes_per_pixel : nat) (prev_row curr : list Z) :
  known_tag filter_type -> length curr = n -> length prev_row = n -> bytes_ok curr ->
  exists out, unfilter_row filter_type n bytes_per_pixel prev_row curr = Ok out
              /\ length out = n /\ bytes_ok out.
Proof.
  intros Hft Hlen Hprev Hb. unfold known_tag in Hft. unfold unfilter_row.
  assert (Hstore : forall (c : list Z) i v,
            length c = n /\ bytes_ok c -> (i < n)%nat ->
            exists c', setitem c i (Z.land v 0xFF) = Ok c' /\ length c' = n /\ bytes_ok c').
  { intros c i v [Hc Hcb] Hi. eexists. split; [| split].
    - apply setitem_Ok; [lia | apply land_255_byte].
    - now rewrite length_insert.
    - apply Forall_insert; [assumption | apply land_255_byte]. }
  repeat case_decide; try lia; try (exists curr; now repeat split);
    apply (for_range_invariant (fun _ c => length c = n /\ bytes_ok c));
    try (now split);
    intros i c Hi [Hc Hcb];
    rewrite ?(left_of_total bytes_per_pixel c i) by lia;
    rewrite ?(getitem_total prev_row i) by lia;
    rewrite ?(left_of_total bytes_per_pixel prev_row i) by lia;
    rewrite ?(getitem_total c i) by lia;
    rewrite ?result_bind_Ok;
    apply Hstore; auto.
Qed.

Lemma unfilter_row_unknown (filter_type : Z) (n bytes_per_pixel : nat) (prev_row curr : list Z) :
  ~ known_tag filter_type ->
  unfilter_row filter_type n bytes_per_pixel prev_row curr
  = Raise (PNGFormatError (UnsupportedFilterType filter_type)).
Proof.
  unfold known_tag, unfilter_row. intros Hft.
  repeat (case_decide; [lia |]). reflexivity.
Qed.

Lemma slice_length (b : list Z) (lo n : nat) :
  (lo + n <= length b)%nat -> length (slice b lo (lo + n)) = n.
Proof. intros H. unfold slice. rewrite length_take, length_drop. lia. Qed.

Lemma slice_assign_length (b v : list Z) (lo : nat) :
  (lo + length v <= length b)%nat ->
  length (slice_assign b lo (lo + length v) v) = length b.
Proof.
  intros H. unfold slice_assign. rewrite !length_app, length_take, length_drop. lia.
Qed.

Lemma slice_assign_bytes (b v : list Z) (lo hi : nat) :
  bytes_ok b -> bytes_ok v -> bytes_ok (slice_assign b lo hi v).
Proof.
  intros Hb Hv. unfold slice_assign, bytes_ok in *.
  apply Forall_app. split; [now apply Forall_take |].
  apply Forall_app. split; [assumption | now apply Forall_drop].
Qed.

Lemma row_offset_bound (i H n : nat) :
  (i < H)%nat -> (i * (1 + n) + 1 + n <= H * (1 + n))%nat.
Proof.
  intros Hi. replace (i * (1 + n) + 1 + n)%nat with (Datatypes.S i * (1 + n))%nat by lia.
  apply Nat.mul_le_mono_r. lia.
Qed.

Lemma row_start_bound (i H n : nat) :
  (i < H)%nat -> (i * n + n <= H * n)%nat.
Proof.
  intros Hi. replace (i * n + n)%nat with (Datatypes.S i * n)%nat by lia.
  apply Nat.mul_le_mono_r. lia.
Qed.

(** The row loop of [_unfilter_scanlines], from row [i] on: it runs to the
    end when every tag is known, and stops at the first unknown tag. *)
Lemma unfilter_rows_loop (raw : list Z) (H n bytes_per_pixel : nat)
    (body : nat -> list Z * list Z * nat -> result (list Z * list Z * nat)) :
  (forall y recon prev_row offset,
     body y (recon, prev_row, offset) =
       (filter_type ← getitem raw offset;
        curr ← unfilter_row filter_type n bytes_per_pixel prev_row
                 (slice raw (offset + 1) (offset + 1 + n));
        Ok (slice_assign recon (y * n) (y * n + n) curr, curr,
            (offset + 1 + n)%nat))) ->
  bytes_ok raw -> (H * (1 + n) <= length raw)%nat ->
  forall k i recon prev_row,
    (i + k = H)%nat -> length recon = (H * n)%nat -> bytes_ok recon ->
    length prev_row = n ->
    ((forall y, (i <= y < H)%nat -> known_tag (row_tag raw n y)) ->
     exists recon' prev_row',
       for_loop body i k (recon, prev_row, (i * (1 + n))%nat)
       = Ok (recon', prev_row', (H * (1 + n))%nat)
       /\ length recon' = (H * n)%nat /\ bytes_ok recon')
    /\ (forall y, (i <= y < H)%nat ->
          (forall y', (i <= y' < y)%nat -> known_tag (row_tag raw n y')) ->
          ~ known_tag (row_tag raw n y) ->
          for_loop body i k (recon, prev_row, (i * (1 + n))%nat)
          = Raise (PNGFormatError (UnsupportedFilterType (row_tag raw n y)))).
Proof.
  intros Hbody Hraw Hlen. induction k as [|k IH]; intros i recon prev_row Hik Hrecon Hrb Hprev.
  - replace i with H by lia. split.
    + intros _. exists recon, prev_row. now repeat split.
    + intros y Hy. lia.
  - assert (Hi : (i < H)%nat) by lia.
    pose proof (row_offset_bound i H n Hi) as Hoff.
    pose proof (row_start_bound i H n Hi) as Hstart.
    assert (Htag : getitem raw (i * (1 + n)) = Ok (row_tag raw n i)).
    { apply getitem_total. lia. }
    assert (Hcurr : length (slice raw (i * (1 + n) + 1) (i * (1 + n) + 1 + n)) = n).
    { apply slice_length. lia. }
    assert (Hstep : forall out,
              unfilter_row (row_tag raw n i) n bytes_per_pixel prev_row
                (slice raw (i * (1 + n) + 1) (i * (1 + n) + 1 + n)) = Ok out ->
              for_loop body i (Datatypes.S k) (recon, prev_row, (i * (1 + n))%nat)
              = for_loop body (Datatypes.S i) k
                  (slice_assign recon (i * n) (i * n + n) out, out,
                   (Datatypes.S i * (1 + n))%nat)).
    { intros out Hout. rewrite for_loop_S, Hbody, Htag. rsimpl. rewrite Hout. rsimpl.
      do 3 f_equal. lia. }
    assert (Hknown : known_tag (row_tag raw n i) ->
              exists out,
                unfilter_row (row_tag raw n i) n bytes_per_pixel prev_row
                  (slice raw (i * (1 + n) + 1) (i * (1 + n) + 1 + n)) = Ok out
                /\ length out = n /\ bytes_ok out).
    { intros Hk. apply unfilter_row_known; auto. now apply slice_bytes. }
    assert (Hnext : forall out, length out = n -> bytes_ok out ->
              length (slice_assign recon (i * n) (i * n + n) out) = (H * n)%nat
              /\ bytes_ok (slice_assign recon (i * n) (i * n + n) out)).
    { intros out Ho Hob. split.
      - pose proof (slice_assign_length recon out (i * n)) as Hsa.
        rewrite Ho in Hsa. rewrite Hsa; lia.
      - now apply slice_assign_bytes. }
    split.
    + intros Hall.
      destruct (Hknown (Hall i ltac:(lia))) as (out & Hout & Ho & Hob).
      destruct (Hnext out Ho Hob) as [Hl' Hb'].
      rewrite (Hstep out Hout).
      apply (IH (Datatypes.S i) _ out ltac:(lia) Hl' Hb' Ho).
      intros y Hy. apply Hall. lia.
    + intros y Hy Hbefore Hbad.
      destruct (decide (y = i)) as [-> | Hne].
      * rewrite for_loop_S, Hbody, Htag. rsimpl.
        now rewrite unfilter_row_unknown.
      * destruct (Hknown (Hbefore i ltac:(lia))) as (out & Hout & Ho & Hob).
        destruct (Hnext out Ho Hob) as [Hl' Hb'].
        rewrite (Hstep out Hout).
        apply (IH (Datatypes.S i) _ out ltac:(lia) Hl' Hb' Ho); [lia | | assumption].
        intros y' Hy'. apply Hbefore. lia.
Qed.

Lemma row_tag_take (raw : list Z) (H n y : nat) :
  (y < H)%nat -> row_tag (take (H * (1 + n)) raw) n y = row_tag raw n y.
Proof.
  intros Hy. unfold row_tag. rewrite !list_lookup_total_alt.
  rewrite lookup_take_lt; [reflexivity |].
  pose proof (row_offset_bound y H n Hy). lia.
Qed.

(** The two outcomes of [_unfilter_scanlines] on a buffer of bytes that is
    long enough. *)
Lemma unfilter_scanlines_cases (raw : list Z) (height row_size bytes_per_pixel : nat) :
  bytes_ok raw -> (height * (1 + row_size) <= length raw)%nat ->
  ((forall y, (y < height)%nat -> known_tag (row_tag raw row_size y)) ->
   exists recon,
     _unfilter_scanlines raw height row_size bytes_per_pixel = Ok recon
     /\ length recon = (height * row_size)%nat /\ bytes_ok recon)
  /\ (forall y, (y < height)%nat ->
        (forall y', (y' < y)%nat -> known_tag (row_tag raw row_size y')) ->
        ~ known_tag (row_tag raw row_size y) ->
        _unfilter_scanlines raw height row_size bytes_per_pixel
        = Raise (PNGFormatError (UnsupportedFilterType (row_tag raw row_size y)))).
Proof.
  intros Hb Hlen. unfold _unfilter_scanlines.
  match goal with
  | |- context [decide (length raw ≠ ?e)] =>
      assert (Hsel : (if decide (length raw ≠ e)
                      then if decide (length raw < e)%nat
                           then Raise (PNGFormatError (IDATSizeUnexpected (length raw) e))
                           else Ok (take e raw)
                      else Ok raw) = Ok (take e raw))
  end.
  { repeat case_decide; try lia; [reflexivity |].
    now rewrite take_ge by lia. }
  rewrite Hsel. rsimpl. clear Hsel.
  set (raw' := take (height * (1 + row_size)) raw).
  assert (Hb' : bytes_ok raw') by (unfold bytes_ok in *; now apply Forall_take).
  assert (Hl' : (height * (1 + row_size) <= length raw')%nat).
  { subst raw'. rewrite length_take. lia. }
  match goal with
  | |- context [for_range height ?body ?s0] =>
      destruct (unfilter_rows_loop raw' height row_size bytes_per_pixel body
                  (fun _ _ _ _ => eq_refl) Hb' Hl' height 0%nat
                  (replicate (height * row_size) 0) (replicate row_size 0))
        as [Hgood Hbad]
  end.
  - reflexivity.
  - apply length_replicate.
  - apply Forall_replicate. unfold is_byte. lia.
  - apply length_replicate.
  - unfold for_range. change (0 * (1 + row_size))%nat with 0%nat in Hgood, Hbad.
    split.
    + intros Hall. destruct Hgood as (recon & prev_row & Hrun & Hlr & Hbr).
      { intros y Hy. subst raw'. rewrite row_tag_take by lia. apply Hall. lia. }
      rewrite Hrun. rsimpl. now exists recon.
    + intros y Hy Hbefore Hunknown.
      rewrite (Hbad y).
      * rsimpl. subst raw'. now rewrite row_tag_take.
      * lia.
      * intros y' Hy'. subst raw'. rewrite row_tag_take by lia. apply Hbefore. lia.
      * subst raw'. now rewrite row_tag_take.
Qed.

(** ** Whole images: filtering and unfiltering *)

Lemma filter_row_length (filter_type : Z) (bytes_per_pixel : nat) (prev_row row : list Z) :
  length (filter_row filter_type bytes_per_pixel prev_row row) = length row.
Proof. apply length_imap. Qed.

Lemma filter_image_length (bytes_per_pixel n : nat) (rows : list (Z * list Z)) :
  Forall (tagged_row_ok n) rows ->
  forall prev_row,
    length (filter_image bytes_per_pixel prev_row rows) = (length rows * (1 + n))%nat.
Proof.
  induction 1 as [|[t row] rows (_ & Hn & _) _ IH]; intros prev_row; [reflexivity |].
  cbn [filter_image length fst snd] in *.
  rewrite length_app, filter_row_length, IH, Hn. lia.
Qed.

(** The row loop on a filtered image, from row [i] on. *)
Lemma unfilter_image_loop (raw : list Z) (n bytes_per_pixel : nat)
    (body : nat -> list Z * list Z * nat -> result (list Z * list Z * nat)) :
  (forall y recon prev_row offset,
     body y (recon, prev_row, offset) =
       (filter_type ← getitem raw offset;
        curr ← unfilter_row filter_type n bytes_per_pixel prev_row
                 (slice raw (offset + 1) (offset + 1 + n));
        Ok (slice_assign recon (y * n) (y * n + n) curr, curr,
            (offset + 1 + n)%nat))) ->
  (1 <= bytes_per_pixel)%nat ->
  forall rows pre done_ prev_row i,
    raw = pre ++ filter_image bytes_per_pixel prev_row rows ->
    Forall (tagged_row_ok n) rows ->
    length prev_row = n -> length pre = (i * (1 + n))%nat ->
    length done_ = (i * n)%nat ->
    exists prev_row' offset',
      for_loop body i (length rows)
        (done_ ++ replicate (length rows * n) 0, prev_row, (i * (1 + n))%nat)
      = Ok (done_ ++ concat (map snd rows), prev_row', offset').
Proof.
  intros Hbody Hbpp. induction rows as [|[t row] rows IH];
    intros pre done_ prev_row i Hraw Hrows Hprev Hpre Hdone.
  - exists prev_row, (i * (1 + n))%nat. cbn. reflexivity.
  - apply Forall_cons in Hrows as [(Ht & Hn & Hb) Hrows]. cbn [fst snd] in Ht, Hn, Hb.
    cbn [filter_image] in Hraw.
    set (filt := filter_row t bytes_per_pixel prev_row row) in *.
    assert (Hfl : length filt = n) by (subst filt; now rewrite filter_row_length).
    assert (Htag : getitem raw (i * (1 + n)) = Ok t).
    { apply getitem_Ok. rewrite Hraw, lookup_app_r by lia.
      now rewrite Hpre, Nat.sub_diag. }
    assert (Hslice : slice raw (i * (1 + n) + 1) (i * (1 + n) + 1 + n) = filt).
    { unfold slice. rewrite Hraw.
      replace (i * (1 + n) + 1 + n - (i * (1 + n) + 1))%nat with n by lia.
      change (pre ++ t :: filt ++ filter_image bytes_per_pixel row rows)
        with (pre ++ [t] ++ filt ++ filter_image bytes_per_pixel row rows).
      rewrite app_assoc.
      rewrite drop_app_length' by (rewrite length_app; cbn; lia).
      now rewrite take_app_length' by lia. }
    assert (Hun : unfilter_row t n bytes_per_pixel prev_row filt = Ok row).
    { subst filt. rewrite <- Hn. apply unfilter_filter_row; auto; lia. }
    assert (Hassign : slice_assign (done_ ++ replicate (length ((t, row) :: rows) * n) 0)
                        (i * n) (i * n + n) row
                      = (done_ ++ row) ++ replicate (length rows * n) 0).
    { unfold slice_assign. cbn [length].
      rewrite take_app_length' by lia.
      replace (Nat.max (i * n) (i * n + n)) with (length done_ + n)%nat by lia.
      rewrite drop_app_ge by lia.
      replace (length done_ + n - length done_)%nat with n by lia.
      rewrite drop_replicate.
      replace (Datatypes.S (length rows) * n - n)%nat with (length rows * n)%nat by lia.
      now rewrite <- app_assoc. }
    cbn [length]. rewrite for_loop_S, Hbody, Htag. rsimpl.
    rewrite Hslice, Hun. rsimpl.
    cbn [length] in Hassign. rewrite Hassign.
    destruct (IH (pre ++ t :: filt) (done_ ++ row) row (Datatypes.S i))
      as (prev_row' & offset' & Hrun).
    + rewrite Hraw, <- app_assoc. reflexivity.
    + assumption.
    + assumption.
    + rewrite length_app. cbn [length]. lia.
    + rewrite length_app. lia.
    + exists prev_row', offset'.
      replace (i * (1 + n) + 1 + n)%nat with (Datatypes.S i * (1 + n))%nat by lia.
      rewrite Hrun. cbn [map concat snd]. now rewrite <- app_assoc.
Qed.

(** Unfiltering a filtered image gives its rows back. *)
Lemma unfilter_image_rows (n bytes_per_pixel : nat) (rows : list (Z * list Z)) :
  (1 <= bytes_per_pixel)%nat ->
  Forall (tagged_row_ok n) rows ->
  _unfilter_scanlines (filter_image bytes_per_pixel (replicate n 0) rows)
    (length rows) n bytes_per_pixel
  = Ok (concat (map snd rows)).
Proof.
  intros Hbpp Hrows. unfold _unfilter_scanlines.
  rewrite (filter_image_length bytes_per_pixel n rows Hrows).
  case_decide; [contradiction |]. rsimpl.
  match goal with
  | |- context [for_range _ ?body ?s0] =>
      destruct (unfilter_image_loop
                  (filter_image bytes_per_pixel (replicate n 0) rows)
                  n bytes_per_pixel body (fun _ _ _ _ => eq_refl) Hbpp
                  rows [] [] (replicate n 0) 0%nat)
        as (prev_row' & offset' & Hrun)
  end; try reflexivity; try assumption.
  - apply length_replicate.
  - unfold for_range. cbn [app Nat.mul] in Hrun. rewrite Hrun. reflexivity.
Qed.

(** ** Re-encoding with filter type 0 *)

Lemma concat_image_rows_take (b : list Z) (row_size : nat) (y : nat) :
  concat (image_rows b row_size y) = take (y * row_size) b.
Proof.
  unfold image_rows. induction y as [|y IH]; [now rewrite take_0 |].
  rewrite seq_S, map_app, concat_app, IH. cbn [map concat Nat.add].
  rewrite app_nil_r. unfold slice.
  replace (y * row_size + row_size - y * row_size)%nat with row_size by lia.
  rewrite take_take_drop. f_equal. lia.
Qed.

Lemma concat_image_rows (b : list Z) (row_size height : nat) :
  length b = (height * row_size)%nat -> concat (image_rows b row_size height) = b.
Proof. intros H. rewrite concat_image_rows_take. apply take_ge. lia. Qed.

Lemma image_rows_ok (b : list Z) (row_size height : nat) :
  bytes_ok b -> (height * row_size <= length b)%nat ->
  Forall (fun row => length row = row_size /\ bytes_ok row) (image_rows b row_size height).
Proof.
  intros Hb Hlen. unfold image_rows. apply Forall_forall. intros row Hrow.
  apply list_elem_of_fmap in Hrow as (y & -> & Hy%elem_of_seq).
  split; [| now apply slice_bytes].
  apply slice_length. pose proof (row_start_bound y height row_size ltac:(lia)). lia.
Qed.

Lemma filter_row_none (bytes_per_pixel : nat) (prev_row row : list Z) :
  bytes_ok row -> filter_row 0 bytes_per_pixel prev_row row = row.
Proof.
  intros Hb. unfold filter_row. apply list_eq. intros i.
  rewrite list_lookup_imap. destruct (row !! i) as [x |] eqn:Hx; [| reflexivity].
  cbn. f_equal. unfold filter_prediction.
  repeat (case_decide; [lia |]). rewrite Z.sub_0_r.
  apply Z.mod_small. exact (bytes_ok_lookup row i x Hb Hx).
Qed.

Lemma filter_image_none (bytes_per_pixel : nat) (rows : list (list Z)) :
  Forall bytes_ok rows ->
  forall prev_row,
    filter_image bytes_per_pixel prev_row (map (pair 0) rows) = rows_untouched rows.
Proof.
  induction 1 as [|row rows Hb _ IH]; intros prev_row; [reflexivity |].
  cbn [map filter_image rows_untouched flat_map].
  rewrite filter_row_none by assumption. cbn [app]. f_equal. f_equal. apply IH.
Qed.

Lemma rows_untouched_length (rows : list (list Z)) (row_size : nat) :
  Forall (fun row => length row = row_size) rows ->
  length (rows_untouched rows) = (length rows * (1 + row_size))%nat.
Proof.
  unfold rows_untouched. induction 1 as [|row rows Hn _ IH]; [reflexivity |].
  cbn [flat_map]. rewrite length_app, IH. cbn [length]. lia.
Qed.

(** [refilter_rows] writes every row of the pixel buffer with tag 0. *)
Lemma refilter_rows_spec (rgb_bytes : list Z) (width height : nat) :
  length rgb_bytes = (height * (width * 3))%nat ->
  refilter_rows rgb_bytes width height
  = Ok (rows_untouched (image_rows rgb_bytes (width * 3) height)).
Proof.
  intros Hlen. unfold refilter_rows.
  set (rs := (width * 3)%nat) in *.
  assert (Hdone : forall y, (y <= height)%nat ->
            length (rows_untouched (image_rows rgb_bytes rs y)) = (y * (1 + rs))%nat).
  { intros y Hy.
    rewrite (rows_untouched_length _ rs).
    - unfold image_rows. now rewrite length_map, length_seq.
    - unfold image_rows. apply Forall_forall. intros row Hrow.
      apply list_elem_of_fmap in Hrow as (y' & -> & Hy'%elem_of_seq).
      apply slice_length. pose proof (row_start_bound y' height rs ltac:(lia)). lia. }
  match goal with
  | |- (for_range height ?body ?s0 ≫= _) = _ =>
      destruct (for_range_invariant
                  (fun y st => (y <= height)%nat /\
                     st = (rows_untouched (image_rows rgb_bytes rs y)
                             ++ replicate ((height - y) * (1 + rs)) 0,
                           (y * (1 + rs))%nat))
                  body height s0) as (st & Hrun & _ & ->)
  end.
  - split; [lia |]. cbn [image_rows seq map rows_untouched flat_map app Nat.mul].
    now rewrite Nat.sub_0_r.
  - intros y st Hy [_ ->]. cbv beta iota.
    pose proof (Hdone y ltac:(lia)) as Hd.
    set (done_ := rows_untouched (image_rows rgb_bytes rs y)) in *.
    replace (height - y)%nat with (Datatypes.S (height - Datatypes.S y)) by lia.
    rewrite Nat.mul_succ_l.
    replace ((height - Datatypes.S y) * (1 + rs) + (1 + rs))%nat
      with (Datatypes.S (rs + (height - Datatypes.S y) * (1 + rs))) by lia.
    cbn [replicate].
    rewrite setitem_Ok;
      [| rewrite length_app; cbn [length]; lia | unfold is_byte; lia].
    rsimpl.
    rewrite insert_app_r_alt by lia. rewrite Hd, Nat.sub_diag. cbn [insert list_insert].
    set (row := slice rgb_bytes (y * rs) (y * rs + rs)).
    assert (Hrow : length row = rs).
    { subst row. apply slice_length.
      pose proof (row_start_bound y height rs Hy). lia. }
    eexists. split; [reflexivity |]. split; [lia |]. f_equal; [| lia].
    unfold slice_assign.
    change (done_ ++ 0 :: replicate (rs + (height - Datatypes.S y) * (1 + rs)) 0)
      with (done_ ++ [0] ++ replicate (rs + (height - Datatypes.S y) * (1 + rs)) 0).
    rewrite !(app_assoc done_ [0%Z]).
    rewrite take_app_length' by (rewrite length_app; cbn [length]; lia).
    replace (Nat.max (y * (1 + rs) + 1) (y * (1 + rs) + 1 + rs))
      with (length (done_ ++ [0%Z]) + rs)%nat
      by (rewrite length_app; cbn [length]; lia).
    rewrite drop_app_ge by lia.
    replace (length (done_ ++ [0%Z]) + rs - length (done_ ++ [0%Z]))%nat with rs by lia.
    rewrite drop_replicate.
    rewrite (Nat.add_comm rs), Nat.add_sub.
    unfold image_rows. rewrite seq_S, map_app. cbn [map Nat.add].
    unfold rows_untouched. rewrite flat_map_app. cbn [flat_map].
    rewrite app_nil_r, <- !app_assoc. reflexivity.
  - rewrite Hrun. rsimpl. rewrite Nat.sub_diag. cbn [Nat.mul replicate].
    now rewrite app_nil_r.
Qed.

(** Unfiltering rows that were written with tag 0 gives the buffer back. *)
Lemma unfilter_rows_untouched (b : list Z) (row_size height bytes_per_pixel : nat) :
  (1 <= bytes_per_pixel)%nat -> bytes_ok b -> length b = (height * row_size)%nat ->
  _unfilter_scanlines (rows_untouched (image_rows b row_size height))
    height row_size bytes_per_pixel
  = Ok b.
Proof.
  intros Hbpp Hb Hlen.
  pose proof (image_rows_ok b row_size height Hb ltac:(lia)) as Hrows.
  rewrite <- (filter_image_none bytes_per_pixel _
                (Forall_impl _ _ _ Hrows (fun _ H => proj2 H)) (replicate row_size 0)).
  replace height with (length (map (pair 0) (image_rows b row_size height))) at 2
    by (unfold image_rows; now rewrite !length_map, length_seq).
  rewrite unfilter_image_rows.
  - rewrite map_map. cbn [snd]. rewrite map_id. now rewrite concat_image_rows.
  - assumption.
  - apply Forall_fmap. eapply Forall_impl; [exact Hrows |].
    intros row [Hn Hrb]. unfold compose, tagged_row_ok, known_tag. cbn [fst snd].
    split; [lia | split; assumption].
Qed.

(** X1.  What [_unfilter_scanlines] does on any buffer of bytes: a buffer
    shorter than [height * (1 + row_size)] is a format error; otherwise, if
    every row carries a filter tag from 0 to 4, it returns
    [height * row_size] bytes, and if not, it raises the format error that
    names the tag of the first row whose tag is unknown.  It never fails on
    an index or on a byte store. *)
Theorem unfilter_scanlines_outcome (raw : list Z) (height row_size bytes_per_pixel : nat) :
  bytes_ok raw ->
  ((length raw < height * (1 + row_size))%nat ->
   _unfilter_scanlines raw height row_size bytes_per_pixel
   = Raise (PNGFormatError
              (IDATSizeUnexpected (length raw) (height * (1 + row_size)))))
  /\ ((height * (1 + row_size) <= length raw)%nat ->
      (forall y, (y < height)%nat -> known_tag (row_tag raw row_size y)) ->
      exists recon,
        _unfilter_scanlines raw height row_size bytes_per_pixel = Ok recon
        /\ length recon = (height * row_size)%nat /\ bytes_ok recon)
  /\ ((height * (1 + row_size) <= length raw)%nat ->
      forall y, (y < height)%nat ->
        (forall y', (y' < y)%nat -> known_tag (row_tag raw row_size y')) ->
        ~ known_tag (row_tag raw row_size y) ->
        _unfilter_scanlines raw height row_size bytes_per_pixel
        = Raise (PNGFormatError (UnsupportedFilterType (row_tag raw row_size y)))).
Proof.
  intros Hb. split; [| split].
  - intros Hshort. unfold _unfilter_scanlines.
    case_decide; [| lia]. case_decide; [reflexivity | lia].
  - intros Hlen. apply (unfilter_scanlines_cases raw height row_size bytes_per_pixel Hb Hlen).
  - intros Hlen. apply (unfilter_scanlines_cases raw height row_size bytes_per_pixel Hb Hlen).
Qed.

(** Two rows of two bytes: the second carries the unknown tag 7. *)
Lemma unfilter_scanlines_outcome_witness :
  _unfilter_scanlines [1; 10; 20; 7; 1; 1] 3 2 1
  = Raise (PNGFormatError (IDATSizeUnexpected 6 9))
  /\ (exists recon, _unfilter_scanlines [1; 10; 20; 7; 1; 1] 1 2 1 = Ok recon
                    /\ length recon = 2%nat /\ bytes_ok recon)
  /\ _unfilter_scanlines [1; 10; 20; 7; 1; 1] 2 2 1
     = Raise (PNGFormatError (UnsupportedFilterType 7)).
Proof.
  assert (Hb : bytes_ok [1; 10; 20; 7; 1; 1])
    by (apply bytes_ok_forallb; reflexivity).
  split; [| split].
  - destruct (unfilter_scanlines_outcome [1; 10; 20; 7; 1; 1] 3 2 1 Hb) as (Hshort & _ & _).
    apply Hshort. cbn. lia.
  - destruct (unfilter_scanlines_outcome [1; 10; 20; 7; 1; 1] 1 2 1 Hb) as (_ & Hgood & _).
    apply Hgood; [cbn; lia |].
    intros y Hy. replace y with 0%nat by lia. unfold known_tag. cbn. lia.
  - destruct (unfilter_scanlines_outcome [1; 10; 20; 7; 1; 1] 2 2 1 Hb) as (_ & _ & Hbad).
    apply (Hbad ltac:(cbn; lia) 1%nat).
    + lia.
    + intros y' Hy'. replace y' with 0%nat by lia. unfold known_tag. cbn. lia.
    + unfold known_tag. cbn. lia.
Defined.

(** X2.  Unfiltering undoes filtering on whole images: for rows of [n]
    bytes each, every row filtered with a type of its own (0 to 4) against
    the row above it, the filtered buffer has [1 + n] bytes per row and
    [_unfilter_scanlines] returns the rows, concatenated. *)
Theorem unfilter_filter_image (n bytes_per_pixel : nat) (rows : list (Z * list Z)) :
  (1 <= bytes_per_pixel)%nat ->
  Forall (tagged_row_ok n) rows ->
  length (filter_image bytes_per_pixel (replicate n 0) rows) = (length rows * (1 + n))%nat
  /\ _unfilter_scanlines (filter_image bytes_per_pixel (replicate n 0) rows)
       (length rows) n bytes_per_pixel
     = Ok (concat (map snd rows)).
Proof.
  intros Hbpp Hrows. split.
  - now apply filter_image_length.
  - now apply unfilter_image_rows.
Qed.

(** Three rows of an RGB image two pixels wide, filtered with Paeth,
    Average and Up. *)
Lemma unfilter_filter_image_witness :
  let rows := [(4, [10; 20; 30; 250; 0; 7]);
               (3, [1; 2; 3; 4; 5; 6]);
               (2, [255; 254; 253; 0; 1; 2])] in
  length (filter_image 3 (replicate 6 0) rows) = 21%nat
  /\ _unfilter_scanlines (filter_image 3 (replicate 6 0) rows) 3 6 3
     = Ok [10; 20; 30; 250; 0; 7; 1; 2; 3; 4; 5; 6; 255; 254; 253; 0; 1; 2].
Proof.
  cbv zeta.
  apply (unfilter_filter_image 6 3
           [(4, [10; 20; 30; 250; 0; 7]); (3, [1; 2; 3; 4; 5; 6]);
            (2, [255; 254; 253; 0; 1; 2])]).
  - lia.
  - repeat constructor; cbn; unfold is_byte; lia.
Defined.

Lemma row_tag_rows_untouched (b : list Z) (row_size height y : nat) :
  (y < height)%nat -> (height * row_size <= length b)%nat ->
  row_tag (rows_untouched (image_rows b row_size height)) row_size y = 0.
Proof.
  intros Hy Hlen. unfold row_tag, image_rows.
  replace height with (y + Datatypes.S (height - Datatypes.S y))%nat by lia.
  rewrite seq_app, map_app. cbn [seq map Nat.add].
  unfold rows_untouched. rewrite flat_map_app. cbn [flat_map app].
  rewrite list_lookup_total_alt.
  rewrite list_lookup_middle; [reflexivity |].
  fold (rows_untouched (map (fun y => slice b (y * row_size) (y * row_size + row_size))
                            (seq 0 y))).
  rewrite (rows_untouched_length _ row_size).
  - now rewrite length_map, length_seq.
  - apply Forall_forall. intros row Hrow.
    apply list_elem_of_fmap in Hrow as (y' & -> & Hy'%elem_of_seq).
    apply slice_length. pose proof (row_start_bound y' height row_size ltac:(lia)). lia.
Qed.

(** X3.  The re-encoding is lossless.  For a pixel buffer of [height] rows
    of [width] RGB pixels, [refilter_rows] returns [height] rows of
    [1 + 3 * width] bytes, each tagged with filter type 0, and
    [_unfilter_scanlines] reads the pixel buffer back from them. *)
Theorem refilter_unfilter_round_trip (rgb_bytes : list Z) (width height : nat) :
  bytes_ok rgb_bytes -> length rgb_bytes = (height * (width * 3))%nat ->
  exists out_raw,
    refilter_rows rgb_bytes width height = Ok out_raw
    /\ length out_raw = (height * (1 + width * 3))%nat
    /\ (forall y, (y < height)%nat -> row_tag out_raw (width * 3) y = 0)
    /\ _unfilter_scanlines out_raw height (width * 3) 3 = Ok rgb_bytes.
Proof.
  intros Hb Hlen. exists (rows_untouched (image_rows rgb_bytes (width * 3) height)).
  split; [now apply refilter_rows_spec |].
  split.
  { rewrite (rows_untouched_length _ (width * 3)).
    - unfold image_rows. now rewrite length_map, length_seq.
    - eapply Forall_impl; [apply (image_rows_ok rgb_bytes (width * 3) height Hb); lia |].
      now intros row [? _]. }
  split.
  { intros y Hy. apply row_tag_rows_untouched; [assumption | lia]. }
  apply unfilter_rows_untouched; [lia | assumption | assumption].
Qed.

Lemma refilter_unfilter_round_trip_witness :
  exists out_raw,
    refilter_rows [1; 2; 3; 4; 5; 6; 7; 8; 9; 10; 11; 12] 2 2 = Ok out_raw
    /\ length out_raw = (2 * (1 + 2 * 3))%nat
    /\ (forall y, (y < 2)%nat -> row_tag out_raw (2 * 3) y = 0)
    /\ _unfilter_scanlines out_raw 2 (2 * 3) 3
       = Ok [1; 2; 3; 4; 5; 6; 7; 8; 9; 10; 11; 12].
Proof.
  apply (refilter_unfilter_round_trip [1; 2; 3; 4; 5; 6; 7; 8; 9; 10; 11; 12] 2 2).
  - apply bytes_ok_forallb. reflexivity.
  - reflexivity.
Defined.

(** ** Truecolour with alpha, pixel by pixel *)

Lemma flattened_pixel_cons4 (r g b a : Z) (rest : list Z) (k : nat) :
  flattened_pixel (r :: g :: b :: a :: rest) (Datatypes.S k) = flattened_pixel rest k.
Proof.
  unfold flattened_pixel.
  replace (4 * Datatypes.S k)%nat with (Datatypes.S (Datatypes.S (Datatypes.S (Datatypes.S (4 * k))))) by lia.
  reflexivity.
Qed.

Lemma flattened_pixels_cons4 (r g b a : Z) (rest : list Z) :
  flattened_pixels (r :: g :: b :: a :: rest)
  = pixel_over_white (r, g, b, a) ++ flattened_pixels rest.
Proof.
  unfold flattened_pixels. cbn [length].
  replace (Datatypes.S (Datatypes.S (Datatypes.S (Datatypes.S (length rest)))) / 4)%nat
    with (Datatypes.S (length rest / 4)).
  2:{ change (Datatypes.S (Datatypes.S (Datatypes.S (Datatypes.S (length rest)))))
        with (4 + length rest)%nat.
      replace (4 + length rest)%nat with (1 * 4 + length rest)%nat by lia.
      rewrite Nat.div_add_l by lia. reflexivity. }
  cbn [seq flat_map]. f_equal.
  rewrite <- seq_shift, flat_map_concat_map, map_map, <- flat_map_concat_map.
  apply flat_map_ext. intros k. apply flattened_pixel_cons4.
Qed.

Lemma flattened_pixels_rgba_of (px : list (Z * Z * Z * Z)) :
  flattened_pixels (rgba_of px) = flat_map pixel_over_white px.
Proof.
  induction px as [|[[[r g] b] a] px IH]; [reflexivity |].
  cbn [rgba_of flat_map app]. fold (rgba_of px).
  rewrite flattened_pixels_cons4, IH. reflexivity.
Qed.

Lemma rgba_of_length (px : list (Z * Z * Z * Z)) : length (rgba_of px) = (4 * length px)%nat.
Proof.
  induction px as [|[[[r g] b] a] px IH]; [reflexivity |].
  cbn [rgba_of flat_map app length]. fold (rgba_of px). rewrite IH. lia.
Qed.

Lemma rgba_of_bytes (px : list (Z * Z * Z * Z)) : Forall pixel_ok px -> bytes_ok (rgba_of px).
Proof.
  induction 1 as [|[[[r g] b] a] px (Hr & Hg & Hb & Ha) _ IH]; [constructor |].
  cbn [rgba_of flat_map app]. repeat (constructor; [assumption |]). exact IH.
Qed.

(** X4.  [_flatten_rgba_over_white] works pixel by pixel: each pixel
    (r, g, b, a) of bytes becomes the three bytes of r, g and b composited
    over white with alpha a.  So opaque pixels keep their colour exactly,
    fully transparent pixels become white, and the output has three bytes
    per pixel. *)
Theorem flatten_rgba_pixels (px : list (Z * Z * Z * Z)) :
  Forall pixel_ok px ->
  _flatten_rgba_over_white (rgba_of px) = Ok (flat_map pixel_over_white px)
  /\ length (flat_map pixel_over_white px) = (3 * length px)%nat
  /\ (Forall (fun p => p.2 = 255) px ->
      _flatten_rgba_over_white (rgba_of px)
      = Ok (flat_map (fun p => [p.1.1.1; p.1.1.2; p.1.2]) px))
  /\ (Forall (fun p => p.2 = 0) px ->
      _flatten_rgba_over_white (rgba_of px) = Ok (replicate (3 * length px) 255)).
Proof.
  intros Hpx.
  assert (Hrun : _flatten_rgba_over_white (rgba_of px) = Ok (flat_map pixel_over_white px)).
  { rewrite flatten_rgba_spec.
    - now rewrite flattened_pixels_rgba_of.
    - now apply rgba_of_bytes.
    - rewrite rgba_of_length. now rewrite Nat.mul_comm, Nat.Div0.mod_mul. }
  split; [exact Hrun |]. split; [| split].
  - clear. induction px as [|[[[r g] b] a] px IH]; [reflexivity |].
    cbn [flat_map length app pixel_over_white]. rewrite IH. lia.
  - intros Hop. rewrite Hrun. f_equal. clear Hrun Hpx.
    induction Hop as [|[[[r g] b] a] px Ha _ IH]; [reflexivity |].
    cbn [snd] in Ha. subst a. cbn [flat_map pixel_over_white fst snd].
    rewrite !over_white_opaque, IH. reflexivity.
  - intros Htr. rewrite Hrun. f_equal. clear Hrun Hpx.
    induction Htr as [|[[[r g] b] a] px Ha _ IH]; [reflexivity |].
    cbn [snd] in Ha. subst a. cbn [flat_map pixel_over_white length].
    rewrite !over_white_transparent, IH.
    replace (3 * Datatypes.S (length px))%nat with (3 + 3 * length px)%nat by lia.
    reflexivity.
Qed.

Lemma flatten_rgba_pixels_witness :
  let px := [(200, 100, 50, 255); (1, 2, 3, 255)] in
  _flatten_rgba_over_white (rgba_of px) = Ok (flat_map pixel_over_white px)
  /\ length (flat_map pixel_over_white px) = (3 * length px)%nat
  /\ _flatten_rgba_over_white (rgba_of px) = Ok [200; 100; 50; 1; 2; 3]
  /\ _flatten_rgba_over_white (rgba_of [(200, 100, 50, 0)]) = Ok [255; 255; 255].
Proof.
  cbv zeta.
  destruct (flatten_rgba_pixels [(200, 100, 50, 255); (1, 2, 3, 255)])
    as (Hrun & Hlen & Hopaque & _).
  { repeat constructor; unfold is_byte; lia. }
  destruct (flatten_rgba_pixels [(200, 100, 50, 0)]) as (_ & _ & _ & Hclear).
  { repeat constructor; unfold is_byte; lia. }
  split; [exact Hrun |]. split; [exact Hlen |].
  split; [apply Hopaque; repeat constructor | apply Hclear; repeat constructor].
Defined.

(** ** Indexed colour with eight bits per pixel *)

Lemma packed_index_8 (row : list Z) (x : nat) :
  bytes_ok row -> (x < length row)%nat -> packed_index 8 row x = row !!! x.
Proof.
  intros Hb Hx. unfold packed_index. cbv zeta.
  change (Z.to_nat (8 / 8)) with 1%nat. rewrite Nat.mod_1_r, Nat.div_1_r.
  change (2 ^ (8 - 8 * (Z.of_nat 0 + 1))) with 1. rewrite Z.div_1_r.
  apply Z.mod_small.
  pose proof (bytes_ok_total row x Hb Hx) as Hbyte. unfold is_byte in Hbyte. lia.
Qed.

Lemma map_lookup_total_seq (l : list Z) :
  map (fun x => l !!! x) (seq 0 (length l)) = l.
Proof.
  apply list_eq. intros i. rewrite list_lookup_fmap.
  destruct (decide (i < length l)%nat) as [Hi | Hi].
  - rewrite lookup_seq_lt by assumption. cbn.
    symmetry. now apply lookup_total_Some.
  - rewrite lookup_seq_ge by lia. cbn. symmetry. apply lookup_ge_None_2. lia.
Qed.

Lemma flat_map_over_row {B} (g : Z -> list B) (row : list Z) :
  bytes_ok row ->
  flat_map (fun x => g (packed_index 8 row x)) (seq 0 (length row)) = flat_map g row.
Proof.
  intros Hb.
  transitivity (flat_map g (map (fun x => row !!! x) (seq 0 (length row)))).
  - rewrite !flat_map_concat_map, map_map. f_equal.
    apply map_ext_in. intros x Hx%in_seq. f_equal.
    apply packed_index_8; [assumption | lia].
  - now rewrite map_lookup_total_seq.
Qed.

Lemma flat_map_of_concat {A B} (g : A -> list B) (L : list (list A)) :
  flat_map g (concat L) = flat_map (flat_map g) L.
Proof.
  induction L as [|l L IH]; [reflexivity |].
  cbn [concat flat_map]. now rewrite flat_map_app, IH.
Qed.

(** With one byte per pixel, the expansion is a map over the index bytes. *)
Lemma expanded_pixels_8bit (width height : nat) (plte_ : list Z)
    (trns_ : option (list Z)) (recon : list Z) :
  bytes_ok recon -> length recon = (height * width)%nat ->
  expanded_pixels 8 width height width plte_ trns_ recon
  = flat_map (fun idx => triple_bytes (indexed_pixel plte_ trns_ idx)) recon.
Proof.
  intros Hb Hlen. unfold expanded_pixels.
  set (g := fun idx => triple_bytes (indexed_pixel plte_ trns_ idx)).
  transitivity (flat_map g (concat (image_rows recon width height)));
    [| now rewrite concat_image_rows].
  rewrite flat_map_of_concat. unfold image_rows.
  rewrite (flat_map_concat_map (flat_map g)), map_map, flat_map_concat_map. f_equal.
  apply map_ext_in. intros y Hy%in_seq. cbv zeta.
  replace ((y + 1) * width)%nat with (y * width + width)%nat by lia.
  set (row := slice recon (y * width) (y * width + width)).
  assert (Hrow : length row = width).
  { subst row. apply slice_length.
    pose proof (row_start_bound y height width ltac:(lia)). lia. }
  rewrite <- Hrow at 1.
  apply (flat_map_over_row g row). subst row. now apply slice_bytes.
Qed.

(** X5.  With eight bits per pixel, [expand_indexed] turns every index byte
    of the buffer, in order, into three bytes: black for an index past the
    end of the palette; the palette colour itself where the transparency
    table is absent or too short to reach the index; white where the table
    gives alpha 0; and the palette colour over white otherwise. *)
Theorem expand_indexed_8bit (width height : nat) (plte_ : list Z)
    (trns_ : option (list Z)) (recon : list Z) :
  bytes_ok plte_ -> (length plte_ mod 3 = 0)%nat ->
  (forall t, trns_ = Some t -> bytes_ok t) ->
  bytes_ok recon -> length recon = (height * width)%nat ->
  expand_indexed 8 width height width (Some plte_) trns_ recon
  = Ok (flat_map (fun idx => triple_bytes (indexed_pixel plte_ trns_ idx)) recon)
  /\ forall idx, 0 <= idx ->
       (Z.of_nat (length plte_ / 3) <= idx -> indexed_pixel plte_ trns_ idx = (0, 0, 0))
       /\ (idx < Z.of_nat (length plte_ / 3) ->
           (forall t, trns_ = Some t -> (length t <= Z.to_nat idx)%nat) ->
           indexed_pixel plte_ trns_ idx
           = (plte_ !!! (3 * Z.to_nat idx)%nat,
              plte_ !!! (3 * Z.to_nat idx + 1)%nat,
              plte_ !!! (3 * Z.to_nat idx + 2)%nat))
       /\ (idx < Z.of_nat (length plte_ / 3) ->
           (exists t, trns_ = Some t /\ t !! Z.to_nat idx = Some 0) ->
           indexed_pixel plte_ trns_ idx = (255, 255, 255)).
Proof.
  intros Hplte Hmod Htrns Hrecon Hlen. split.
  - rewrite expand_indexed_spec; auto; try lia.
    f_equal. now apply expanded_pixels_8bit.
  - intros idx Hidx. unfold indexed_pixel. split; [| split].
    + intros Hge. case_decide; [| lia]. now rewrite over_white_opaque.
    + intros Hlt Hshort. case_decide; [lia |]. cbv zeta.
      assert (Ha : alpha_of trns_ (Z.to_nat idx) = 255).
      { unfold alpha_of. destruct trns_ as [t |]; [| reflexivity].
        now rewrite lookup_ge_None_2 by (apply Hshort; reflexivity). }
      rewrite Ha, !over_white_opaque. reflexivity.
    + intros Hlt (t & -> & Ht). case_decide; [lia |]. cbv zeta.
      assert (Ha : alpha_of (Some t) (Z.to_nat idx) = 0).
      { unfold alpha_of. now rewrite Ht. }
      rewrite Ha, !over_white_transparent. reflexivity.
Qed.

(** A palette of red, green and blue, with a transparency table of one
    entry: index 0 is transparent, 1 and 2 are past the table, 9 is past
    the palette. *)
Lemma expand_indexed_8bit_witness :
  expand_indexed 8 2 2 2 (Some [255; 0; 0; 0; 255; 0; 0; 0; 255]) (Some [0]) [0; 1; 2; 9]
  = Ok [255; 255; 255; 0; 255; 0; 0; 0; 255; 0; 0; 0]
  /\ indexed_pixel [255; 0; 0; 0; 255; 0; 0; 0; 255] (Some [0]) 9 = (0, 0, 0)
  /\ indexed_pixel [255; 0; 0; 0; 255; 0; 0; 0; 255] (Some [0]) 2 = (0, 0, 255)
  /\ indexed_pixel [255; 0; 0; 0; 255; 0; 0; 0; 255] (Some [0]) 0 = (255, 255, 255).
Proof.
  destruct (expand_indexed_8bit 2 2 [255; 0; 0; 0; 255; 0; 0; 0; 255] (Some [0]) [0; 1; 2; 9])
    as [Hrun Hpx].
  - apply bytes_ok_forallb. reflexivity.
  - reflexivity.
  - intros t [= <-]. apply bytes_ok_forallb. reflexivity.
  - apply bytes_ok_forallb. reflexivity.
  - reflexivity.
  - split; [exact Hrun |].
    split; [apply (Hpx 9); cbn; lia |].
    split.
    + apply (Hpx 2); [lia | cbn; lia |]. intros t [= <-]. cbn. lia.
    + apply (Hpx 0); [lia | cbn; lia |]. exists [0]. now split.
Defined.

(** ** When the transformation succeeds *)

Lemma flattened_pixels_length (b : list Z) :
  length (flattened_pixels b) = (3 * (length b / 4))%nat.
Proof.
  unfold flattened_pixels. generalize (length b / 4)%nat as n. intros n.
  induction n as [|n IH]; [reflexivity |].
  rewrite seq_S, flat_map_app, length_app, IH. cbn. lia.
Qed.

Lemma flattened_pixels_bytes (b : list Z) :
  bytes_ok b -> bytes_ok (flattened_pixels b).
Proof.
  intros Hb. unfold flattened_pixels.
  pose proof (Nat.div_mod (length b) 4 ltac:(lia)) as Hdm.
  assert (H : forall n, (4 * n <= length b)%nat ->
            bytes_ok (flat_map (flattened_pixel b) (seq 0 n))).
  { induction n as [|n IH]; intros Hn; [constructor |].
    rewrite seq_S, flat_map_app. cbn [flat_map Nat.add]. rewrite app_nil_r.
    unfold bytes_ok in *. apply Forall_app. split; [apply IH; lia |].
    apply flattened_pixel_bytes; [assumption | lia]. }
  apply H. lia.
Qed.

Lemma expanded_pixels_length (bit_depth : Z) (width height scanline_len : nat)
    (plte_ : list Z) (trns_ : option (list Z)) (recon : list Z) :
  length (expanded_pixels bit_depth width height scanline_len plte_ trns_ recon)
  = (3 * (width * height))%nat.
Proof. apply expanded_row_length. Qed.

Lemma indexed_bytes_flat_map (plte_ : list Z) (trns_ : option (list Z)) (recon : list Z) :
  bytes_ok plte_ -> (length plte_ mod 3 = 0)%nat ->
  (forall t, trns_ = Some t -> bytes_ok t) -> bytes_ok recon ->
  bytes_ok (flat_map (fun idx => triple_bytes (indexed_pixel plte_ trns_ idx)) recon).
Proof.
  intros Hp Hmod Ht Hr. induction Hr as [|idx recon Hidx _ IH]; [constructor |].
  cbn [flat_map]. unfold bytes_ok in *. apply Forall_app. split; [| exact IH].
  apply indexed_pixel_bytes; auto. unfold is_byte in Hidx. lia.
Qed.

(** Every row has a known tag, or there is a first row that has not. *)
Lemma tags_known_or_first_unknown (raw : list Z) (row_size height : nat) :
  (forall y, (y < height)%nat -> known_tag (row_tag raw row_size y))
  \/ exists y, (y < height)%nat
       /\ (forall y', (y' < y)%nat -> known_tag (row_tag raw row_size y'))
       /\ ~ known_tag (row_tag raw row_size y).
Proof.
  induction height as [|h [IH | (y & Hy & Hbefore & Hbad)]].
  - left. intros y Hy. lia.
  - destruct (decide (0 <= row_tag raw row_size h <= 4)) as [Hk | Hk].
    + left. intros y Hy. destruct (decide (y = h)) as [-> | ?]; [exact Hk | apply IH; lia].
    + right. exists h. split; [lia |]. split; [| exact Hk].
      intros y' Hy'. now apply IH.
  - right. exists y. split; [lia |]. split; assumption.
Qed.

Lemma to_nat_row_bytes (width : Z) (c : Z) :
  0 <= width -> 0 < c -> Z.to_nat (width * c) = (Z.to_nat width * Z.to_nat c)%nat.
Proof. intros Hw Hc. apply Z2Nat.inj_mul; lia. Qed.

Lemma indexed_row_bytes (width : Z) :
  0 <= width -> Z.to_nat ((width * 8 + 7) / 8) = (Z.to_nat width * 1)%nat.
Proof.
  intros Hw. replace ((width * 8 + 7) / 8) with width; [lia |].
  apply Z.div_unique with 7; lia.
Qed.

Lemma flat_map_triple_bytes_length (f : Z -> Z * Z * Z) (l : list Z) :
  length (flat_map (fun idx => triple_bytes (f idx)) l) = (3 * length l)%nat.
Proof.
  induction l as [|x l IH]; [reflexivity |].
  cbn [flat_map length]. rewrite length_app, IH. cbn. lia.
Qed.

(** The layout the tool computes is [channels] bytes per pixel. *)
Lemma layout_cases (hdr : ihdr) :
  0 <= ihdr_width hdr -> ihdr_bit_depth hdr = 8 ->
  (ihdr_color_type hdr = 6 \/ ihdr_color_type hdr = 2 \/ ihdr_color_type hdr = 3) ->
  exists bpp scanline_len,
    (if decide (ihdr_color_type hdr = 6) then Ok (4, ihdr_width hdr * 4)
     else if decide (ihdr_color_type hdr = 2) then Ok (3, ihdr_width hdr * 3)
     else if decide (ihdr_color_type hdr = 3) then
       Ok (Z.max 1 ((ihdr_bit_depth hdr + 7) / 8),
           (ihdr_width hdr * ihdr_bit_depth hdr + 7) / 8)
     else Raise (PNGFormatError (UnsupportedColorType (ihdr_color_type hdr))))
    = Ok (bpp, scanline_len)
    /\ Z.to_nat bpp = channels (ihdr_color_type hdr)
    /\ Z.to_nat scanline_len
       = (Z.to_nat (ihdr_width hdr) * channels (ihdr_color_type hdr))%nat.
Proof.
  intros Hw Hbd Hct. unfold channels. rewrite Hbd.
  destruct Hct as [-> | [-> | ->]]; repeat (case_decide; try lia);
    eexists _, _; (split; [reflexivity |]); split; try reflexivity.
  - now rewrite to_nat_row_bytes by lia.
  - now rewrite to_nat_row_bytes by lia.
  - now apply indexed_row_bytes.
Qed.

(** From the reconstructed rows on: the pixel buffer, and the re-encoding. *)
Lemma pixels_and_refilter (hdr : ihdr) (st : chunks) (recon : list Z) :
  let width := Z.to_nat (ihdr_width hdr) in
  let height := Z.to_nat (ihdr_height hdr) in
  let color_type := ihdr_color_type hdr in
  ihdr_bit_depth hdr = 8 -> tables_ok st ->
  (color_type = 6 \/ color_type = 2 \/ color_type = 3) ->
  (color_type = 3 -> exists p, plte st = Some p /\ (length p mod 3 = 0)%nat) ->
  bytes_ok recon -> length recon = (height * (width * channels color_type))%nat ->
  (rgb_bytes ←
     (if decide (color_type = 6) then _flatten_rgba_over_white recon
      else if decide (color_type = 2) then Ok recon
      else expand_indexed (ihdr_bit_depth hdr) width height
             (width * channels color_type) (plte st) (trns st) recon);
   refilter_rows rgb_bytes width height)
  = Ok (rows_untouched (image_rows (rgb_pixels hdr st recon) (width * 3) height)).
Proof.
  cbv zeta. intros Hbd (_ & Hplte & Htrns) Hct Hpal Hb Hlen.
  unfold rgb_pixels, channels in *. rewrite Hbd.
  set (w := Z.to_nat (ihdr_width hdr)) in *.
  set (h := Z.to_nat (ihdr_height hdr)) in *.
  destruct Hct as [Hct | [Hct | Hct]]; rewrite Hct in *;
    repeat match goal with
           | H : context [decide (@eq Z ?a ?b)] |- _ => destruct (decide (a = b)); try lia
           | |- context [decide (@eq Z ?a ?b)] => destruct (decide (a = b)); try lia
           end.
  - (* truecolour with alpha *)
    rewrite flatten_rgba_spec; [| assumption |].
    2:{ rewrite Hlen. replace (h * (w * 4))%nat with ((h * w) * 4)%nat by lia.
        apply Nat.Div0.mod_mul. }
    rsimpl. apply refilter_rows_spec.
    rewrite flattened_pixels_length, Hlen.
    replace (h * (w * 4))%nat with ((h * w) * 4)%nat by lia.
    rewrite Nat.div_mul by lia. lia.
  - (* truecolour *)
    rsimpl. now apply refilter_rows_spec.
  - (* indexed colour *)
    destruct (Hpal eq_refl) as (p & Hp & Hmod). rewrite Hp. cbn [default].
    rewrite Nat.mul_1_r in *.
    rewrite expand_indexed_spec; auto; try lia.
    rsimpl. rewrite expanded_pixels_8bit by assumption.
    apply refilter_rows_spec.
    rewrite flat_map_triple_bytes_length. lia.
Qed.

Lemma concat_bytes (parts : list (list Z)) :
  Forall bytes_ok parts -> bytes_ok (concat parts).
Proof.
  unfold bytes_ok. induction 1 as [|part parts Hpart _ IH]; cbn [concat].
  - constructor.
  - now apply Forall_app.
Qed.

(** An acceptable input is transformed: the output pixel data is the RGB
    pixel buffer, written with filter type 0 and compressed. *)
Lemma transform_accepted_raw (z : zlib) (hdr : ihdr) (st : chunks) (raw : list Z) :
  0 <= ihdr_width hdr -> 0 <= ihdr_height hdr -> ihdr_bit_depth hdr = 8 ->
  bytes_ok raw -> tables_ok st ->
  acceptable z hdr st raw ->
  exists recon,
    _unfilter_scanlines raw (Z.to_nat (ihdr_height hdr))
      (Z.to_nat (ihdr_width hdr) * channels (ihdr_color_type hdr))
      (channels (ihdr_color_type hdr)) = Ok recon
    /\ bytes_ok recon
    /\ length recon = (Z.to_nat (ihdr_height hdr)
                       * (Z.to_nat (ihdr_width hdr) * channels (ihdr_color_type hdr)))%nat
    /\ transform z hdr st
       = Ok (Flattened (ihdr_width hdr) (ihdr_height hdr) (ancillary_chunks st)
               (zlib_compress z
                  (rows_untouched
                     (image_rows (rgb_pixels hdr st recon)
                        (Z.to_nat (ihdr_width hdr) * 3) (Z.to_nat (ihdr_height hdr))))
                  9)).
Proof.
  intros Hw Hh Hbd Hraw Hst (Hidat & Hdec & Hct & Hlen & Htags & Hpal).
  cbv zeta in Hlen, Htags.
  destruct (unfilter_scanlines_cases raw _ _ (channels (ihdr_color_type hdr)) Hraw Hlen)
    as [Hgood _].
  destruct (Hgood Htags) as (recon & Hrun & Hlr & Hbr).
  exists recon. repeat (split; [assumption |]).
  unfold transform. case_decide; [contradiction |].
  rewrite Hdec. rsimpl.
  destruct (layout_cases hdr Hw Hbd Hct) as (bpp & sl & Hlay & Hbpp & Hsl).
  rewrite Hlay. rsimpl. cbv beta iota. rewrite Hbpp, Hsl, Hrun. rsimpl.
  pose proof (pixels_and_refilter hdr st recon Hbd Hst Hct Hpal Hbr Hlr) as Hpx.
  cbv zeta in Hpx.
  match goal with
  | |- (?m ≫= _) = _ => destruct m as [rgb_bytes | e]; [| discriminate]
  end.
  rewrite result_bind_Ok in Hpx. rsimpl. rewrite Hpx. reflexivity.
Qed.

Lemma transform_accepted (z : zlib) (hdr : ihdr) (st : chunks) (raw : list Z) :
  0 <= ihdr_width hdr -> 0 <= ihdr_height hdr -> ihdr_bit_depth hdr = 8 ->
  decompresses_to_bytes z -> tables_ok st ->
  acceptable z hdr st raw ->
  exists recon,
    _unfilter_scanlines raw (Z.to_nat (ihdr_height hdr))
      (Z.to_nat (ihdr_width hdr) * channels (ihdr_color_type hdr))
      (channels (ihdr_color_type hdr)) = Ok recon
    /\ bytes_ok recon
    /\ length recon = (Z.to_nat (ihdr_height hdr)
                       * (Z.to_nat (ihdr_width hdr) * channels (ihdr_color_type hdr)))%nat
    /\ transform z hdr st
       = Ok (Flattened (ihdr_width hdr) (ihdr_height hdr) (ancillary_chunks st)
               (zlib_compress z
                  (rows_untouched
                     (image_rows (rgb_pixels hdr st recon)
                        (Z.to_nat (ihdr_width hdr) * 3) (Z.to_nat (ihdr_height hdr))))
                  9)).
Proof.
  intros Hw Hh Hbd Hz Hst Ha.
  apply transform_accepted_raw; try assumption.
  destruct Ha as (_ & Hdec & _).
  exact (Hz _ _ (concat_bytes _ (proj1 Hst)) Hdec).
Qed.

(** Whatever is not acceptable is a format error. *)
Lemma transform_rejected (z : zlib) (hdr : ihdr) (st : chunks) :
  0 <= ihdr_width hdr -> 0 <= ihdr_height hdr -> ihdr_bit_depth hdr = 8 ->
  decompresses_to_bytes z -> tables_ok st ->
  (forall raw, ~ acceptable z hdr st raw) ->
  exists e, transform z hdr st = Raise (PNGFormatError e).
Proof.
  intros Hw Hh Hbd Hz Hst Hno. unfold transform.
  case_decide as Hidat; [now eexists |].
  destruct (zlib_decompress z (concat (idat_parts st))) as [raw |] eqn:Hdec;
    [| now eexists].
  rsimpl. assert (Hraw : bytes_ok raw).
  { apply (Hz _ _ (concat_bytes _ (proj1 Hst)) Hdec). }
  destruct (decide (ihdr_color_type hdr = 6 \/ ihdr_color_type hdr = 2
                    \/ ihdr_color_type hdr = 3)) as [Hct | Hct].
  2:{ repeat (case_decide; [tauto |]). now eexists. }
  destruct (layout_cases hdr Hw Hbd Hct) as (bpp & sl & Hlay & Hbpp & Hsl).
  rewrite Hlay. rsimpl. cbv beta iota. rewrite Hbpp, Hsl.
  set (height := Z.to_nat (ihdr_height hdr)).
  set (row_size := (Z.to_nat (ihdr_width hdr) * channels (ihdr_color_type hdr))%nat).
  destruct (decide (length raw < height * (1 + row_size))%nat) as [Hshort | Hlong].
  { unfold _unfilter_scanlines. cbv zeta.
    destruct (decide (length raw ≠ (height * (1 + row_size))%nat)) as [_ | Heq];
      [| exfalso; apply Heq; lia].
    destruct (decide (length raw < height * (1 + row_size))%nat); [| lia].
    rsimpl. now eexists. }
  assert (Hlen : (height * (1 + row_size) <= length raw)%nat) by lia.
  destruct (unfilter_scanlines_cases raw height row_size
              (channels (ihdr_color_type hdr)) Hraw Hlen) as [_ Hbad].
  destruct (tags_known_or_first_unknown raw row_size height)
    as [Htags | (y & Hy & Hbefore & Hunknown)].
  2:{ rewrite (Hbad y Hy Hbefore Hunknown). rsimpl. now eexists. }
  assert (Hpal : ~ (ihdr_color_type hdr = 3 ->
                    exists p, plte st = Some p /\ (length p mod 3 = 0)%nat)).
  { intros Hpal. apply (Hno raw).
    exact (conj Hidat (conj Hdec (conj Hct (conj Hlen (conj Htags Hpal))))). }
  assert (Hct3 : ihdr_color_type hdr = 3).
  { destruct (decide (ihdr_color_type hdr = 3)); [assumption |].
    exfalso. apply Hpal. intros. contradiction. }
  destruct (unfilter_scanlines_cases raw height row_size
              (channels (ihdr_color_type hdr)) Hraw Hlen) as [Hgood _].
  destruct (Hgood Htags) as (recon & Hrun & _). rewrite Hrun. rsimpl.
  rewrite Hct3. repeat (case_decide; [lia |]).
  unfold expand_indexed.
  destruct (plte st) as [p |] eqn:Hp; [| rsimpl; now eexists].
  destruct (decide (length p mod 3 ≠ 0)%nat) as [Hmod | Hmod];
    [rsimpl; now eexists |].
  exfalso. apply Hpal. intros _. exists p. split; [reflexivity |].
  destruct (decide (length p mod 3 = 0)%nat); [assumption | contradiction].
Qed.

(** Acceptability can be decided from the header and the collection. *)
Lemma acceptable_or_not (z : zlib) (hdr : ihdr) (st : chunks) :
  (exists raw, acceptable z hdr st raw) \/ (forall raw, ~ acceptable z hdr st raw).
Proof.
  unfold acceptable. cbv zeta.
  destruct (decide (idat_parts st = [])) as [Hidat | Hidat]; [right; tauto |].
  destruct (zlib_decompress z (concat (idat_parts st))) as [raw |] eqn:Hdec.
  2:{ right. intros raw (_ & [=] & _). }
  destruct (decide (ihdr_color_type hdr = 6 \/ ihdr_color_type hdr = 2
                    \/ ihdr_color_type hdr = 3)) as [Hct | Hct].
  2:{ right. intros raw' (_ & _ & ? & _). contradiction. }
  set (height := Z.to_nat (ihdr_height hdr)).
  set (row_size := (Z.to_nat (ihdr_width hdr) * channels (ihdr_color_type hdr))%nat).
  destruct (decide (height * (1 + row_size) <= length raw)%nat) as [Hlen | Hlen].
  2:{ right. intros raw' (_ & [= <-] & _ & ? & _). contradiction. }
  destruct (tags_known_or_first_unknown raw row_size height)
    as [Htags | (y & Hy & _ & Hunknown)].
  2:{ right. intros raw' (_ & [= <-] & _ & _ & Hall & _). apply Hunknown, Hall, Hy. }
  destruct (decide (ihdr_color_type hdr = 3)) as [Hct3 | Hct3].
  2:{ left. exists raw.
      refine (conj Hidat (conj eq_refl (conj Hct (conj Hlen (conj Htags _))))).
      intros. contradiction. }
  destruct (plte st) as [p |] eqn:Hp.
  2:{ right. intros raw' (_ & _ & _ & _ & _ & Hpal).
      destruct (Hpal Hct3) as (p & [=] & _). }
  destruct (decide (length p mod 3 = 0)%nat) as [Hmod | Hmod].
  - left. exists raw.
    refine (conj Hidat (conj eq_refl (conj Hct (conj Hlen (conj Htags _))))).
    intros _. now exists p.
  - right. intros raw' (_ & _ & _ & _ & _ & Hpal).
    destruct (Hpal Hct3) as (p' & [= <-] & ?). contradiction.
Qed.

(** X6. Once the header has passed its checks (bit depth 8, a width and a
    height that are not negative) and the chunks are collected, the rest of
    [flatten_png_alpha_to_white] up to the opening of the output file
    succeeds exactly on an acceptable input: at least one IDAT chunk, pixel
    data that decompresses to at least [height] rows of [1 + width * channels]
    bytes, each with a filter tag from 0 to 4, a colour type among 6, 2 and
    3, and for colour type 3 a palette whose length is a multiple of 3.  It
    then keeps width, height and ancillary chunks, and compresses at level 9
    the RGB pixels of the reconstructed image, row by row with filter tag 0 in
    front of each row.  On any other input it raises a [PNGFormatError],
    never another exception. *)
Theorem transform_success_criterion (z : zlib) (hdr : ihdr) (st : chunks) :
  0 <= ihdr_width hdr -> 0 <= ihdr_height hdr -> ihdr_bit_depth hdr = 8 ->
  decompresses_to_bytes z -> tables_ok st ->
  (is_Ok (transform z hdr st) <-> exists raw, acceptable z hdr st raw)
  /\ (forall raw, acceptable z hdr st raw ->
        exists recon,
          _unfilter_scanlines raw (Z.to_nat (ihdr_height hdr))
            (Z.to_nat (ihdr_width hdr) * channels (ihdr_color_type hdr))
            (channels (ihdr_color_type hdr)) = Ok recon
          /\ transform z hdr st
             = Ok (Flattened (ihdr_width hdr) (ihdr_height hdr) (ancillary_chunks st)
                     (zlib_compress z
                        (rows_untouched
                           (image_rows (rgb_pixels hdr st recon)
                              (Z.to_nat (ihdr_width hdr) * 3)
                              (Z.to_nat (ihdr_height hdr))))
                        9)))
  /\ (~ is_Ok (transform z hdr st) ->
        exists e, transform z hdr st = Raise (PNGFormatError e)).
Proof.
  intros Hw Hh Hbd Hz Hst.
  assert (Hacc : forall raw, acceptable z hdr st raw -> is_Ok (transform z hdr st)).
  { intros raw Ha.
    destruct (transform_accepted z hdr st raw Hw Hh Hbd Hz Hst Ha)
      as (recon & _ & _ & _ & ->). now eexists. }
  split; [| split].
  - split; [| intros [raw Ha]; now apply (Hacc raw)].
    intros [d Hd].
    destruct (acceptable_or_not z hdr st) as [Ha | Hno]; [assumption |].
    destruct (transform_rejected z hdr st Hw Hh Hbd Hz Hst Hno) as [e He].
    congruence.
  - intros raw Ha.
    destruct (transform_accepted z hdr st raw Hw Hh Hbd Hz Hst Ha)
      as (recon & Hrun & _ & _ & Ht).
    exists recon. now split.
  - intros Hfail.
    destruct (acceptable_or_not z hdr st) as [[raw Ha] | Hno].
    + exfalso. apply Hfail, (Hacc raw Ha).
    + exact (transform_rejected z hdr st Hw Hh Hbd Hz Hst Hno).
Qed.

(** One half-transparent RGBA pixel, its pixel data split over two IDAT
    chunks. *)
Lemma transform_success_criterion_witness :
  is_Ok (transform stored (Ihdr 1 1 8 6 0 0 0)
           (Chunks [[0; 10]; [20; 30; 128]] [] None None))
  /\ exists recon,
       _unfilter_scanlines [0; 10; 20; 30; 128] 1 4 4 = Ok recon
       /\ transform stored (Ihdr 1 1 8 6 0 0 0)
            (Chunks [[0; 10]; [20; 30; 128]] [] None None)
          = Ok (Flattened 1 1 []
                  (rows_untouched
                     (image_rows
                        (rgb_pixels (Ihdr 1 1 8 6 0 0 0)
                           (Chunks [[0; 10]; [20; 30; 128]] [] None None) recon)
                        3 1))).
Proof.
  assert (Hz : decompresses_to_bytes stored).
  { intros x y Hx [= <-]. exact Hx. }
  assert (Hst : tables_ok (Chunks [[0; 10]; [20; 30; 128]] [] None None)).
  { split; [| split; intros ? [=]].
    cbn [idat_parts].
    constructor; [apply bytes_ok_forallb; reflexivity |].
    constructor; [apply bytes_ok_forallb; reflexivity | constructor]. }
  assert (Ha : acceptable stored (Ihdr 1 1 8 6 0 0 0)
                 (Chunks [[0; 10]; [20; 30; 128]] [] None None) [0; 10; 20; 30; 128]).
  { refine (conj _ (conj eq_refl (conj (or_introl eq_refl) (conj _ (conj _ _))))).
    - discriminate.
    - vm_compute. lia.
    - intros y Hy. replace y with 0%nat by (vm_compute in Hy; lia).
      unfold known_tag.
      match goal with
      | |- 0 <= ?t <= 4 => assert (t = 0) as -> by reflexivity
      end.
      lia.
    - intros [=]. }
  destruct (transform_success_criterion stored (Ihdr 1 1 8 6 0 0 0)
              (Chunks [[0; 10]; [20; 30; 128]] [] None None)
              ltac:(cbn; lia) ltac:(cbn; lia) eq_refl Hz Hst) as (Hiff & Hout & _).
  split.
  - apply Hiff. now exists [0; 10; 20; 30; 128].
  - exact (Hout _ Ha).
Defined.

(** ** What a run can end in *)

Lemma read_chunk_bytes (s s' chunk_type data : list Z) :
  bytes_ok s ->
  _read_chunk s = (Ok (chunk_type, data), s') ->
  bytes_ok data /\ bytes_ok s'.
Proof.
  intros Hb Hread.
  destruct (read_chunk_Ok_inv s s' chunk_type data Hb Hread) as (crc & Hs & _).
  rewrite Hs in Hb. unfold raw_chunk, bytes_ok in Hb.
  rewrite !Forall_app in Hb. unfold bytes_ok. tauto.
Qed.

(** [_read_chunk] raises [EOFError] at the end of the stream and nowhere
    else, and otherwise only format errors. *)
Lemma read_chunk_errors (s s' : list Z) (e : exn) :
  _read_chunk s = (Raise e, s') ->
  (e = EOFError /\ s = []) \/ (s <> [] /\ exists fe, e = PNGFormatError fe).
Proof.
  rewrite read_chunk_cases. cbv zeta.
  repeat case_decide; intros [= <- <-]; try (left; now split);
    right; (split; [assumption | now eexists]).
Qed.

(** The chunk loop keeps the collected tables bytes, and leaves only with a
    collection or a format error. *)
Lemma read_chunks_tables (fuel : nat) :
  forall st s, bytes_ok s -> tables_ok st ->
    (exists st' s', read_chunks fuel st s = (Ok st', s') /\ tables_ok st')
    \/ (exists fe s', read_chunks fuel st s = (Raise (PNGFormatError fe), s')).
Proof.
  induction fuel as [|fuel IH]; intros st s Hb Hst.
  - left. exists st, s. now split.
  - cbn [read_chunks].
    destruct (_read_chunk s) as [[[t d] | e] s'] eqn:Hread.
    + destruct (read_chunk_bytes s s' t d Hb Hread) as [Hd Hs'].
      destruct Hst as (Hidat & Hplte & Htrns).
      repeat case_decide.
      * apply IH; [assumption |]. split; [| split]; cbn; try assumption.
        apply Forall_app. split; [assumption | now constructor].
      * apply IH; [assumption |]. split; [| split]; cbn; try assumption.
        now intros p [= <-].
      * apply IH; [assumption |]. split; [| split]; cbn; try assumption.
        now intros p [= <-].
      * left. exists st, s'. split; [reflexivity |]. now split.
      * apply IH; [assumption |]. split; [| split]; cbn; assumption.
    + destruct (read_chunk_errors s s' e Hread) as [[-> _] | (_ & fe & ->)].
      * left. exists st, s'. now split.
      * right. now exists fe, s'.
Qed.

(** A header that passes the checks has bit depth 8, and a width and a
    height that are not negative. *)
Lemma check_header_Ok (chunk_type data : list Z) (hdr : ihdr) :
  bytes_ok data ->
  check_header chunk_type data = Ok hdr ->
  hdr = struct_unpack_IHDR data
  /\ 0 <= ihdr_width hdr /\ 0 <= ihdr_height hdr /\ ihdr_bit_depth hdr = 8.
Proof.
  intros Hb. unfold check_header.
  repeat (case_decide; [discriminate |]).
  intros [= <-]. split; [reflexivity |].
  split; [| split]; [| | assumption]; cbn [struct_unpack_IHDR ihdr_width ihdr_height];
    apply struct_unpack_I_nonneg, slice_bytes, Hb.
Qed.

Lemma check_header_errors (chunk_type data : list Z) :
  (exists hdr, check_header chunk_type data = Ok hdr)
  \/ (exists fe, check_header chunk_type data = Raise (PNGFormatError fe)).
Proof.
  unfold check_header.
  repeat (case_decide; [right; now eexists |]). left. now eexists.
Qed.

Lemma transform_Ok_or_format_error (z : zlib) (hdr : ihdr) (st : chunks) :
  0 <= ihdr_width hdr -> 0 <= ihdr_height hdr -> ihdr_bit_depth hdr = 8 ->
  decompresses_to_bytes z -> tables_ok st ->
  is_Ok (transform z hdr st)
  \/ exists fe, transform z hdr st = Raise (PNGFormatError fe).
Proof.
  intros Hw Hh Hbd Hz Hst.
  destruct (acceptable_or_not z hdr st) as [[raw Ha] | Hno].
  - left. destruct (transform_accepted z hdr st raw Hw Hh Hbd Hz Hst Ha)
      as (recon & _ & _ & _ & ->). now eexists.
  - right. exact (transform_rejected z hdr st Hw Hh Hbd Hz Hst Hno).
Qed.

(** The decoding half on a file of bytes: a result, a format error, or
    [EOFError] on the bare signature. *)
Lemma decode_cases (z : zlib) (f : list Z) :
  bytes_ok f -> decompresses_to_bytes z ->
  (f <> PNG_SIGNATURE /\ is_Ok (fst (decode_and_flatten z f)))
  \/ (f <> PNG_SIGNATURE
      /\ exists fe, fst (decode_and_flatten z f) = Raise (PNGFormatError fe))
  \/ (f = PNG_SIGNATURE /\ fst (decode_and_flatten z f) = Raise EOFError).
Proof.
  intros Hb Hz. rewrite decode_and_flatten_stages.
  case_decide as Hsig.
  { right. left. split; [| now eexists].
    intros ->. apply Hsig. reflexivity. }
  assert (Hrest : bytes_ok (drop 8 f)) by (now apply Forall_drop).
  destruct (_read_chunk (drop 8 f)) as [[[t d] | e] rest] eqn:Hread.
  2:{ destruct (read_chunk_errors _ _ _ Hread) as [[-> Hnil] | (Hne & fe & ->)].
      - right. right. split; [| reflexivity].
        rewrite <- (take_drop 8 f), Hnil, Hsig. reflexivity.
      - right. left. split; [| now eexists].
        intros ->. apply Hne. reflexivity. }
  assert (Hf : f <> PNG_SIGNATURE).
  { intros ->. cbn in Hread. discriminate. }
  destruct (read_chunk_bytes _ _ _ _ Hrest Hread) as [Hd Hrest'].
  destruct (check_header_errors t d) as [[hdr Hhdr] | [fe Hfe]].
  2:{ rewrite Hfe. right. left. split; [assumption | now eexists]. }
  rewrite Hhdr. rsimpl.
  destruct (check_header_Ok t d hdr Hd Hhdr) as (_ & Hw & Hh & Hbd).
  assert (Hst0 : tables_ok (Chunks [] [] None None)).
  { split; [constructor | split; intros ? [=]]. }
  destruct (read_chunks_tables (S (length rest)) _ rest Hrest' Hst0)
    as [(st & s' & -> & Hst) | (fe & s' & ->)].
  2:{ right. left. split; [assumption | now eexists]. }
  destruct (transform_Ok_or_format_error z hdr st Hw Hh Hbd Hz Hst) as [Hok | Herr].
  - left. now split.
  - right. left. now split.
Qed.

(** X7.  On a file of bytes, with a decompressor that returns bytes, the
    reading and transforming half of [flatten_png_alpha_to_white] ends in a
    result or in a [PNGFormatError], with one exception: on a file that
    consists of the eight signature bytes and nothing else, the first
    [_read_chunk] raises [EOFError], which nothing catches (the [try] of
    the chunk loop covers only the chunks after the header).  No input makes
    an index, a byte store or a [struct] call fail. *)
Theorem decode_only_format_errors (z : zlib) (f : list Z) :
  bytes_ok f -> decompresses_to_bytes z ->
  (fst (decode_and_flatten z f) = Raise EOFError <-> f = PNG_SIGNATURE)
  /\ (forall e, fst (decode_and_flatten z f) = Raise e ->
        e = EOFError \/ exists fe, e = PNGFormatError fe).
Proof.
  intros Hb Hz.
  destruct (decode_cases z f Hb Hz)
    as [(Hf & d & Hd) | [(Hf & fe & Hfe) | (Hf & Heof)]].
  - rewrite Hd. split; [split; [discriminate | contradiction] | discriminate].
  - rewrite Hfe. split; [split; [discriminate | contradiction] |].
    intros e [= <-]. right. now exists fe.
  - rewrite Heof. split; [now split |]. intros e [= <-]. now left.
Qed.

(** The bare signature, and a file that stops inside its first chunk. *)
Lemma decode_only_format_errors_witness :
  fst (decode_and_flatten stored PNG_SIGNATURE) = Raise EOFError
  /\ (fst (decode_and_flatten stored (PNG_SIGNATURE ++ [0; 0])) = Raise EOFError
      -> PNG_SIGNATURE ++ [0; 0] = PNG_SIGNATURE).
Proof.
  assert (Hz : decompresses_to_bytes stored).
  { intros x y Hx [= <-]. exact Hx. }
  split.
  - apply (decode_only_format_errors stored PNG_SIGNATURE);
      [apply bytes_ok_forallb; reflexivity | exact Hz | reflexivity].
  - apply (decode_only_format_errors stored (PNG_SIGNATURE ++ [0; 0]));
      [apply bytes_ok_forallb; reflexivity | exact Hz].
Defined.

(** ** The writing half and the command line *)

Lemma struct_unpack_I_range (b : list Z) :
  bytes_ok b -> length b = 4%nat -> 0 <= struct_unpack_I b < 4294967296.
Proof.
  intros Hb Hlen.
  destruct b as [|b0 [|b1 [|b2 [|b3 [|]]]]]; try discriminate.
  unfold bytes_ok in Hb.
  apply Forall_cons in Hb as [H0 Hb]. apply Forall_cons in Hb as [H1 Hb].
  apply Forall_cons in Hb as [H2 Hb]. apply Forall_cons in Hb as [H3 _].
  rewrite struct_unpack_I_bytes by assumption.
  unfold is_byte in *. lia.
Qed.

Lemma collect_ancillary_fits (cs : list (list Z * list Z * list Z)) :
  Forall chunk_ok cs ->
  forall st, Forall (fun c => fits32 c.2) (ancillary_chunks st) ->
    Forall (fun c => fits32 c.2)
      (ancillary_chunks (foldl collect_chunk st (map chunk_content cs))).
Proof.
  induction 1 as [|[[t d] crc] cs (_ & Hd & _) _ IH]; intros st Hst; [exact Hst |].
  cbn [map foldl]. apply IH.
  unfold chunk_content, collect_chunk. cbn [fst snd].
  repeat case_decide; cbn [ancillary_chunks]; try assumption.
  apply Forall_app. split; [assumption |]. now repeat constructor.
Qed.

(** What comes out of the decoding half fits the fields of the output. *)
Lemma decode_Ok_fits (z : zlib) (f : list Z) (d : flattened) :
  bytes_ok f ->
  fst (decode_and_flatten z f) = Ok d ->
  0 <= out_width d < 4294967296 /\ 0 <= out_height d < 4294967296
  /\ Forall (fun c => fits32 c.2) (out_ancillary d).
Proof.
  intros Hb Hd.
  apply decode_and_flatten_Ok in Hd
    as (hd & rest & st & out_raw & _ & Hread & Hlen & _ & _ & _ & _ & Hloop & _ & ->).
  assert (Hrest : bytes_ok (drop 8 f)) by (now apply Forall_drop).
  destruct (read_chunk_bytes _ _ _ _ Hrest Hread) as [Hhd Hrest'].
  cbn [out_width out_height out_ancillary struct_unpack_IHDR ihdr_width ihdr_height].
  split; [| split].
  - apply struct_unpack_I_range; [now apply slice_bytes |].
    unfold slice. rewrite length_take, length_drop. lia.
  - apply struct_unpack_I_range; [now apply slice_bytes |].
    unfold slice. rewrite length_take, length_drop. lia.
  - apply read_chunks_inv in Hloop as (cs & tail & _ & Hcs & _ & _ & ->);
      [| assumption | lia].
    apply collect_ancillary_fits; [assumption | constructor].
Qed.

Lemma write_ancillary_spec (l : list (list Z * list Z)) :
  Forall (fun c => fits32 c.2) l ->
  forall out,
    write_ancillary l out = (Ok tt, out ++ flat_map chunk_wire (filter whitelisted l)).
Proof.
  induction 1 as [|[ctype cdata] l Hc _ IH]; intros out.
  - cbn. now rewrite app_nil_r.
  - cbn [write_ancillary]. unfold io_bind.
    destruct (decide (ctype ∈ [sRGB; gAMA; cHRM])) as [Hin | Hout].
    + rewrite filter_cons_True by exact Hin. cbn [flat_map].
      rewrite write_chunk_spec. unfold fits32 in Hc. cbn [snd] in Hc.
      case_decide; [| lia]. rewrite app_assoc. apply IH.
    + rewrite filter_cons_False by exact Hout. apply IH.
Qed.

(** The writing half completes unless the compressed pixel data is too long
    for a chunk; it then stops in front of the [IDAT] chunk. *)
Lemma write_png_spec (d : flattened) :
  0 <= out_width d < 4294967296 -> 0 <= out_height d < 4294967296 ->
  Forall (fun c => fits32 c.2) (out_ancillary d) ->
  write_png d [] =
    if decide (fits32 (out_compressed d)) then
      (Ok tt, output_stream (out_width d) (out_height d) (out_ancillary d)
                (out_compressed d))
    else
      (Raise StructError,
       partial_stream (out_width d) (out_height d) (out_ancillary d)).
Proof.
  intros Hw Hh Hanc.
  unfold write_png, io_bind, io_lift, stream_write, output_stream, partial_stream.
  cbn [app]. rewrite struct_pack_IHDR_truecolor.
  case_decide; [| lia].
  rewrite write_chunk_spec.
  case_decide as H13; [| rewrite !length_app, !be32_length in H13; cbn in H13; lia].
  rewrite write_ancillary_spec by assumption.
  rewrite write_chunk_spec. unfold fits32.
  destruct (decide (Z.of_nat (length (out_compressed d)) < 4294967296)).
  - rewrite write_chunk_spec. case_decide; [| cbn in *; lia].
    f_equal. now rewrite <- !app_assoc.
  - reflexivity.
Qed.

Lemma main_target_path (a : args) :
  resolve_output_path (input a) (output a)
    (in_place a && bool_decide (output a = None))
  = target_path a.
Proof.
  unfold resolve_output_path, target_path.
  destruct (output a) as [o |].
  - rewrite bool_decide_eq_false_2 by discriminate. rewrite andb_false_r. reflexivity.
  - rewrite bool_decide_eq_true_2 by reflexivity. now rewrite andb_true_r.
Qed.


(** X8.  How [main] ends on an input path that [os.path.isfile] accepts,
    in a file system whose files hold bytes, with a decompressor that
    returns bytes.  If the input cannot be opened, [OSError] escapes.  A
    format error found while decoding gives exit status 1, the error on
    standard error, and an untouched file system.  On the bare signature
    [EOFError] escapes, nothing changed.  After a successful decoding the
    target path is opened for writing: if that fails (a directory, a missing
    parent, no permission) [OSError] escapes and nothing is changed;
    otherwise the whole output stream is written to the file the path names,
    the path is printed and the exit status is 0, unless the compressed
    pixel data does not fit the 32-bit length field of a chunk: then
    [struct.error] escapes, and that file is left holding the signature,
    the header and the copied ancillary chunks only.  [main] ends in no
    other way. *)
Theorem main_exit_codes (z : zlib) (sys : os) (a : args)
    (files : gmap inode (list Z)) :
  os_isfile sys (input a) = true ->
  map_Forall (fun _ f => bytes_ok f) files ->
  decompresses_to_bytes z ->
  match os_open_rb sys (input a) ≫= (files !!.) with
  | None => main z sys a files = (Raise OSError, [], files)
  | Some f =>
    match fst (decode_and_flatten z f) with
    | Ok d =>
      match os_open_wb sys (target_path a) with
      | None => main z sys a files = (Raise OSError, [], files)
      | Some out_file =>
        if decide (fits32 (out_compressed d)) then
          main z sys a files
          = (Ok 0, [Stdout (target_path a)],
             <[out_file := output_stream (out_width d) (out_height d)
                             (out_ancillary d) (out_compressed d)]> files)
        else
          main z sys a files
          = (Raise StructError, [],
             <[out_file := partial_stream (out_width d) (out_height d)
                             (out_ancillary d)]> files)
      end
    | Raise (PNGFormatError fe) => main z sys a files = (Ok 1, [StderrError fe], files)
    | Raise e => e = EOFError /\ f = PNG_SIGNATURE
                 /\ main z sys a files = (Raise EOFError, [], files)
    end
  end.
Proof.
  intros Hisfile Hfiles Hz. unfold main. rewrite Hisfile. cbn [negb].
  unfold flatten_png_alpha_to_white.
  destruct (os_open_rb sys (input a) ≫= (files !!.)) as [f |] eqn:Hsrc;
    [| reflexivity].
  assert (Hb : bytes_ok f).
  { destruct (os_open_rb sys (input a)) as [src_file |]; [| discriminate].
    exact (Hfiles src_file f Hsrc). }
  destruct (decode_cases z f Hb Hz)
    as [(_ & d & Hdec) | [(_ & fe & ->) | (Hsig & ->)]].
  - rewrite Hdec.
    destruct (decode_Ok_fits z f d Hb Hdec) as (Hw & Hh & Hanc).
    rewrite main_target_path.
    destruct (os_open_wb sys (target_path a)) as [out_file |]; [| reflexivity].
    rewrite write_png_spec by assumption.
    case_decide; reflexivity.
  - reflexivity.
  - now repeat split.
Qed.

(** In the example file system: a file that stops inside the length field
    of its first chunk; a two-pixel indexed image written to [./a.png],
    which is the input file under another name; the same image with [/],
    a directory, as output. *)
Lemma main_exit_codes_witness :
  main stored example_os (Args "a.png" None false) {[ 1%N := PNG_SIGNATURE ++ [0; 0] ]}
  = (Ok 1, [StderrError EOFInChunkLength], {[ 1%N := PNG_SIGNATURE ++ [0; 0] ]})
  /\ main stored example_os (Args "a.png" (Some "./a.png") false)
       {[ 1%N := indexed_8bit_png ]}
     = (Ok 0, [Stdout "./a.png"],
        <[1%N := output_stream 2 1 [] [0; 0; 255; 0; 255; 0; 0]]>
          {[ 1%N := indexed_8bit_png ]})
  /\ main stored example_os (Args "a.png" (Some "/") false) {[ 1%N := indexed_8bit_png ]}
     = (Raise OSError, [], {[ 1%N := indexed_8bit_png ]}).
Proof.
  assert (Hz : decompresses_to_bytes stored).
  { intros x y Hx [= <-]. exact Hx. }
  assert (Hdec : fst (decode_and_flatten stored indexed_8bit_png)
                 = Ok (Flattened 2 1 [] [0; 0; 255; 0; 255; 0; 0]))
    by (vm_compute; reflexivity).
  assert (Hfiles : forall f, bytes_ok f ->
            map_Forall (fun (_ : inode) f => bytes_ok f) ({[ 1%N := f ]} : gmap inode (list Z))).
  { intros f Hf. now apply map_Forall_singleton. }
  split; [| split].
  - exact (main_exit_codes stored example_os (Args "a.png" None false)
             {[ 1%N := PNG_SIGNATURE ++ [0; 0] ]} eq_refl
             (Hfiles (PNG_SIGNATURE ++ [0; 0])
                ltac:(apply bytes_ok_forallb; reflexivity)) Hz).
  - pose proof (main_exit_codes stored example_os (Args "a.png" (Some "./a.png") false)
                  {[ 1%N := indexed_8bit_png ]} eq_refl
                  (Hfiles indexed_8bit_png
                     ltac:(apply bytes_ok_forallb; reflexivity)) Hz) as Hmain.
    change (os_open_rb example_os
              (input (Args "a.png" (Some "./a.png") false)) ≫=
              (({[ 1%N := indexed_8bit_png ]} : gmap inode (list Z)) !!.))
      with (Some indexed_8bit_png) in Hmain.
    cbv beta iota in Hmain. rewrite Hdec in Hmain.
    change (os_open_wb example_os (target_path (Args "a.png" (Some "./a.png") false)))
      with (Some 1%N) in Hmain.
    cbv beta iota in Hmain.
    destruct (decide (fits32 (out_compressed
                                (Flattened 2 1 [] [0; 0; 255; 0; 255; 0; 0]))))
      as [_ | Hbig]; [exact Hmain |].
    exfalso. apply Hbig. unfold fits32. cbn. lia.
  - pose proof (main_exit_codes stored example_os (Args "a.png" (Some "/") false)
                  {[ 1%N := indexed_8bit_png ]} eq_refl
                  (Hfiles indexed_8bit_png
                     ltac:(apply bytes_ok_forallb; reflexivity)) Hz) as Hmain.
    change (os_open_rb example_os
              (input (Args "a.png" (Some "/") false)) ≫=
              (({[ 1%N := indexed_8bit_png ]} : gmap inode (list Z)) !!.))
      with (Some indexed_8bit_png) in Hmain.
    cbv beta iota in Hmain. rewrite Hdec in Hmain.
    exact Hmain.
Defined.

(** X9.  Whatever the input, the codec, the operating system and the
    outcome, [main] changes no file other than the one its target path names
    when it is opened for writing; files are told apart by their identity,
    so this holds with several paths naming one file.  The target path is
    the one the source computes: [--output] when it is given and not empty,
    whatever [--in-place] says; the input path under [--in-place] with no
    [--output] at all; and otherwise, also for an empty [--output] next to
    [--in-place], the input path followed by [.flattened.png].  The exit
    status is 2 exactly when [os.path.isfile] rejects the input path, and
    then nothing is changed. *)
Theorem main_touches_only_target (z : zlib) (sys : os) (a : args)
    (files : gmap inode (list Z)) :
  (forall i, os_open_wb sys (target_path a) <> Some i ->
     (main z sys a files).2 !! i = files !! i)
  /\ ((main z sys a files).1.1 = Ok 2 <-> os_isfile sys (input a) = false)
  /\ ((main z sys a files).1.1 = Ok 2 -> (main z sys a files).2 = files)
  /\ resolve_output_path (input a) (output a)
       (in_place a && bool_decide (output a = None)) = target_path a
  /\ (forall o, output a = Some o -> o <> EmptyString -> target_path a = o)
  /\ (output a = None -> in_place a = true -> target_path a = input a)
  /\ (output a = Some EmptyString \/ (output a = None /\ in_place a = false) ->
      target_path a = input a +:+ ".flattened.png").
Proof.
  assert (Hrun : os_isfile sys (input a) = false
                 /\ main z sys a files = (Ok 2, [StderrNotFound (input a)], files)
                 \/ os_isfile sys (input a) = true
                    /\ (main z sys a files).1.1 <> Ok 2
                    /\ ((main z sys a files).2 = files
                        \/ exists out_file out,
                             os_open_wb sys (target_path a) = Some out_file
                             /\ (main z sys a files).2 = <[out_file := out]> files)).
  { unfold main. destruct (os_isfile sys (input a)); [right | left; now split].
    split; [reflexivity |]. cbn [negb].
    unfold flatten_png_alpha_to_white.
    destruct (os_open_rb sys (input a) ≫= (files !!.)) as [f |];
      [| split; [discriminate | now left]].
    destruct (fst (decode_and_flatten z f)) as [d | e].
    - rewrite main_target_path.
      destruct (os_open_wb sys (target_path a)) as [out_file |];
        [| split; [discriminate | now left]].
      destruct (write_png d []) as [[[] | e] out]; cbn [mbind result_bind fst snd].
      + split; [discriminate | right; now eexists _, _].
      + destruct e; (split; [discriminate | right; now eexists _, _]).
    - destruct e; (split; [discriminate | now left]). }
  split; [| split; [| split; [| split; [| split; [| split]]]]].
  - intros i Hi.
    destruct Hrun as [[_ ->] | (_ & _ & [-> | (out_file & out & Hwb & ->)])];
      try reflexivity.
    apply lookup_insert_ne. congruence.
  - destruct Hrun as [[Hnone ->] | (Hsome & Hcode & _)]; [now split |].
    split; [intros; contradiction | congruence].
  - destruct Hrun as [[_ ->] | (_ & Hcode & _)]; [reflexivity | intros; contradiction].
  - apply main_target_path.
  - intros o Ho Hne. unfold target_path. rewrite Ho. now case_decide.
  - intros Ho Hip. unfold target_path. now rewrite Ho, Hip.
  - intros [Ho | [Ho Hip]]; unfold target_path; rewrite Ho.
    + case_decide; [reflexivity | contradiction].
    + now rewrite Hip.
Qed.

(** ** The input as a sequence of chunks *)

(** Decoding a file of known chunk structure: the header checks on the first
    chunk, then the transformation of what the other chunks hold. *)
Lemma decode_structured (z : zlib) (t hd crc0 : list Z)
    (cs : list (list Z * list Z * list Z)) (tail : list Z) :
  chunk_ok (t, hd, crc0) ->
  Forall chunk_ok cs ->
  Forall (fun c => c.1.1 <> IEND) cs ->
  chunks_end tail ->
  fst (decode_and_flatten z
         (PNG_SIGNATURE ++ raw_chunk (t, hd, crc0) ++ flat_map raw_chunk cs ++ tail))
  = (hdr ← check_header t hd;
     transform z hdr
       (foldl collect_chunk (Chunks [] [] None None) (map chunk_content cs))).
Proof.
  intros Hhd Hcs Hne Hend. rewrite decode_and_flatten_stages.
  rewrite (take_app_length' PNG_SIGNATURE) by reflexivity.
  case_decide; [contradiction |].
  rewrite (drop_app_length' PNG_SIGNATURE) by reflexivity.
  rewrite read_raw_chunk by assumption.
  destruct (check_header t hd) as [hdr | e]; [| reflexivity]. rsimpl.
  pose proof (read_chunks_collects cs tail Hcs Hne Hend
                (S (length (flat_map raw_chunk cs ++ tail)))
                (Chunks [] [] None None)) as Hloop.
  destruct (read_chunks _ _ _) as [r rest'].
  cbn [fst] in Hloop. rewrite Hloop; [reflexivity |].
  rewrite length_app. pose proof (raw_chunks_length cs Hcs). lia.
Qed.

(** X10.  The input's checksums are never looked at, and neither is
    anything from the terminator chunk on: two files made of the signature,
    a first chunk and further chunks with the same types and payloads, one
    after the other, decode to the same result or the same error, whatever
    their CRC fields hold, whether the [IEND] chunk is there or the file
    simply ends, and whatever payload [IEND] carries or bytes follow it. *)
Theorem input_checksums_ignored (z : zlib) (t hd crc0 crc0' : list Z)
    (cs cs' : list (list Z * list Z * list Z)) (tail tail' : list Z) :
  chunk_ok (t, hd, crc0) -> chunk_ok (t, hd, crc0') ->
  Forall chunk_ok cs -> Forall chunk_ok cs' ->
  Forall (fun c => c.1.1 <> IEND) cs ->
  map chunk_content cs = map chunk_content cs' ->
  chunks_end tail -> chunks_end tail' ->
  fst (decode_and_flatten z
         (PNG_SIGNATURE ++ raw_chunk (t, hd, crc0) ++ flat_map raw_chunk cs ++ tail))
  = fst (decode_and_flatten z
           (PNG_SIGNATURE ++ raw_chunk (t, hd, crc0')
            ++ flat_map raw_chunk cs' ++ tail')).
Proof.
  intros Hhd Hhd' Hcs Hcs' Hne Hsame Hend Hend'.
  assert (Hne' : Forall (fun c => c.1.1 <> IEND) cs').
  { clear -Hne Hsame. revert cs' Hsame.
    induction Hne as [|c cs Hc _ IH]; intros [|c' cs'] Hsame;
      try discriminate; constructor.
    - assert (Hc' : chunk_content c = chunk_content c')
        by (cbn [map] in Hsame; congruence).
      apply (f_equal fst) in Hc'. unfold chunk_content in Hc'. cbn [fst] in Hc'.
      now rewrite <- Hc'.
    - apply IH. cbn [map] in Hsame. congruence. }
  rewrite !decode_structured by assumption.
  now rewrite Hsame.
Qed.

(** A one-pixel RGB image: with correct checksums and a terminator, and with
    zeroed checksums and no terminator. *)
Lemma input_checksums_ignored_witness :
  fst (decode_and_flatten stored
         (PNG_SIGNATURE
          ++ raw_chunk (IHDR, be32 1 ++ be32 1 ++ [8; 2; 0; 0; 0], [1; 2; 3; 4])
          ++ flat_map raw_chunk [(IDAT, [0; 10; 20; 30], [5; 6; 7; 8])]
          ++ raw_chunk (IEND, [], [9; 9; 9; 9]) ++ [1; 2; 3]))
  = fst (decode_and_flatten stored
           (PNG_SIGNATURE
            ++ raw_chunk (IHDR, be32 1 ++ be32 1 ++ [8; 2; 0; 0; 0], [0; 0; 0; 0])
            ++ flat_map raw_chunk [(IDAT, [0; 10; 20; 30], [0; 0; 0; 0])]
            ++ [])).
Proof.
  apply input_checksums_ignored.
  - repeat split; cbn; lia.
  - repeat split; cbn; lia.
  - repeat constructor; cbn; lia.
  - repeat constructor; cbn; lia.
  - repeat constructor. cbn. discriminate.
  - reflexivity.
  - right. exists [], [9; 9; 9; 9], [1; 2; 3]. split; [| reflexivity].
    repeat split; cbn; lia.
  - now left.
Defined.

(** ** The tool on its own output *)

Lemma chunk_wire_with_crc (c : list Z * list Z) : chunk_wire c = raw_chunk (with_crc c).
Proof. destruct c as [t d]. reflexivity. Qed.

Lemma with_crc_ok (c : list Z * list Z) :
  length c.1 = 4%nat -> fits32 c.2 -> chunk_ok (with_crc c).
Proof.
  destruct c as [t d]. unfold with_crc, chunk_ok, fits32. cbn [fst snd].
  intros Ht Hd. now rewrite be32_length.
Qed.

Lemma chunk_content_with_crc (l : list (list Z * list Z)) :
  map chunk_content (map with_crc l) = l.
Proof.
  rewrite map_map. rewrite <- (map_id l) at 2. apply map_ext.
  now intros [t d].
Qed.

Lemma whitelisted_type (c : list Z * list Z) :
  whitelisted c ->
  length c.1 = 4%nat
  /\ c.1 <> IDAT /\ c.1 <> PLTE /\ c.1 <> tRNS /\ c.1 <> IEND.
Proof.
  unfold whitelisted. rewrite !elem_of_cons, elem_of_nil.
  intros [-> | [-> | [-> | []]]]; repeat split; discriminate.
Qed.

(** The chunk loop keeps whitelisted chunks as ancillary chunks. *)
Lemma collect_whitelisted (l : list (list Z * list Z)) :
  Forall whitelisted l ->
  forall st,
    foldl collect_chunk st l
    = Chunks (idat_parts st) (ancillary_chunks st ++ l) (plte st) (trns st).
Proof.
  induction 1 as [|[t d] l Hc _ IH]; intros st.
  - cbn [foldl]. rewrite app_nil_r. now destruct st.
  - cbn [foldl]. rewrite IH.
    apply whitelisted_type in Hc as (_ & H1 & H2 & H3 & _). cbn [fst] in *.
    unfold collect_chunk. repeat (case_decide; [contradiction |]).
    cbn [idat_parts ancillary_chunks plte trns]. now rewrite <- app_assoc.
Qed.

Lemma check_header_truecolor (width height : Z) :
  0 <= width < 4294967296 -> 0 <= height < 4294967296 ->
  check_header IHDR (be32 width ++ be32 height ++ [8; 2; 0; 0; 0])
  = Ok (Ihdr width height 8 2 0 0 0).
Proof.
  intros Hw Hh. unfold check_header.
  case_decide; [contradiction |].
  case_decide as Hlen; [exfalso; apply Hlen; reflexivity |].
  assert (Hhdr : struct_unpack_IHDR (be32 width ++ be32 height ++ [8; 2; 0; 0; 0])
                 = Ihdr width height 8 2 0 0 0).
  { unfold struct_unpack_IHDR.
    change (slice (be32 width ++ be32 height ++ [8; 2; 0; 0; 0]) 0 4) with (be32 width).
    change (slice (be32 width ++ be32 height ++ [8; 2; 0; 0; 0]) 4 8) with (be32 height).
    rewrite !struct_unpack_I_be32 by assumption. reflexivity. }
  rewrite Hhdr. cbn [ihdr_bit_depth ihdr_interlace ihdr_compression ihdr_filter_method].
  case_decide; [contradiction |]. case_decide; [contradiction |].
  case_decide as Hcf; [destruct Hcf; contradiction | reflexivity].
Qed.

(** The output stream, read as chunks. *)
Lemma output_stream_chunks (width height : Z) (ancillary : list (list Z * list Z))
    (compressed : list Z) :
  output_stream width height ancillary compressed
  = PNG_SIGNATURE
    ++ raw_chunk (with_crc (IHDR, be32 width ++ be32 height ++ [8; 2; 0; 0; 0]))
    ++ flat_map raw_chunk
         (map with_crc (filter whitelisted ancillary ++ [(IDAT, compressed)]))
    ++ chunk_wire (IEND, []).
Proof.
  unfold output_stream. rewrite chunk_wire_with_crc. do 2 f_equal.
  rewrite map_app, flat_map_app. cbn [map flat_map]. rewrite app_nil_r, <- app_assoc.
  rewrite <- chunk_wire_with_crc. f_equal.
  induction (filter whitelisted ancillary) as [|c l IH]; [reflexivity |].
  cbn [map flat_map]. now rewrite IH, chunk_wire_with_crc.
Qed.

Lemma filter_whitelisted_ok (ancillary : list (list Z * list Z)) :
  Forall (fun c => fits32 c.2) ancillary ->
  Forall (fun c => whitelisted c /\ fits32 c.2) (filter whitelisted ancillary).
Proof.
  induction 1 as [|c l Hc _ IH]; [constructor |].
  destruct (decide (whitelisted c)) as [Hw | Hw].
  - rewrite filter_cons_True by exact Hw. now constructor.
  - now rewrite filter_cons_False by exact Hw.
Qed.

Lemma rows_untouched_bytes (rows : list (list Z)) :
  Forall bytes_ok rows -> bytes_ok (rows_untouched rows).
Proof.
  unfold rows_untouched, bytes_ok.
  induction 1 as [|row rows Hrow _ IH]; [constructor |].
  cbn [flat_map]. constructor; [unfold is_byte; lia |].
  apply Forall_app. now split.
Qed.

(** The tool reads its own output back as what it wrote. *)
Lemma own_output_decodes (z : zlib) (width height : Z)
    (ancillary : list (list Z * list Z)) (rgb : list Z) :
  codec_round_trip z ->
  0 <= width < 4294967296 -> 0 <= height < 4294967296 ->
  bytes_ok rgb -> length rgb = (Z.to_nat height * (Z.to_nat width * 3))%nat ->
  Forall (fun c => fits32 c.2) ancillary ->
  fits32 (zlib_compress z
            (rows_untouched (image_rows rgb (Z.to_nat width * 3) (Z.to_nat height))) 9) ->
  fst (decode_and_flatten z
         (output_stream width height ancillary
            (zlib_compress z
               (rows_untouched (image_rows rgb (Z.to_nat width * 3) (Z.to_nat height)))
               9)))
  = Ok (Flattened width height (filter whitelisted ancillary)
          (zlib_compress z
             (rows_untouched (image_rows rgb (Z.to_nat width * 3) (Z.to_nat height)))
             9)).
Proof.
  intros Hrt Hw Hh Hrgb Hlen Hanc Hfit.
  set (raw := rows_untouched (image_rows rgb (Z.to_nat width * 3) (Z.to_nat height))) in *.
  set (comp := zlib_compress z raw 9) in *.
  pose proof (filter_whitelisted_ok ancillary Hanc) as Hwl.
  set (wl := filter whitelisted ancillary) in *.
  assert (Hrows : Forall (fun row => length row = (Z.to_nat width * 3)%nat /\ bytes_ok row)
                    (image_rows rgb (Z.to_nat width * 3) (Z.to_nat height)))
    by (apply image_rows_ok; [assumption | lia]).
  assert (Hraw : bytes_ok raw).
  { apply rows_untouched_bytes.
    eapply Forall_impl; [exact Hrows |]. now intros row [_ ?]. }
  destruct (Hrt raw Hraw) as [Hcomp Hback]. fold comp in Hcomp, Hback.
  rewrite output_stream_chunks. fold wl.
  unfold with_crc at 1. cbn [fst snd].
  rewrite decode_structured.
  2:{ apply (with_crc_ok (IHDR, be32 width ++ be32 height ++ [8; 2; 0; 0; 0]));
        [reflexivity |].
      unfold fits32. cbn [snd].
      rewrite !length_app, !be32_length. cbn. lia. }
  2:{ apply Forall_fmap, Forall_app. split.
      - eapply Forall_impl; [exact Hwl |]. intros c [Hc Hfits]. unfold compose.
        apply with_crc_ok; [apply (whitelisted_type c Hc) | assumption].
      - constructor; [| constructor]. unfold compose. now apply with_crc_ok. }
  2:{ apply Forall_fmap, Forall_app. split.
      - eapply Forall_impl; [exact Hwl |]. intros c [Hc _]. unfold compose.
        apply (whitelisted_type c Hc).
      - constructor; [| constructor]. unfold compose. cbn. discriminate. }
  2:{ right. exists [], (be32 (Z.land (zlib_crc32 (IEND ++ []) 0) 0xFFFFFFFF)), [].
      split; [| now rewrite app_nil_r].
      apply (with_crc_ok (IEND, [])); [reflexivity | unfold fits32; cbn; lia]. }
  rewrite check_header_truecolor by assumption. rsimpl.
  rewrite chunk_content_with_crc, foldl_app, (collect_whitelisted wl).
  2:{ eapply Forall_impl; [exact Hwl |]. now intros c [Hc _]. }
  cbn [foldl idat_parts ancillary_chunks plte trns app].
  unfold collect_chunk. case_decide; [| contradiction].
  cbn [idat_parts ancillary_chunks plte trns app].
  set (hdr := Ihdr width height 8 2 0 0 0).
  set (st := Chunks [comp] wl None None).
  assert (Ha : acceptable z hdr st raw).
  { refine (conj _ (conj _ (conj (or_intror (or_introl eq_refl)) (conj _ (conj _ _))))).
    - discriminate.
    - cbn [st idat_parts concat]. now rewrite app_nil_r.
    - cbn [hdr ihdr_height ihdr_width ihdr_color_type].
      change (channels 2) with 3%nat. unfold raw.
      rewrite (rows_untouched_length _ (Z.to_nat width * 3)).
      + unfold image_rows. rewrite length_map, length_seq. lia.
      + eapply Forall_impl; [exact Hrows |]. now intros row [? _].
    - cbn [hdr ihdr_height ihdr_width ihdr_color_type].
      change (channels 2) with 3%nat. intros y Hy. unfold raw.
      rewrite row_tag_rows_untouched by lia. unfold known_tag. lia.
    - cbn [hdr ihdr_color_type]. discriminate. }
  destruct (transform_accepted_raw z hdr st raw ltac:(cbn; lia) ltac:(cbn; lia) eq_refl
              Hraw) as (recon & Hrun & _ & _ & ->); [| exact Ha |].
  { split; [| split; intros ? [=]]. cbn [st idat_parts]. now repeat constructor. }
  cbn [hdr ihdr_height ihdr_width ihdr_color_type] in Hrun |- *.
  change (channels 2) with 3%nat in Hrun.
  unfold raw in Hrun. rewrite unfilter_rows_untouched in Hrun by (assumption || lia).
  injection Hrun as <-.
  unfold rgb_pixels. cbn [hdr ihdr_color_type].
  case_decide; [discriminate |]. case_decide; [| contradiction].
  reflexivity.
Qed.

Lemma filter_whitelisted_twice (l : list (list Z * list Z)) :
  filter whitelisted (filter whitelisted l) = filter whitelisted l.
Proof.
  induction l as [|c l IH]; [reflexivity |].
  destruct (decide (whitelisted c)) as [Hw | Hw].
  - rewrite (filter_cons_True _ _ _ Hw), (filter_cons_True _ _ _ Hw). now rewrite IH.
  - now rewrite (filter_cons_False _ _ _ Hw).
Qed.

(** X11.  The tool accepts what it writes, and writes it again unchanged.
    Take any output stream of the tool: a width and a height that fit 32
    bits, ancillary chunks, and as pixel data the compressed rows, each with
    filter tag 0, of an RGB buffer of [height * width * 3] bytes.  With a
    codec whose decompressor undoes its compressor, decoding that stream
    succeeds and the writing half produces the very same bytes.  So a run on
    a file holding the stream either fails to open its output path
    ([OSError], nothing changed) or succeeds and stores the same bytes in
    the file that path names; when that is the input file itself, the file
    system is left exactly as it was. *)
Theorem flatten_own_output_unchanged (z : zlib) (sys : os) (width height : Z)
    (ancillary : list (list Z * list Z)) (rgb : list Z)
    (src_path : string) (dst_path : option string) (overwrite : bool)
    (files : gmap inode (list Z)) (src_file : inode) :
  let compressed :=
    zlib_compress z
      (rows_untouched (image_rows rgb (Z.to_nat width * 3) (Z.to_nat height))) 9 in
  let f := output_stream width height ancillary compressed in
  let d := Flattened width height (filter whitelisted ancillary) compressed in
  let output_path := resolve_output_path src_path dst_path overwrite in
  codec_round_trip z ->
  0 <= width < 4294967296 -> 0 <= height < 4294967296 ->
  bytes_ok rgb -> length rgb = (Z.to_nat height * (Z.to_nat width * 3))%nat ->
  Forall (fun c => fits32 c.2) ancillary ->
  fits32 compressed ->
  os_open_rb sys src_path = Some src_file -> files !! src_file = Some f ->
  fst (decode_and_flatten z f) = Ok d
  /\ write_png d [] = (Ok tt, f)
  /\ match os_open_wb sys output_path with
     | None =>
       flatten_png_alpha_to_white z sys src_path dst_path overwrite files
       = (Raise OSError, files)
     | Some out_file =>
       flatten_png_alpha_to_white z sys src_path dst_path overwrite files
       = (Ok output_path, <[out_file := f]> files)
       /\ (out_file = src_file -> <[out_file := f]> files = files)
     end.
Proof.
  intros compressed f d output_path Hrt Hw Hh Hrgb Hlen Hanc Hfit Hopen Hsrc.
  assert (Hdec : fst (decode_and_flatten z f) = Ok d)
    by (now apply own_output_decodes).
  assert (Hwrite : write_png d [] = (Ok tt, f)).
  { rewrite write_png_spec; unfold d;
      cbn [out_width out_height out_ancillary out_compressed]; try assumption.
    - case_decide; [| contradiction].
      unfold f, output_stream. now rewrite filter_whitelisted_twice.
    - eapply Forall_impl; [apply (filter_whitelisted_ok ancillary Hanc) |].
      now intros c [_ ?]. }
  split; [exact Hdec |]. split; [exact Hwrite |].
  unfold flatten_png_alpha_to_white.
  rewrite Hopen. cbn [mbind option_bind]. rewrite Hsrc, Hdec.
  fold output_path.
  destruct (os_open_wb sys output_path) as [out_file |]; [| reflexivity].
  rewrite Hwrite. split; [reflexivity |].
  intros ->. now apply insert_id.
Qed.

(** One RGB pixel and an [sRGB] chunk, rewritten in place. *)
Lemma flatten_own_output_unchanged_witness :
  flatten_png_alpha_to_white stored example_os "a.png" None true
    {[ 1%N := output_stream 1 1 [(sRGB, [0])] [0; 10; 20; 30] ]}
  = (Ok "a.png"%string, {[ 1%N := output_stream 1 1 [(sRGB, [0])] [0; 10; 20; 30] ]}).
Proof.
  destruct (flatten_own_output_unchanged stored example_os 1 1 [(sRGB, [0])]
              [10; 20; 30] "a.png" None true
              {[ 1%N := output_stream 1 1 [(sRGB, [0])] [0; 10; 20; 30] ]} 1%N)
    as (_ & _ & Hrun).
  - intros x Hx. now split.
  - lia.
  - lia.
  - apply bytes_ok_forallb. reflexivity.
  - reflexivity.
  - constructor; [| constructor]. unfold fits32. cbn. lia.
  - unfold fits32. vm_compute. reflexivity.
  - reflexivity.
  - apply lookup_singleton_eq.
  - change (os_open_wb example_os (resolve_output_path "a.png" None true))
      with (Some 1%N) in Hrun.
    cbv beta iota in Hrun. destruct Hrun as [Hrun Hsame].
    rewrite (Hsame eq_refl) in Hrun. exact Hrun.
Defined.

(** ** From filtered rows to the output pixel data *)

Lemma filter_row_bytes (filter_type : Z) (bytes_per_pixel : nat) (prev_row row : list Z) :
  bytes_ok (filter_row filter_type bytes_per_pixel prev_row row).
Proof.
  unfold bytes_ok, filter_row. apply Forall_lookup_2. intros i x.
  rewrite list_lookup_imap. destruct (row !! i) as [v |]; [| discriminate].
  intros [= <-]. unfold is_byte. apply Z.mod_pos_bound. lia.
Qed.

Lemma filter_image_bytes (bytes_per_pixel n : nat) (rows : list (Z * list Z)) :
  Forall (tagged_row_ok n) rows ->
  forall prev_row, bytes_ok (filter_image bytes_per_pixel prev_row rows).
Proof.
  induction 1 as [|[t row] rows (Ht & _ & _) _ IH]; intros prev_row; [constructor |].
  cbn [filter_image]. unfold bytes_ok. constructor.
  - unfold known_tag in Ht. cbn [fst] in Ht. unfold is_byte. lia.
  - apply Forall_app. split; [apply filter_row_bytes | apply IH].
Qed.

Lemma channels_pos (color_type : Z) : (1 <= channels color_type)%nat.
Proof. unfold channels. repeat case_decide; lia. Qed.

(** X12.  End to end, from the rows of the input image to the pixel data
    of the output.  Take a header that passed the checks, with colour type
    6, 2 or 3 (and then a palette of whole triples), and pixel data that
    decompresses to the image's rows, each filtered with a filter type of
    its own from 0 to 4.  Whatever the filters were, the transformation
    succeeds, and what it compresses is: for colour type 6 every RGBA pixel
    composited over white, for colour type 2 the RGB bytes as they are, for
    colour type 3 every index looked up in the palette and composited with
    its transparency entry; laid out in rows of [width * 3] bytes, each
    behind a filter tag 0. *)
Theorem transform_filtered_image (z : zlib) (hdr : ihdr) (st : chunks)
    (rows : list (Z * list Z)) :
  let width := Z.to_nat (ihdr_width hdr) in
  let height := Z.to_nat (ihdr_height hdr) in
  let c := channels (ihdr_color_type hdr) in
  0 <= ihdr_width hdr -> 0 <= ihdr_height hdr -> ihdr_bit_depth hdr = 8 ->
  (ihdr_color_type hdr = 6 \/ ihdr_color_type hdr = 2 \/ ihdr_color_type hdr = 3) ->
  (ihdr_color_type hdr = 3 -> exists p, plte st = Some p /\ (length p mod 3 = 0)%nat) ->
  tables_ok st -> idat_parts st <> [] ->
  length rows = height -> Forall (tagged_row_ok (width * c)) rows ->
  zlib_decompress z (concat (idat_parts st))
  = Some (filter_image c (replicate (width * c) 0) rows) ->
  transform z hdr st
  = Ok (Flattened (ihdr_width hdr) (ihdr_height hdr) (ancillary_chunks st)
          (zlib_compress z
             (rows_untouched
                (image_rows (rgb_pixels hdr st (concat (map snd rows)))
                   (width * 3) height))
             9)).
Proof.
  intros width height c Hw Hh Hbd Hct Hpal Hst Hidat Hrows Hok Hdec.
  set (raw := filter_image c (replicate (width * c) 0) rows) in *.
  assert (Hraw : bytes_ok raw) by (now apply (filter_image_bytes c (width * c))).
  assert (Hlen : length raw = (height * (1 + width * c))%nat).
  { unfold raw. rewrite (filter_image_length c (width * c) rows Hok). now rewrite Hrows. }
  pose proof (unfilter_image_rows (width * c) c rows (channels_pos _) Hok) as Hrun.
  fold raw in Hrun. rewrite Hrows in Hrun.
  assert (Htags : forall y, (y < height)%nat -> known_tag (row_tag raw (width * c) y)).
  { destruct (tags_known_or_first_unknown raw (width * c) height)
      as [Htags | (y & Hy & Hbefore & Hunknown)]; [exact Htags |].
    destruct (unfilter_scanlines_cases raw height (width * c) c Hraw ltac:(lia))
      as [_ Hbad].
    rewrite (Hbad y Hy Hbefore Hunknown) in Hrun. discriminate. }
  assert (Ha : acceptable z hdr st raw).
  { refine (conj Hidat (conj Hdec (conj Hct (conj _ (conj Htags Hpal))))).
    fold height width c. lia. }
  destruct (transform_accepted_raw z hdr st raw Hw Hh Hbd Hraw Hst Ha)
    as (recon & Hrun' & _ & _ & ->).
  fold height width c in Hrun'. rewrite Hrun in Hrun'. injection Hrun' as <-.
  reflexivity.
Qed.

(** Two RGBA pixels in one row, filtered with Sub: one half transparent,
    one fully transparent. *)
Lemma transform_filtered_image_witness :
  transform stored (Ihdr 2 1 8 6 0 0 0)
    (Chunks [filter_image 4 (replicate 8 0) [(1, [200; 100; 50; 128; 9; 9; 9; 0])]]
       [] None None)
  = Ok (Flattened 2 1 [] [0; 227; 177; 152; 255; 255; 255]).
Proof.
  refine (eq_trans
            (transform_filtered_image stored (Ihdr 2 1 8 6 0 0 0)
               (Chunks [filter_image 4 (replicate 8 0)
                          [(1, [200; 100; 50; 128; 9; 9; 9; 0])]]
                  [] None None)
               [(1, [200; 100; 50; 128; 9; 9; 9; 0])] _ _ _ _ _ _ _ _ _ _) _).
  - cbn. lia.
  - cbn. lia.
  - reflexivity.
  - now left.
  - intros [=].
  - split; [| split; intros ? [=]].
    constructor; [| constructor]. apply bytes_ok_forallb. reflexivity.
  - discriminate.
  - reflexivity.
  - constructor; [| constructor]. split; [| split].
    + unfold known_tag. cbn. lia.
    + reflexivity.
    + apply bytes_ok_forallb. reflexivity.
  - reflexivity.
  - vm_compute. reflexivity.
Defined.
